(** * The Earth example of PUMAS with a TURTLE geometry: [examples/earth.c]

    A shallow embedding of the example program: its three static handles, the
    media table, the medium callback [earth_medium], the random source
    [uniform01], [print_state], the two exit routines and [main] with its
    transport loop.  The program runs in a monad over its state, the
    objects whose address it takes and the log of the calls it makes; the
    PUMAS and TURTLE libraries and the C runtime answer through an interface
    record ([extern]).

    The file has the data and the program first, then the notions used to
    state its properties, a small flat world to run it in, and the theorems:
    the callback, the set-up, the loop, the exit paths, and the range of the
    random source in binary64. *)

From Stdlib Require Import ZArith Lia Bool.
From Stdlib Require Import Floats.SpecFloat.
From stdpp Require Import gmap strings list.

Open Scope Z_scope.

(** ** C data *)

(** [double] is IEEE-754 binary64, with the operations of [SpecFloat]. *)
Definition double := spec_float.
Definition prec : Z := 53.
Definition emax : Z := 1024.

(** Conversion of an [int] to [double] (exact below 2^53). *)
Definition double_of_int (n : Z) : double := binary_normalize prec emax n 0 false.
(** The literal [m * 2^e]. *)
Definition double_lit (m e : Z) : double := binary_normalize prec emax m e false.
Definition double_div : double -> double -> double := SFdiv prec emax.
Definition double_eqb : double -> double -> bool := SFeqb.
Definition double_ltb : double -> double -> bool := SFltb.
Definition double_leb : double -> double -> bool := SFleb.

Definition zero : double := double_of_int 0.
Definition one : double := double_of_int 1.

(** [double v[3]]. *)
Record vec3 := mkVec3 { vx : double; vy : double; vz : double }.

(** A pointer to function, known by the name of the function. *)
Definition fnptr := string.

Definition EXIT_SUCCESS : Z := 0.
Definition EXIT_FAILURE : Z := 1.

(** ** The PUMAS and TURTLE interface, as the program uses it *)

(** Modelled from the spec: [struct pumas_state] (pumas.h is not part of the
    sources).  The fields are those of the spec's Particle State, which are
    also the ones [main] initialises. *)
Record pumas_state := mkState {
  charge : double;
  energy : double;
  weight : double;
  position : vec3;
  direction : vec3
}.

(** [struct pumas_medium]: the two members initialised at lines 72-73. *)
Record pumas_medium := mkMedium {
  material : Z;
  locals : option fnptr
}.

(** A value of type [struct pumas_medium *]: NULL, or [earth_media + i]. *)
Inductive medium_ptr_val :=
| NULL_medium
| earth_media_plus (i : Z).

(** [enum pumas_step]: the tag a medium callback returns. *)
Inductive pumas_step := PUMAS_STEP_CHECK | PUMAS_STEP_APPROXIMATE.

(** [struct pumas_context]: the members [main] assigns. *)
Record pumas_context := mkContext {
  medium : option fnptr;
  random : option fnptr;
  event : Z
}.

(** A physics object is opaque; it is known by its address. *)
Definition pumas_physics := positive.

(** Modelled from the source comment at lines 194-207: a TURTLE stepper is
    the stack of its topography layers, bottom first, each with the flat
    ground levels added to it. *)
Definition turtle_stepper := list (list double).

Definition stepper_create : turtle_stepper := [].

(** A new layer is opened on top of the stack. *)
Definition stepper_add_layer (s : turtle_stepper) : turtle_stepper := s ++ [[]].

(** Data goes to the top layer; the first layer is opened when there is none. *)
Definition stepper_add_flat (z : double) (s : turtle_stepper) : turtle_stepper :=
  match reverse s with
  | [] => [[z]]
  | top :: below => reverse below ++ [top ++ [z]]
  end.

(** The result of a PUMAS call: the value, or the message of the error that
    the library reports to the error handler. *)
Definition pumas_result (A : Type) : Type := string + A.

(** ** Memory and log *)

Definition loc := positive.

(** An object with automatic storage whose address is taken.  A pointer or
    double object holds [None] until it is assigned.  A pointer designates a
    whole object of its type; pointers to a member of a state are not
    modelled. *)
Inductive cell :=
| cell_state (s : pumas_state)
| cell_medium (m : option medium_ptr_val)
| cell_double (d : option double).

(** Calls to the outside. *)
Inductive call :=
| c_fputs_stderr (text : string)
| c_fprintf_stderr (text : string)
| c_perror (text : string)
| c_printf_state (step : Z) (e : double) (altitude : double) (mat : string)
| c_strtod (text : string)
| c_fopen (path : string)
| c_fclose
| c_pumas_error_handler_set (h : fnptr)
| c_pumas_physics_load
| c_pumas_physics_material_index (name : string)
| c_pumas_physics_material_name (index : Z)
| c_pumas_context_create
| c_pumas_context_transport (ctx : pumas_context) (s : pumas_state)
| c_turtle_stepper_create
| c_turtle_stepper_add_flat (z : double)
| c_turtle_stepper_add_layer
| c_turtle_stepper_position
| c_turtle_stepper_step (stp : option turtle_stepper) (pos : vec3)
| c_turtle_ecef_from_horizontal
| c_turtle_ecef_to_geodetic (pos : vec3)
| c_rand
| c_turtle_stepper_destroy (h : option turtle_stepper)
| c_pumas_context_destroy (h : option pumas_context)
| c_pumas_physics_destroy (h : option pumas_physics)
| c_exit (rc : Z).

(** What the libraries and the C runtime answer.  The answers that can differ
    from call to call take the log so far. *)
Record extern := mkExtern {
  x_strtod : string -> double;
  x_fopen : string -> bool;
  x_rand : list call -> Z;
  x_physics_load : pumas_result pumas_physics;
  x_material_index : string -> pumas_result Z;
  x_material_name : Z -> pumas_result string;
  x_context_create : pumas_result pumas_context;
  x_transport : list call -> pumas_context -> option turtle_stepper -> pumas_state ->
                pumas_result (pumas_state * Z * (medium_ptr_val * medium_ptr_val));
  x_stepper_position : option turtle_stepper -> vec3;
  x_stepper_step : option turtle_stepper -> vec3 -> double * (Z * Z);
  x_ecef_from_horizontal : double -> double -> vec3;
  x_ecef_to_geodetic : vec3 -> double
}.

(** The program state: the statics of the file, the handler registered with
    PUMAS, the addressed automatic objects and the log of the calls made, the
    most recent one first. *)
Record world := mkWorld {
  physics : option pumas_physics;
  context : option pumas_context;
  stepper : option turtle_stepper;
  earth_media : list pumas_medium;
  print_state_step : Z;
  error_handler : option fnptr;
  heap : gmap loc cell;
  trace : list call
}.

Definition set_physics (p : option pumas_physics) (w : world) : world :=
  mkWorld p (context w) (stepper w) (earth_media w) (print_state_step w)
          (error_handler w) (heap w) (trace w).
Definition set_context (c : option pumas_context) (w : world) : world :=
  mkWorld (physics w) c (stepper w) (earth_media w) (print_state_step w)
          (error_handler w) (heap w) (trace w).
Definition set_stepper (s : option turtle_stepper) (w : world) : world :=
  mkWorld (physics w) (context w) s (earth_media w) (print_state_step w)
          (error_handler w) (heap w) (trace w).
Definition set_earth_media (m : list pumas_medium) (w : world) : world :=
  mkWorld (physics w) (context w) (stepper w) m (print_state_step w)
          (error_handler w) (heap w) (trace w).
Definition set_print_state_step (n : Z) (w : world) : world :=
  mkWorld (physics w) (context w) (stepper w) (earth_media w) n
          (error_handler w) (heap w) (trace w).
Definition set_error_handler (h : option fnptr) (w : world) : world :=
  mkWorld (physics w) (context w) (stepper w) (earth_media w) (print_state_step w)
          h (heap w) (trace w).
Definition set_heap (h : gmap loc cell) (w : world) : world :=
  mkWorld (physics w) (context w) (stepper w) (earth_media w) (print_state_step w)
          (error_handler w) h (trace w).
Definition log (c : call) (w : world) : world :=
  mkWorld (physics w) (context w) (stepper w) (earth_media w) (print_state_step w)
          (error_handler w) (heap w) (c :: trace w).

(** The calls made so far, in program order. *)
Definition calls (w : world) : list call := reverse (trace w).

(** ** The monad of the program *)

(** A computation returns, or the process has called [exit], or the transport
    loop is still running when the fuel is spent, or the model has no rule
    (an invalid pointer, a library error with no handler of the program). *)
Inductive outcome (A : Type) :=
| Returns (a : A) (w : world)
| Exits (rc : Z) (w : world)
| Runs (w : world)
| Stuck.
Arguments Returns {A} a w.
Arguments Exits {A} rc w.
Arguments Runs {A} w.
Arguments Stuck {A}.

Definition M (A : Type) : Type := world -> outcome A.

#[export] Instance M_ret : MRet M := fun A a w => Returns a w.
#[export] Instance M_bind : MBind M := fun A B f m w =>
  match m w with
  | Returns a w' => f a w'
  | Exits rc w' => Exits rc w'
  | Runs w' => Runs w'
  | Stuck => Stuck
  end.

Definition emit (c : call) : M unit := fun w => Returns tt (log c w).
Definition get {A} (f : world -> A) : M A := fun w => Returns (f w) w.
Definition modify (f : world -> world) : M unit := fun w => Returns tt (f w).
Definition stuck {A} : M A := fun _ => Stuck.

(** The world an outcome ends in. *)
Definition final {A} (o : outcome A) : option world :=
  match o with
  | Returns _ w | Exits _ w | Runs w => Some w
  | Stuck => None
  end.

(** Loads and stores through pointers: the pointer has to designate an object
    of the pointed-to type. *)
Definition load_state (l : loc) : M pumas_state := fun w =>
  match heap w !! l with
  | Some (cell_state s) => Returns s w
  | _ => Stuck
  end.

Definition store_state (l : loc) (s : pumas_state) : M unit := fun w =>
  match heap w !! l with
  | Some (cell_state _) => Returns tt (set_heap (<[l := cell_state s]> (heap w)) w)
  | _ => Stuck
  end.

Definition store_double (l : loc) (d : double) : M unit := fun w =>
  match heap w !! l with
  | Some (cell_double _) => Returns tt (set_heap (<[l := cell_double (Some d)]> (heap w)) w)
  | _ => Stuck
  end.

Definition store_medium (l : loc) (m : medium_ptr_val) : M unit := fun w =>
  match heap w !! l with
  | Some (cell_medium _) => Returns tt (set_heap (<[l := cell_medium (Some m)]> (heap w)) w)
  | _ => Stuck
  end.

Definition load_medium (l : loc) : M medium_ptr_val := fun w =>
  match heap w !! l with
  | Some (cell_medium (Some m)) => Returns m w
  | _ => Stuck
  end.

(** ** The program *)

Section Program.

Variable E : extern.

(** Constants of pumas.h and stdlib.h, whose values the sources do not give. *)
Variable PUMAS_EVENT_MEDIUM : Z.
Variable RAND_MAX : Z.

(** Lines 48-54. *)
Definition exit_gracefully {A} (rc : Z) : M A := fun w =>
  let w1 := set_stepper None (log (c_turtle_stepper_destroy (stepper w)) w) in
  let w2 := set_context None (log (c_pumas_context_destroy (context w1)) w1) in
  let w3 := set_physics None (log (c_pumas_physics_destroy (physics w2)) w2) in
  Exits rc (log (c_exit rc) w3).

(** Lines 57-66.  The two texts are logged without their final newline. *)
Definition handle_error {A} (message : string) : M A :=
  emit (c_fputs_stderr "pumas: library error. See details below");;
  emit (c_fprintf_stderr ("error: " +:+ message));;
  exit_gracefully EXIT_FAILURE.

(** A PUMAS call: it is logged; an error goes to the registered handler, and
    control does not come back. *)
Definition pumas_call {A} (c : call) (r : pumas_result A) : M A :=
  emit c;;
  match r with
  | inr a => mret a
  | inl message =>
      h ← get error_handler;
      match h with
      | Some "handle_error"%string => handle_error message
      | _ => stuck
      end
  end.

(** Line 71. *)
Definition NUMBER_OF_LAYERS : Z := 3.

(** Lines 94-95: the stepper is asked for a tentative step from the position;
    the direction and the five geodetic outputs are NULL.  The answer is the
    step length and the two indices; the position is read only (lines 82-84:
    the particle is not moved). *)
Definition turtle_stepper_step (pos : vec3) : M (double * (Z * Z)) :=
  stp ← get stepper;
  emit (c_turtle_stepper_step stp pos);;
  mret (x_stepper_step E stp pos).

(** Lines 78-108. *)
Definition earth_medium (ctx : option pumas_context) (state : loc)
    (medium_ptr step_ptr : option loc) : M pumas_step :=
  s ← load_state state;
  r ← turtle_stepper_step (position s);
  let step := fst r in
  let index := snd r in
  match step_ptr with
  | Some p => store_double p step
  | None => mret tt
  end;;
  match medium_ptr with
  | Some p =>
      if (0 <=? fst index) && (fst index <? NUMBER_OF_LAYERS)
      then store_medium p (earth_media_plus (fst index))
      else store_medium p NULL_medium
  | None => mret tt
  end;;
  mret PUMAS_STEP_APPROXIMATE.

(** Lines 113-116.  [rand] returns an [int] between 0 and [RAND_MAX]. *)
Definition uniform01_of (r : Z) : double :=
  double_div (double_of_int r) (double_of_int RAND_MAX).

Definition uniform01 (ctx : option pumas_context) : M double :=
  hist ← get trace;
  emit c_rand;;
  mret (uniform01_of (x_rand E hist)).

(** Automatic objects whose address is taken live in the heap while their
    block runs. *)
Definition alloc (c : cell) : M loc := fun w =>
  let l := fresh (dom (heap w)) in
  Returns l (set_heap (<[l := c]> (heap w)) w).
Definition free (l : loc) : M unit :=
  modify (fun w => set_heap (delete l (heap w)) w).

(** [medium->material] for a pointer into the media table. *)
Definition medium_material (i : Z) : M Z := fun w =>
  match earth_media w !! Z.to_nat i with
  | Some m => if 0 <=? i then Returns (material m) w else Stuck
  | None => Stuck
  end.

(** Lines 119-139.  The counter [step] is a static of the function; it is
    kept unbounded here (an [int] would overflow after 2^31 - 1 lines): the
    model and the program agree on it as long as it stays below [INT_MAX]. *)
Definition print_state (state : loc) : M unit :=
  medium_l ← alloc (cell_medium None);
  ctx ← get context;
  earth_medium ctx state (Some medium_l) None;;
  m ← load_medium medium_l;
  mat ← match m with
        | NULL_medium => mret "(void)"%string
        | earth_media_plus i =>
            id ← medium_material i;
            pumas_call (c_pumas_physics_material_name id) (x_material_name E id)
        end;
  s ← load_state state;
  emit (c_turtle_ecef_to_geodetic (position s));;
  let altitude := x_ecef_to_geodetic E (position s) in
  n ← get print_state_step;
  emit (c_printf_state n (energy s) altitude mat);;
  modify (set_print_state_step (n + 1));;
  free medium_l.

(** Line 236: the engine works on the state in place and fills [event] and
    [media].  The engine is an oracle of the model: the log has the call of
    the engine, and not what the engine calls while it runs, the callbacks
    of the context ([earth_medium], line 186, and [uniform01], line 189)
    among it. *)
Definition pumas_context_transport (state : loc) :
    M (Z * (medium_ptr_val * medium_ptr_val)) :=
  c ← get context;
  match c with
  | None => stuck
  | Some ctx =>
      s ← load_state state;
      stp ← get stepper;
      hist ← get trace;
      r ← pumas_call (c_pumas_context_transport ctx s) (x_transport E hist ctx stp s);
      store_state state (fst (fst r));;
      mret (snd (fst r), snd r)
  end.

Definition is_NULL (m : medium_ptr_val) : bool :=
  match m with NULL_medium => true | earth_media_plus _ => false end.

(** Line 240. *)
Definition loop_break (s : pumas_state) (media : medium_ptr_val * medium_ptr_val) : bool :=
  double_eqb (energy s) zero || is_NULL (snd media).

(** Lines 236-238: one propagation step and its observation. *)
Definition loop_body (state : loc) : M (pumas_state * (medium_ptr_val * medium_ptr_val)) :=
  r ← pumas_context_transport state;
  print_state state;;
  s ← load_state state;
  mret (s, snd r).

(** Lines 233-241: [for (;;)], run for at most [fuel] iterations. *)
Fixpoint transport_loop (fuel : nat) (state : loc) : M unit :=
  match fuel with
  | O => fun w => Runs w
  | S fuel' =>
      r ← loop_body state;
      if loop_break (fst r) (snd r) then mret tt else transport_loop fuel' state
  end.

Definition strtod (text : string) : M double :=
  emit (c_strtod text);; mret (x_strtod E text).

Definition with_context (f : pumas_context -> pumas_context) : M unit := fun w =>
  match context w with
  | Some c => Returns tt (set_context (Some (f c)) w)
  | None => Stuck
  end.

Definition with_stepper (c : call) (f : turtle_stepper -> turtle_stepper) : M unit :=
  emit c;;
  s ← get stepper;
  match s with
  | Some s => modify (set_stepper (Some (f s)))
  | None => stuck
  end.

(** [earth_media[k].material = id], through the output pointer of
    [pumas_physics_material_index]. *)
Definition set_material (k : nat) (name : string) : M unit :=
  id ← pumas_call (c_pumas_physics_material_index name) (x_material_index E name);
  modify (fun w => set_earth_media
    (alter (fun m => mkMedium id (locals m)) k (earth_media w)) w).

(** Lines 146-148: the usage line, with [argv[0]], logged without its final
    newline.  For an empty [argv], where [argv[0]] is NULL and the C program
    gives NULL to [%s], the model has the empty string. *)
Definition usage (argv : list string) : string :=
  "Usage: " +:+ default ""%string (argv !! 0%nat) +:+ " AZIMUTH ELEVATION KINETIC_ENERGY".

(** Lines 144-229: everything [main] does before the first observation.  It
    returns [&state]. *)
Definition main_setup (argv : list string) : M loc :=
  (if Z.of_nat (length argv) <? 4
   then emit (c_fprintf_stderr (usage argv));; exit_gracefully EXIT_FAILURE
   else mret tt);;
  azimuth ← strtod (default ""%string (argv !! 1%nat));
  elevation ← strtod (default ""%string (argv !! 2%nat));
  energy0 ← strtod (default ""%string (argv !! 3%nat));
  emit (c_pumas_error_handler_set "handle_error");;
  modify (set_error_handler (Some "handle_error"%string));;
  let dump_file := "materials/dump"%string in
  emit (c_fopen dump_file);;
  (if x_fopen E dump_file
   then mret tt
   else emit (c_perror dump_file);; exit_gracefully EXIT_FAILURE);;
  p ← pumas_call c_pumas_physics_load (x_physics_load E);
  modify (set_physics (Some p));;
  emit c_fclose;;
  set_material 0 "StandardRock";;
  set_material 1 "Water";;
  set_material 2 "Air";;
  c ← pumas_call c_pumas_context_create (x_context_create E);
  modify (set_context (Some c));;
  with_context (fun c => mkContext (Some "earth_medium"%string) (random c) (event c));;
  with_context (fun c => mkContext (medium c) (Some "uniform01"%string) (event c));;
  with_context (fun c => mkContext (medium c) (random c) (Z.lor (event c) PUMAS_EVENT_MEDIUM));;
  emit c_turtle_stepper_create;;
  modify (set_stepper (Some stepper_create));;
  with_stepper (c_turtle_stepper_add_flat (double_of_int (-1000)))
               (stepper_add_flat (double_of_int (-1000)));;
  with_stepper c_turtle_stepper_add_layer stepper_add_layer;;
  with_stepper (c_turtle_stepper_add_flat (double_of_int 0))
               (stepper_add_flat (double_of_int 0));;
  with_stepper c_turtle_stepper_add_layer stepper_add_layer;;
  with_stepper (c_turtle_stepper_add_flat (double_of_int 1000))
               (stepper_add_flat (double_of_int 1000));;
  let zero3 := mkVec3 zero zero zero in
  state ← alloc (cell_state (mkState (double_of_int (-1)) energy0 one zero3 zero3));
  stp ← get stepper;
  emit c_turtle_stepper_position;;
  s ← load_state state;
  store_state state (mkState (charge s) (energy s) (weight s)
                             (x_stepper_position E stp) (direction s));;
  emit c_turtle_ecef_from_horizontal;;
  s ← load_state state;
  store_state state (mkState (charge s) (energy s) (weight s) (position s)
                             (x_ecef_from_horizontal E azimuth elevation));;
  mret state.

(** Lines 142-245. *)
Definition main (fuel : nat) (argv : list string) : M Z :=
  state ← main_setup argv;
  print_state state;;
  transport_loop fuel state;;
  exit_gracefully EXIT_SUCCESS.

(** The statics at program start (lines 41-45 and 72-73). *)
Definition initial_world : world :=
  mkWorld None None None
          [mkMedium (-1) None; mkMedium (-1) None; mkMedium (-1) None]
          0 None ∅ [].

End Program.

(** ** Reading the program *)

(** The pointer [earth_medium] stores for a layer index (lines 100-104). *)
Definition medium_at (i : Z) : medium_ptr_val :=
  if (0 <=? i) && (i <? NUMBER_OF_LAYERS) then earth_media_plus i else NULL_medium.

(** The pointers of a call designate objects of their types. *)
Definition is_state_object (w : world) (l : loc) : bool :=
  match heap w !! l with Some (cell_state _) => true | _ => false end.
Definition is_medium_object (w : world) (p : option loc) : bool :=
  match p with
  | None => true
  | Some l => match heap w !! l with Some (cell_medium _) => true | _ => false end
  end.
Definition is_double_object (w : world) (p : option loc) : bool :=
  match p with
  | None => true
  | Some l => match heap w !! l with Some (cell_double _) => true | _ => false end
  end.

(** The layer index the stepper reports for the position of a state. *)
Definition layer_index (E : extern) (w : world) (s : pumas_state) : Z :=
  fst (snd (x_stepper_step E (stepper w) (position s))).
Definition step_bound (E : extern) (w : world) (s : pumas_state) : double :=
  fst (x_stepper_step E (stepper w) (position s)).

(** The world [earth_medium] leaves. *)
Definition earth_medium_world (E : extern) (s : pumas_state)
    (medium_ptr step_ptr : option loc) (w : world) : world :=
  let w1 := log (c_turtle_stepper_step (stepper w) (position s)) w in
  let w2 := match step_ptr with
            | Some p => set_heap (<[p := cell_double (Some (step_bound E w s))]> (heap w1)) w1
            | None => w1
            end in
  match medium_ptr with
  | Some p => set_heap (<[p := cell_medium (Some (medium_at (layer_index E w s)))]> (heap w2)) w2
  | None => w2
  end.


(** *** The log *)

Definition is_release (c : call) : bool :=
  match c with
  | c_turtle_stepper_destroy _ | c_pumas_context_destroy _
  | c_pumas_physics_destroy _ | c_exit _ => true
  | _ => false
  end.

Definition is_acquire (c : call) : bool :=
  match c with
  | c_pumas_physics_load | c_pumas_context_create | c_turtle_stepper_create => true
  | _ => false
  end.

Definition is_transport (c : call) : bool :=
  match c with c_pumas_context_transport _ _ => true | _ => false end.

(** No handle has been released and [exit] has not been called. *)
Definition quiet (tr : list call) : bool := forallb (fun c => negb (is_release c)) tr.

(** The acquisitions of a log (most recent first) come in the order physics,
    context, stepper, each at most once. *)
Definition acquired_in_order (tr : list call) : bool :=
  match List.filter is_acquire tr with
  | [] | [c_pumas_physics_load] | [c_pumas_context_create; c_pumas_physics_load]
  | [c_turtle_stepper_create; c_pumas_context_create; c_pumas_physics_load] => true
  | _ => false
  end.

(** The world [exit_gracefully] leaves. *)
Definition exit_world (rc : Z) (w : world) : world :=
  let w1 := set_stepper None (log (c_turtle_stepper_destroy (stepper w)) w) in
  let w2 := set_context None (log (c_pumas_context_destroy (context w1)) w1) in
  let w3 := set_physics None (log (c_pumas_physics_destroy (physics w2)) w2) in
  log (c_exit rc) w3.

(** The material a layer index resolves to: the pointer of [medium_at]
    dereferenced in the media table. *)
Definition resolved_material (w : world) (i : Z) : option Z :=
  match medium_at i with
  | NULL_medium => None
  | earth_media_plus j => material <$> (earth_media w !! Z.to_nat j)
  end.

(** Modelled from the spec: the propagation engine [pumas_context_transport]
    (not part of the sources) on a particle that starts in a void layer.
    Section 4.4, edge cases: such a particle must terminate immediately on
    the first medium check, without consuming a propagation step if possible,
    or else with a degenerate zero-length step.  The engine is called before
    the loop tests anything, so this is the zero-length step: the state comes
    back as it was and the medium after the step is NULL. *)
Definition void_start_is_degenerate (E : extern) : Prop :=
  forall hist ctx stp s,
    let i := fst (snd (x_stepper_step E stp (position s))) in
    i < 0 \/ NUMBER_OF_LAYERS <= i ->
    exists ev m0, x_transport E hist ctx stp s = inr (s, ev, (m0, NULL_medium)).

(** ** A weakest-precondition reading of the monad *)

(** [sat m w Q X R]: run from [w], [m] does not get stuck; if it returns, [Q]
    holds of the value and the world; if the process exits, [X] holds of the
    status and the world; if the fuel runs out, [R] holds of the world. *)
Definition sat {A} (m : M A) (w : world)
    (Q : A -> world -> Prop) (X : Z -> world -> Prop) (R : world -> Prop) : Prop :=
  match m w with
  | Returns a w' => Q a w'
  | Exits rc w' => X rc w'
  | Runs w' => R w'
  | Stuck => False
  end.

(** Every propagation step of a log was given the context [ctx]. *)
Definition all_transports_with (ctx : pumas_context) (tr : list call) : Prop :=
  Forall (fun c => forall c' s, c = c_pumas_context_transport c' s -> c' = ctx) tr.

(** What the transport loop keeps true: the context is the one configured
    before the loop, the handler of the program is registered, the media
    table has its three entries, [state] designates the particle state,
    nothing has been released, the three handles were acquired in order, and
    every propagation step so far was given the configured context. *)
Definition loop_invariant (ctx : pumas_context) (state : loc) (w : world) : Prop :=
  context w = Some ctx /\
  error_handler w = Some "handle_error"%string /\
  length (earth_media w) = 3%nat /\
  is_state_object w state = true /\
  quiet (trace w) = true /\
  acquired_in_order (trace w) = true /\
  all_transports_with ctx (trace w).

(** The log, as it is kept, of a process that has ended with status [rc]: the
    three releases and [exit] are its last calls, nothing was released
    before, and the handles were acquired in order. *)
Definition exit_trace_ok (rc : Z) (tr : list call) : bool :=
  match tr with
  | c_exit rc' :: c_pumas_physics_destroy _ :: c_pumas_context_destroy _
      :: c_turtle_stepper_destroy _ :: pre =>
      (rc' =? rc) && quiet pre && acquired_in_order pre
  | _ => false
  end.

Definition exited_ok (rc : Z) (w : world) : Prop :=
  exit_trace_ok rc (trace w) = true /\
  stepper w = None /\ context w = None /\ physics w = None.

(** A graceful exit of the program once its context is configured. *)
Definition exit_post (ctx : pumas_context) (rc : Z) (w : world) : Prop :=
  exited_ok rc w /\ all_transports_with ctx (trace w).

(** The context as [main] configures it (lines 183-192): the one PUMAS
    creates, with the two callbacks set and the medium flag added to its
    event mask. *)
Definition configured_context (PUMAS_EVENT_MEDIUM : Z) (c : pumas_context) : pumas_context :=
  mkContext (Some "earth_medium"%string) (Some "uniform01"%string)
            (Z.lor (event c) PUMAS_EVENT_MEDIUM).

(** The stepper [main] builds (lines 208-213). *)
Definition earth_layers : turtle_stepper :=
  [[double_of_int (-1000)]; [double_of_int 0]; [double_of_int 1000]].

(** The particle [main] starts with (lines 220-229). *)
Definition initial_state (E : extern) (a1 a2 a3 : string) : pumas_state :=
  mkState (double_of_int (-1)) (x_strtod E a3) one
          (x_stepper_position E (Some earth_layers))
          (x_ecef_from_horizontal E (x_strtod E a1) (x_strtod E a2)).

(** The world at line 231, when nothing has failed: [a1], [a2], [a3] are the
    three arguments, [p] and [c] the physics and the context PUMAS made,
    [rock], [water] and [air] the indices of the three materials. *)
Definition setup_world (E : extern) (PUMAS_EVENT_MEDIUM : Z) (a1 a2 a3 : string)
    (p : pumas_physics) (c : pumas_context) (rock water air : Z) : world :=
  {| physics := Some p;
     context := Some (configured_context PUMAS_EVENT_MEDIUM c);
     stepper := Some earth_layers;
     earth_media := [mkMedium rock None; mkMedium water None; mkMedium air None];
     print_state_step := 0;
     error_handler := Some "handle_error"%string;
     heap := {[ 1%positive := cell_state (initial_state E a1 a2 a3) ]};
     trace := [c_turtle_ecef_from_horizontal; c_turtle_stepper_position;
               c_turtle_stepper_add_flat (double_of_int 1000);
               c_turtle_stepper_add_layer;
               c_turtle_stepper_add_flat (double_of_int 0);
               c_turtle_stepper_add_layer;
               c_turtle_stepper_add_flat (double_of_int (-1000));
               c_turtle_stepper_create;
               c_pumas_context_create;
               c_pumas_physics_material_index "Air";
               c_pumas_physics_material_index "Water";
               c_pumas_physics_material_index "StandardRock";
               c_fclose; c_pumas_physics_load; c_fopen "materials/dump";
               c_pumas_error_handler_set "handle_error";
               c_strtod a3; c_strtod a2; c_strtod a1] |}.

(** The 53-bit mantissa of the binary64 number a positive integer converts
    to. *)
Definition mantissa (p : positive) : positive :=
  Z.to_pos (Z.pos p * 2 ^ (53 - Z.pos (digits2_pos p))).

(** ** A small environment to run the program in *)

(** The altitude of the toy world is the third coordinate. *)
Definition flat_index (pos : vec3) : Z :=
  if double_ltb (vz pos) (double_of_int (-1000)) then 0
  else if double_ltb (vz pos) (double_of_int 0) then 1
  else if double_ltb (vz pos) (double_of_int 1000) then 2
  else -1.

Definition flat_medium (pos : vec3) : medium_ptr_val :=
  let i := flat_index pos in
  if (0 <=? i) && (i <? 3) then earth_media_plus i else NULL_medium.

(** The toy engine lifts the particle into the middle of the next layer, and
    leaves it where it is once it is in the void. *)
Definition flat_lift (pos : vec3) : vec3 :=
  match flat_index pos with
  | 0 => mkVec3 (vx pos) (vy pos) (double_of_int (-500))
  | 1 => mkVec3 (vx pos) (vy pos) (double_of_int 500)
  | 2 => mkVec3 (vx pos) (vy pos) (double_of_int 1500)
  | _ => pos
  end.

Definition flat_extern : extern := {|
  x_strtod := fun _ => double_of_int 1000000000;
  x_fopen := fun _ => true;
  x_rand := fun _ => 0;
  x_physics_load := inr 1%positive;
  x_material_index := fun name =>
    if String.eqb name "StandardRock" then inr 7
    else if String.eqb name "Water" then inr 4
    else if String.eqb name "Air" then inr 2
    else inl "unknown material"%string;
  x_material_name := fun id =>
    if id =? 7 then inr "StandardRock"%string
    else if id =? 4 then inr "Water"%string
    else if id =? 2 then inr "Air"%string
    else inl "unknown index"%string;
  x_context_create := inr (mkContext None None 0);
  x_transport := fun _ _ _ s =>
    let p := flat_lift (position s) in
    inr (mkState (charge s) (energy s) (weight s) p (direction s), 16,
         (flat_medium (position s), flat_medium p));
  x_stepper_position := fun _ => mkVec3 zero zero (double_lit (-2001) (-1));
  x_stepper_step := fun _ pos => (one, (flat_index pos, 0));
  x_ecef_from_horizontal := fun _ _ => mkVec3 zero zero one;
  x_ecef_to_geodetic := fun pos => vz pos
|}.

Definition argv4 : list string := ["earth"; "0"; "90"; "1E+09"]%string.

(** A particle in the rock, 1 m below its top, and the same particle with
    another energy, direction and charge. *)
Definition rock_state : pumas_state :=
  mkState (double_of_int (-1)) (double_of_int 1000000000) one
          (mkVec3 zero zero (double_of_int (-1001))) (mkVec3 zero zero one).
Definition rock_state' : pumas_state :=
  mkState one (double_of_int 5) one
          (mkVec3 zero zero (double_of_int (-1001))) (mkVec3 one zero zero).

(** A particle above the air. *)
Definition void_state : pumas_state :=
  mkState (double_of_int (-1)) (double_of_int 1000000000) one
          (mkVec3 zero zero (double_of_int 1500)) (mkVec3 zero zero one).

(** A world with a state object and the two output objects of a call. *)
Definition callback_world (s : pumas_state) : world :=
  mkWorld (Some 1%positive) (Some (configured_context 16 (mkContext None None 0)))
          (Some earth_layers)
          [mkMedium 7 None; mkMedium 4 None; mkMedium 2 None]
          0 (Some "handle_error"%string)
          (<[1%positive := cell_state s]>
             (<[2%positive := cell_medium None]>
                ({[3%positive := cell_double None]})))
          [].

(** The same environment with [rand] stuck at a given value. *)
Definition rand_extern (r : Z) : extern :=
  mkExtern (x_strtod flat_extern) (x_fopen flat_extern) (fun _ => r)
           (x_physics_load flat_extern) (x_material_index flat_extern)
           (x_material_name flat_extern) (x_context_create flat_extern)
           (x_transport flat_extern) (x_stepper_position flat_extern)
           (x_stepper_step flat_extern) (x_ecef_from_horizontal flat_extern)
           (x_ecef_to_geodetic flat_extern).

(** The same environment with an engine that fails at once. *)
Definition failing_extern : extern :=
  mkExtern (x_strtod flat_extern) (x_fopen flat_extern) (x_rand flat_extern)
           (x_physics_load flat_extern) (x_material_index flat_extern)
           (x_material_name flat_extern) (x_context_create flat_extern)
           (fun _ _ _ _ => inl "density error"%string) (x_stepper_position flat_extern)
           (x_stepper_step flat_extern) (x_ecef_from_horizontal flat_extern)
           (x_ecef_to_geodetic flat_extern).

(** The same environment without the dump file. *)
Definition no_dump_extern : extern :=
  mkExtern (x_strtod flat_extern) (fun _ => false) (x_rand flat_extern)
           (x_physics_load flat_extern) (x_material_index flat_extern)
           (x_material_name flat_extern) (x_context_create flat_extern)
           (x_transport flat_extern) (x_stepper_position flat_extern)
           (x_stepper_step flat_extern) (x_ecef_from_horizontal flat_extern)
           (x_ecef_to_geodetic flat_extern).

(** The world in which the flat run starts its loop. *)
Definition flat_setup_world : world :=
  setup_world flat_extern 16 "0" "90" "1E+09" 1%positive (mkContext None None 0) 7 4 2.

(** The particle of the flat run. *)
Definition rock_start : pumas_state := initial_state flat_extern "0" "90" "1E+09".

(** ** The observation, the turn of the loop and the exits, in full *)

(** The calls [evs], the most recent one first, put on the log. *)
Definition log_all (evs : list call) (w : world) : world :=
  mkWorld (physics w) (context w) (stepper w) (earth_media w) (print_state_step w)
          (error_handler w) (heap w) (evs ++ trace w).

(** Lines 127-132 for a layer index: the look-up of the name that an
    observation makes (none when the medium is NULL), and the name it prints
    ("(void)" when the medium is NULL, else what PUMAS answers). *)
Definition material_lookup (w : world) (i : Z) : list call :=
  match resolved_material w i with
  | Some id => [c_pumas_physics_material_name id]
  | None => []
  end.

Definition material_shown (E : extern) (w : world) (i : Z) : pumas_result string :=
  match resolved_material w i with
  | Some id => x_material_name E id
  | None => inr "(void)"%string
  end.

(** The calls of an observation of [s] up to the look-up of the name (lines
    125-132), the most recent one first. *)
Definition lookup_calls (E : extern) (s : pumas_state) (w : world) : list call :=
  material_lookup w (layer_index E w s) ++ [c_turtle_stepper_step (stepper w) (position s)].

(** The world an observation of [s] leaves when it prints the name [mat]
    (lines 119-139): the counter is one more, the log has the query of the
    stepper, the look-up, the conversion of the position and the line. *)
Definition observed (E : extern) (s : pumas_state) (mat : string) (w : world) : world :=
  set_print_state_step (print_state_step w + 1)
    (log_all (c_printf_state (print_state_step w) (energy s)
                             (x_ecef_to_geodetic E (position s)) mat
              :: c_turtle_ecef_to_geodetic (position s) :: lookup_calls E s w) w).

(** The world [handle_error] leaves (lines 57-66). *)
Definition error_exit (message : string) (w : world) : world :=
  exit_world EXIT_FAILURE
    (log (c_fprintf_stderr ("error: " +:+ message))
       (log (c_fputs_stderr "pumas: library error. See details below") w)).

(** The world a propagation step leaves (line 236) when the engine, given
    [s], answers [s']. *)
Definition stepped (ctx : pumas_context) (state : loc) (s s' : pumas_state) (w : world) : world :=
  set_heap (<[state := cell_state s']> (heap w)) (log (c_pumas_context_transport ctx s) w).

(** Output on [stderr]. *)
Definition is_diagnostic (c : call) : bool :=
  match c with
  | c_fputs_stderr _ | c_fprintf_stderr _ | c_perror _ => true
  | _ => false
  end.

Definition is_line (c : call) : bool :=
  match c with c_printf_state _ _ _ _ => true | _ => false end.

(** The calls of a turn of the loop: the engine (line 236); the calls of an
    observation (lines 125, 130, 136 and 137); and the calls of the two
    callbacks of the context, the query of the stepper of [earth_medium]
    (line 94) and [rand] of [uniform01] (line 115).  [stp] is the stepper
    that is queried. *)
Definition turn_call (stp : option turtle_stepper) (c : call) : Prop :=
  match c with
  | c_pumas_context_transport _ _ | c_pumas_physics_material_name _
  | c_turtle_ecef_to_geodetic _ | c_printf_state _ _ _ _ | c_rand => True
  | c_turtle_stepper_step stp' _ => stp' = stp
  | _ => False
  end.

(** The answer of the engine to a propagation step lets the loop go on.
    [c] is a call of a log and [before] the log before it, the most recent
    call first, which is the history the engine is given.  When [c] is a
    call of the engine, the engine answered a state and media that do not
    pass the test of line 240. *)
Definition goes_on (E : extern) (stp : option turtle_stepper) (c : call)
    (before : list call) : Prop :=
  match c with
  | c_pumas_context_transport ctx s =>
      exists s' ev media,
        x_transport E before ctx stp s = inr (s', ev, media) /\
        loop_break s' media = false
  | _ => True
  end.

Fixpoint every_step_goes_on (E : extern) (stp : option turtle_stepper) (tr : list call) :
    Prop :=
  match tr with
  | [] => True
  | c :: before => goes_on E stp c before /\ every_step_goes_on E stp before
  end.

(** The last propagation step of the log [tr] was answered the state and
    the media [r], and the answers to the steps before it let the loop go
    on. *)
Definition last_answer (E : extern) (stp : option turtle_stepper)
    (r : pumas_state * (medium_ptr_val * medium_ptr_val)) (tr : list call) : Prop :=
  exists evs ctx s ev before,
    tr = evs ++ c_pumas_context_transport ctx s :: before /\
    Forall (fun c => is_transport c = false) evs /\
    x_transport E before ctx stp s = inr (fst r, ev, snd r) /\
    every_step_goes_on E stp before.

(** The propagation steps and the numbered lines of a log. *)
Inductive mark := Step | Line (n : Z).

Definition mark_of (c : call) : list mark :=
  match c with
  | c_pumas_context_transport _ _ => [Step]
  | c_printf_state n _ _ _ => [Line n]
  | _ => []
  end.

Definition marks (l : list call) : list mark := flat_map mark_of l.

(** Line 0, then [k] times a step and the next line. *)
Definition alternation (k : nat) : list mark :=
  Line 0 :: flat_map (fun j => [Step; Line (Z.of_nat j)]) (seq 1 k).

(** The calls of the set-up (lines 153-229), in program order. *)
Definition setup_calls (argv : list string) : list call :=
  [c_strtod (default ""%string (argv !! 1%nat));
   c_strtod (default ""%string (argv !! 2%nat));
   c_strtod (default ""%string (argv !! 3%nat));
   c_pumas_error_handler_set "handle_error";
   c_fopen "materials/dump";
   c_pumas_physics_load;
   c_fclose;
   c_pumas_physics_material_index "StandardRock";
   c_pumas_physics_material_index "Water";
   c_pumas_physics_material_index "Air";
   c_pumas_context_create;
   c_turtle_stepper_create;
   c_turtle_stepper_add_flat (double_of_int (-1000));
   c_turtle_stepper_add_layer;
   c_turtle_stepper_add_flat (double_of_int 0);
   c_turtle_stepper_add_layer;
   c_turtle_stepper_add_flat (double_of_int 1000);
   c_turtle_stepper_position;
   c_turtle_ecef_from_horizontal].

(** The calls of [exit_gracefully] (lines 50-53), in program order. *)
Definition release_calls (hs : option turtle_stepper) (hc : option pumas_context)
    (hp : option pumas_physics) (rc : Z) : list call :=
  [c_turtle_stepper_destroy hs; c_pumas_context_destroy hc; c_pumas_physics_destroy hp;
   c_exit rc].

(** The two lines of [handle_error] (lines 61-62), in program order. *)
Definition error_lines (message : string) : list call :=
  [c_fputs_stderr "pumas: library error. See details below";
   c_fprintf_stderr ("error: " +:+ message)].

(** The ways the set-up fails: too few arguments (lines 145-150), no dump
    file (lines 167-171), or an error of PUMAS reported to [handle_error]
    when the physics is loaded (line 172), a material is looked up (lines
    176-180) or the context is created (line 183).  [n] is the number of
    calls of [setup_calls] made so far, [diag] what is written to [stderr],
    [hp] the physics handle held at that point. *)
Inductive setup_failure (E : extern) (argv : list string) :
    nat -> list call -> option pumas_physics -> Prop :=
| fail_usage :
    (length argv < 4)%nat ->
    setup_failure E argv 0 [c_fprintf_stderr (usage argv)] None
| fail_fopen :
    (4 <= length argv)%nat ->
    x_fopen E "materials/dump" = false ->
    setup_failure E argv 5 [c_perror "materials/dump"] None
| fail_load message :
    (4 <= length argv)%nat ->
    x_fopen E "materials/dump" = true ->
    x_physics_load E = inl message ->
    setup_failure E argv 6 (error_lines message) None
| fail_rock p message :
    (4 <= length argv)%nat ->
    x_fopen E "materials/dump" = true ->
    x_physics_load E = inr p ->
    x_material_index E "StandardRock" = inl message ->
    setup_failure E argv 8 (error_lines message) (Some p)
| fail_water p rock message :
    (4 <= length argv)%nat ->
    x_fopen E "materials/dump" = true ->
    x_physics_load E = inr p ->
    x_material_index E "StandardRock" = inr rock ->
    x_material_index E "Water" = inl message ->
    setup_failure E argv 9 (error_lines message) (Some p)
| fail_air p rock water message :
    (4 <= length argv)%nat ->
    x_fopen E "materials/dump" = true ->
    x_physics_load E = inr p ->
    x_material_index E "StandardRock" = inr rock ->
    x_material_index E "Water" = inr water ->
    x_material_index E "Air" = inl message ->
    setup_failure E argv 10 (error_lines message) (Some p)
| fail_create p rock water air message :
    (4 <= length argv)%nat ->
    x_fopen E "materials/dump" = true ->
    x_physics_load E = inr p ->
    x_material_index E "StandardRock" = inr rock ->
    x_material_index E "Water" = inr water ->
    x_material_index E "Air" = inr air ->
    x_context_create E = inl message ->
    setup_failure E argv 11 (error_lines message) (Some p).

(** The calls of an observation of [s] that prints the name [mat], in
    program order (lines 125-138). *)
Definition observation_calls (E : extern) (s : pumas_state) (mat : string) (w : world) :
    list call :=
  c_turtle_stepper_step (stepper w) (position s)
  :: material_lookup w (layer_index E w s)
  ++ [c_turtle_ecef_to_geodetic (position s);
      c_printf_state (print_state_step w) (energy s) (x_ecef_to_geodetic E (position s)) mat].

(** The media table as the set-up fills it (lines 72-73 and 176-180): the
    indices PUMAS gives for the three materials, and no locals callback. *)
Definition resolved_table (E : extern) (table : list pumas_medium) : Prop :=
  exists rock water air,
    x_material_index E "StandardRock" = inr rock /\
    x_material_index E "Water" = inr water /\
    x_material_index E "Air" = inr air /\
    table = [mkMedium rock None; mkMedium water None; mkMedium air None].

(** The program is past its set-up and has not ended: the three handles and
    the media table are the ones made by the set-up, and since the set-up
    there have been the first observation and exactly [k] turns of the
    loop. *)
Definition past_setup (E : extern) (PUMAS_EVENT_MEDIUM : Z) (argv : list string) (k : nat)
    (w : world) : Prop :=
  exists p c turns,
    x_physics_load E = inr p /\ x_context_create E = inr c /\
    physics w = Some p /\
    context w = Some (configured_context PUMAS_EVENT_MEDIUM c) /\
    stepper w = Some earth_layers /\
    error_handler w = Some "handle_error"%string /\
    resolved_table E (earth_media w) /\
    is_state_object w 1%positive = true /\
    calls w = setup_calls argv ++ turns /\
    Forall (turn_call (Some earth_layers)) turns /\
    marks turns = alternation k /\
    print_state_step w = Z.of_nat k + 1.

(** The same with at least [kmin] turns. *)
Definition running (E : extern) (PUMAS_EVENT_MEDIUM : Z) (argv : list string) (kmin : nat)
    (w : world) : Prop :=
  exists p c turns k,
    (kmin <= k)%nat /\
    x_physics_load E = inr p /\ x_context_create E = inr c /\
    physics w = Some p /\
    context w = Some (configured_context PUMAS_EVENT_MEDIUM c) /\
    stepper w = Some earth_layers /\
    error_handler w = Some "handle_error"%string /\
    resolved_table E (earth_media w) /\
    is_state_object w 1%positive = true /\
    calls w = setup_calls argv ++ turns /\
    Forall (turn_call (Some earth_layers)) turns /\
    marks turns = alternation k /\
    print_state_step w = Z.of_nat k + 1.

(** The program has ended in [handle_error] after its set-up: the three
    handles of the set-up are released, and [ms] are the steps and the lines
    of the run. *)
Definition failed_with (E : extern) (PUMAS_EVENT_MEDIUM : Z) (argv : list string)
    (ms : list mark) (rc : Z) (w : world) : Prop :=
  rc = EXIT_FAILURE /\
  stepper w = None /\ context w = None /\ physics w = None /\
  exists p c turns message,
    x_physics_load E = inr p /\ x_context_create E = inr c /\
    resolved_table E (earth_media w) /\
    Forall (turn_call (Some earth_layers)) turns /\
    marks turns = ms /\
    calls w = setup_calls argv ++ turns ++ error_lines message
              ++ release_calls (Some earth_layers)
                   (Some (configured_context PUMAS_EVENT_MEDIUM c)) (Some p) EXIT_FAILURE.

(** The program has ended at the end of the loop, after [k] turns: the three
    handles of the set-up are released. *)
Definition ended_well (E : extern) (PUMAS_EVENT_MEDIUM : Z) (argv : list string) (k : nat)
    (rc : Z) (w : world) : Prop :=
  rc = EXIT_SUCCESS /\
  stepper w = None /\ context w = None /\ physics w = None /\
  exists p c turns,
    x_physics_load E = inr p /\ x_context_create E = inr c /\
    resolved_table E (earth_media w) /\
    Forall (turn_call (Some earth_layers)) turns /\
    marks turns = alternation k /\
    calls w = setup_calls argv ++ turns
              ++ release_calls (Some earth_layers)
                   (Some (configured_context PUMAS_EVENT_MEDIUM c)) (Some p) EXIT_SUCCESS.

(** The program has ended with status [rc]: in its set-up, or after it, at
    the end of the loop or in [handle_error]. *)
Definition ended (E : extern) (PUMAS_EVENT_MEDIUM : Z) (argv : list string) (rc : Z)
    (w : world) : Prop :=
  (rc = EXIT_FAILURE /\
   length (earth_media w) = 3%nat /\
   Forall (fun m => locals m = None) (earth_media w) /\
   exists n diag hp,
     setup_failure E argv n diag hp /\
     calls w = take n (setup_calls argv) ++ diag ++ release_calls None None hp EXIT_FAILURE) \/
  (exists p c turns k,
     x_physics_load E = inr p /\ x_context_create E = inr c /\
     resolved_table E (earth_media w) /\
     Forall (turn_call (Some earth_layers)) turns /\
     let release := release_calls (Some earth_layers)
                      (Some (configured_context PUMAS_EVENT_MEDIUM c)) (Some p) in
     ((rc = EXIT_SUCCESS /\ marks turns = alternation (S k) /\
       calls w = setup_calls argv ++ turns ++ release EXIT_SUCCESS) \/
      (rc = EXIT_FAILURE /\ (marks turns = [] \/ marks turns = alternation k ++ [Step]) /\
       exists message,
         calls w = setup_calls argv ++ turns ++ error_lines message ++ release EXIT_FAILURE))).




(** The same environment with an engine that leaves the particle where it
    is, with the energy 1, and a PUMAS that has a name for every index. *)
Definition endless_extern : extern :=
  mkExtern (x_strtod flat_extern) (x_fopen flat_extern) (x_rand flat_extern)
           (x_physics_load flat_extern) (x_material_index flat_extern)
           (fun _ => inr "StandardRock"%string) (x_context_create flat_extern)
           (fun _ _ _ s =>
              inr (mkState (charge s) one (weight s) (position s) (direction s), 16,
                   (earth_media_plus 0, earth_media_plus 0)))
           (x_stepper_position flat_extern)
           (x_stepper_step flat_extern) (x_ecef_from_horizontal flat_extern)
           (x_ecef_to_geodetic flat_extern).

(** ** The medium callback *)

Section EarthMedium.

Variable E : extern.

Lemma typed_objects_differ (w : world) (l p : loc) :
  is_medium_object w (Some l) = true -> is_double_object w (Some p) = true -> p ≠ l.
Proof.
  unfold is_medium_object, is_double_object. intros Hm Hd ->.
  destruct (heap w !! l) as [[]|]; discriminate.
Qed.

(** On pointers that designate objects of their types the callback returns,
    with the approximate-step tag, and leaves [earth_medium_world]. *)
Lemma earth_medium_returns ctx state mp sp w s :
  heap w !! state = Some (cell_state s) ->
  is_medium_object w mp = true ->
  is_double_object w sp = true ->
  earth_medium E ctx state mp sp w
  = Returns PUMAS_STEP_APPROXIMATE (earth_medium_world E s mp sp w).
Proof.
  intros Hs Hm Hd.
  unfold earth_medium, earth_medium_world, turtle_stepper_step, load_state,
    store_double, store_medium, step_bound, layer_index, medium_at,
    mbind, M_bind, mret, M_ret, get, emit.
  rewrite Hs. cbn.
  destruct sp as [p|]; cbn.
  - cbn in Hd. destruct (heap w !! p) as [[]|] eqn:Hp; try discriminate. cbn.
    destruct mp as [l|]; cbn; [|reflexivity].
    assert (p ≠ l) as Hne.
    { apply (typed_objects_differ w); [exact Hm|]. cbn. rewrite Hp. reflexivity. }
    cbn in Hm.
    destruct (_ && _); cbn; rewrite lookup_insert_ne by exact Hne;
      destruct (heap w !! l) as [[]|]; try discriminate; reflexivity.
  - destruct mp as [l|]; cbn; [|reflexivity].
    cbn in Hm.
    destruct (_ && _); cbn;
      destruct (heap w !! l) as [[]|]; try discriminate; reflexivity.
Qed.

Lemma earth_medium_world_trace s mp sp w :
  trace (earth_medium_world E s mp sp w)
  = c_turtle_stepper_step (stepper w) (position s) :: trace w.
Proof. unfold earth_medium_world. destruct mp, sp; reflexivity. Qed.

Lemma earth_medium_world_heap_other s mp sp w (l : loc) :
  mp ≠ Some l -> sp ≠ Some l ->
  heap (earth_medium_world E s mp sp w) !! l = heap w !! l.
Proof.
  intros Hm Hd. unfold earth_medium_world.
  destruct mp as [a|], sp as [b|]; cbn;
    rewrite ?lookup_insert_ne by congruence; reflexivity.
Qed.

Lemma earth_medium_world_medium s l sp w :
  heap (earth_medium_world E s (Some l) sp w) !! l
  = Some (cell_medium (Some (medium_at (layer_index E w s)))).
Proof. unfold earth_medium_world. cbn. apply lookup_insert_eq. Qed.

Lemma earth_medium_world_step s mp p w :
  mp ≠ Some p ->
  heap (earth_medium_world E s mp (Some p) w) !! p
  = Some (cell_double (Some (step_bound E w s))).
Proof.
  intros Hne. unfold earth_medium_world.
  destruct mp as [l|]; cbn.
  - rewrite lookup_insert_ne by congruence. apply lookup_insert_eq.
  - apply lookup_insert_eq.
Qed.

Lemma medium_at_inside i : 0 <= i < NUMBER_OF_LAYERS -> medium_at i = earth_media_plus i.
Proof.
  intros [H0 H3]. unfold medium_at.
  rewrite (proj2 (Z.leb_le 0 i) H0), (proj2 (Z.ltb_lt i _) H3). reflexivity.
Qed.

Lemma medium_at_outside i : i < 0 \/ NUMBER_OF_LAYERS <= i -> medium_at i = NULL_medium.
Proof.
  intros H. unfold medium_at.
  destruct (Z.leb_spec 0 i), (Z.ltb_spec i NUMBER_OF_LAYERS); cbn; try reflexivity; lia.
Qed.

(** C1.  For every particle state, the callback stores through a non-NULL
    medium pointer the entry [earth_media + i] of the media table when the
    layer index [i] reported by the stepper lies in [0, 3), and NULL for
    every other index, negative ones included. *)
Theorem earth_medium_resolves_layer ctx state l sp w s :
  heap w !! state = Some (cell_state s) ->
  is_medium_object w (Some l) = true ->
  is_double_object w sp = true ->
  exists w',
    earth_medium E ctx state (Some l) sp w = Returns PUMAS_STEP_APPROXIMATE w' /\
    (0 <= layer_index E w s < 3 ->
     heap w' !! l = Some (cell_medium (Some (earth_media_plus (layer_index E w s))))) /\
    (layer_index E w s < 0 \/ 3 <= layer_index E w s ->
     heap w' !! l = Some (cell_medium (Some NULL_medium))).
Proof.
  intros Hs Hm Hd. eexists. split; [apply earth_medium_returns; eassumption|].
  rewrite earth_medium_world_medium. split; intros Hi.
  - rewrite medium_at_inside by exact Hi. reflexivity.
  - rewrite medium_at_outside by exact Hi. reflexivity.
Qed.

(** C5.  The callback is a pure query with respect to the particle state:
    the state object it is given, and every other state object, holds the
    same position, direction, energy, weight and charge after the call; the
    statics of the program are unchanged too. *)
Theorem earth_medium_keeps_state ctx state mp sp w s :
  heap w !! state = Some (cell_state s) ->
  is_medium_object w mp = true ->
  is_double_object w sp = true ->
  exists r w',
    earth_medium E ctx state mp sp w = Returns r w' /\
    heap w' !! state = Some (cell_state s) /\
    (forall l s0, heap w !! l = Some (cell_state s0) -> heap w' !! l = Some (cell_state s0)) /\
    physics w' = physics w /\ context w' = context w /\ stepper w' = stepper w /\
    earth_media w' = earth_media w.
Proof.
  intros Hs Hm Hd. do 2 eexists. split; [apply earth_medium_returns; eassumption|].
  assert (forall l s0, heap w !! l = Some (cell_state s0) ->
            heap (earth_medium_world E s mp sp w) !! l = Some (cell_state s0)) as Hkeep.
  { intros l s0 Hl. rewrite earth_medium_world_heap_other; [exact Hl| |].
    - intros ->. cbn in Hm. rewrite Hl in Hm. discriminate.
    - intros ->. cbn in Hd. rewrite Hl in Hd. discriminate. }
  split; [apply Hkeep, Hs|]. split; [exact Hkeep|].
  unfold earth_medium_world. destruct mp, sp; repeat split; reflexivity.
Qed.

(** C9.  The callback tolerates NULL output pointers: with a NULL step
    pointer no double object is written, with a NULL medium pointer no
    medium pointer object is written, with both the memory is as before; in
    every case the stepper is queried once, at the position of the state,
    and the approximate-step tag is returned. *)
Theorem earth_medium_tolerates_NULL ctx state mp sp w s :
  heap w !! state = Some (cell_state s) ->
  is_medium_object w mp = true ->
  is_double_object w sp = true ->
  exists w',
    earth_medium E ctx state mp sp w = Returns PUMAS_STEP_APPROXIMATE w' /\
    trace w' = c_turtle_stepper_step (stepper w) (position s) :: trace w /\
    (sp = None -> forall l d, heap w !! l = Some (cell_double d) ->
                              heap w' !! l = Some (cell_double d)) /\
    (mp = None -> forall l m, heap w !! l = Some (cell_medium m) ->
                              heap w' !! l = Some (cell_medium m)) /\
    (sp = None -> mp = None -> heap w' = heap w).
Proof.
  intros Hs Hm Hd. eexists. split; [apply earth_medium_returns; eassumption|].
  split; [apply earth_medium_world_trace|]. repeat split.
  - intros -> l d Hl. rewrite earth_medium_world_heap_other; [exact Hl| |discriminate].
    intros ->. cbn in Hm. rewrite Hl in Hm. discriminate.
  - intros -> l m Hl. rewrite earth_medium_world_heap_other; [exact Hl|discriminate|].
    intros ->. cbn in Hd. rewrite Hl in Hd. discriminate.
  - intros -> ->. reflexivity.
Qed.

(** C10.  What the callback yields depends on the state through its position
    only: for two states with the same position, whatever their direction,
    energy, weight and charge, and with the same stepper, the callback
    returns the same tag and stores the same medium pointer and the same
    step bound. *)
Theorem earth_medium_depends_on_position ctx1 ctx2 state1 state2 mp sp w1 w2 s1 s2 :
  heap w1 !! state1 = Some (cell_state s1) ->
  heap w2 !! state2 = Some (cell_state s2) ->
  is_medium_object w1 mp = true -> is_double_object w1 sp = true ->
  is_medium_object w2 mp = true -> is_double_object w2 sp = true ->
  stepper w1 = stepper w2 ->
  position s1 = position s2 ->
  exists r w1' w2',
    earth_medium E ctx1 state1 mp sp w1 = Returns r w1' /\
    earth_medium E ctx2 state2 mp sp w2 = Returns r w2' /\
    (forall l, mp = Some l -> heap w1' !! l = heap w2' !! l) /\
    (forall l, sp = Some l -> heap w1' !! l = heap w2' !! l).
Proof.
  intros Hs1 Hs2 Hm1 Hd1 Hm2 Hd2 Hstp Hpos. do 3 eexists.
  split; [apply earth_medium_returns; eassumption|].
  split; [apply earth_medium_returns; eassumption|].
  split.
  - intros l ->. rewrite !earth_medium_world_medium.
    unfold layer_index. rewrite Hstp, Hpos. reflexivity.
  - intros l ->.
    assert (mp ≠ Some l) as Hne.
    { intros ->. apply (typed_objects_differ w1 l l); assumption || reflexivity. }
    rewrite !earth_medium_world_step by exact Hne.
    unfold step_bound. rewrite Hstp, Hpos. reflexivity.
Qed.

End EarthMedium.

(** ** Rules *)

Section Rules.

Context {A B : Type}.
Implicit Types (Q : A -> world -> Prop) (X : Z -> world -> Prop) (R : world -> Prop).

Lemma sat_ret (a : A) w Q X R : Q a w -> sat (mret a) w Q X R.
Proof. exact (fun H => H). Qed.

Lemma sat_bind (m : M B) (f : B -> M A) w Q X R :
  sat m w (fun b w' => sat (f b) w' Q X R) X R -> sat (m ≫= f) w Q X R.
Proof. unfold sat, mbind, M_bind. destruct (m w); exact (fun H => H). Qed.

Lemma sat_mono (m : M A) w Q Q' X X' R R' :
  sat m w Q X R ->
  (forall a w', Q a w' -> Q' a w') -> (forall rc w', X rc w' -> X' rc w') ->
  (forall w', R w' -> R' w') ->
  sat m w Q' X' R'.
Proof. unfold sat. destruct (m w); auto. Qed.

Lemma sat_get (f : world -> A) w Q X R : Q (f w) w -> sat (get f) w Q X R.
Proof. exact (fun H => H). Qed.

Lemma sat_exit_gracefully rc w Q X R :
  X rc (exit_world rc w) -> sat (exit_gracefully rc) w Q X R.
Proof. exact (fun H => H). Qed.

Lemma sat_handle_error message w Q X R :
  X EXIT_FAILURE
    (exit_world EXIT_FAILURE
       (log (c_fprintf_stderr ("error: " +:+ message))
          (log (c_fputs_stderr "pumas: library error. See details below") w))) ->
  sat (handle_error message) w Q X R.
Proof. exact (fun H => H). Qed.

Lemma sat_pumas_call c (r : pumas_result A) w Q X R :
  error_handler w = Some "handle_error"%string ->
  (forall a, r = inr a -> Q a (log c w)) ->
  (forall message, r = inl message ->
     X EXIT_FAILURE
       (exit_world EXIT_FAILURE
          (log (c_fprintf_stderr ("error: " +:+ message))
             (log (c_fputs_stderr "pumas: library error. See details below")
                (log c w))))) ->
  sat (pumas_call c r) w Q X R.
Proof.
  intros Hh Hok Herr. unfold sat, pumas_call, mbind, M_bind, emit, get.
  destruct r as [message|a]; cbn.
  - rewrite Hh. apply Herr. reflexivity.
  - apply Hok. reflexivity.
Qed.

End Rules.

Lemma sat_emit c w (Q : unit -> world -> Prop) X R :
  Q tt (log c w) -> sat (emit c) w Q X R.
Proof. exact (fun H => H). Qed.

Lemma sat_modify f w (Q : unit -> world -> Prop) X R :
  Q tt (f w) -> sat (modify f) w Q X R.
Proof. exact (fun H => H). Qed.

Lemma sat_load_state l s w (Q : pumas_state -> world -> Prop) X R :
  heap w !! l = Some (cell_state s) -> Q s w -> sat (load_state l) w Q X R.
Proof. intros Hl HQ. unfold sat, load_state. rewrite Hl. exact HQ. Qed.

Lemma sat_store_state l s s' w (Q : unit -> world -> Prop) X R :
  heap w !! l = Some (cell_state s) ->
  Q tt (set_heap (<[l := cell_state s']> (heap w)) w) ->
  sat (store_state l s') w Q X R.
Proof. intros Hl HQ. unfold sat, store_state. rewrite Hl. exact HQ. Qed.

Lemma sat_load_medium l m w (Q : medium_ptr_val -> world -> Prop) X R :
  heap w !! l = Some (cell_medium (Some m)) -> Q m w -> sat (load_medium l) w Q X R.
Proof. intros Hl HQ. unfold sat, load_medium. rewrite Hl. exact HQ. Qed.

Lemma sat_alloc c w (Q : loc -> world -> Prop) X R :
  (forall l, heap w !! l = None -> Q l (set_heap (<[l := c]> (heap w)) w)) ->
  sat (alloc c) w Q X R.
Proof.
  intros HQ. unfold sat, alloc. apply HQ.
  apply not_elem_of_dom, is_fresh.
Qed.

Lemma sat_earth_medium E ctx state mp sp s w (Q : pumas_step -> world -> Prop) X R :
  heap w !! state = Some (cell_state s) ->
  is_medium_object w mp = true ->
  is_double_object w sp = true ->
  Q PUMAS_STEP_APPROXIMATE (earth_medium_world E s mp sp w) ->
  sat (earth_medium E ctx state mp sp) w Q X R.
Proof.
  intros Hs Hm Hd HQ. unfold sat.
  rewrite (earth_medium_returns E ctx state mp sp w s Hs Hm Hd). exact HQ.
Qed.

(** ** Reading the log: facts *)

Lemma is_state_object_spec w l :
  is_state_object w l = true <-> exists s, heap w !! l = Some (cell_state s).
Proof.
  unfold is_state_object. split.
  - destruct (heap w !! l) as [[s| |]|]; try discriminate. eauto.
  - intros [s ->]. reflexivity.
Qed.

(** A graceful exit from a world where nothing was released yet. *)
Lemma exit_world_ok rc w :
  quiet (trace w) = true -> acquired_in_order (trace w) = true ->
  exited_ok rc (exit_world rc w).
Proof.
  intros Hq Ha. unfold exited_ok, exit_world. cbn.
  rewrite Z.eqb_refl, Hq, Ha. repeat split; reflexivity.
Qed.

Lemma all_transports_with_cons ctx c tr :
  is_transport c = false -> all_transports_with ctx tr -> all_transports_with ctx (c :: tr).
Proof.
  intros Hc Htr. apply Forall_cons_2; [|exact Htr].
  intros c' s ->. discriminate.
Qed.

Lemma all_transports_with_none ctx tr :
  List.filter is_transport tr = [] -> all_transports_with ctx tr.
Proof.
  intros Hnone. apply Forall_forall. intros c Hin c' s ->.
  apply list_elem_of_In in Hin.
  assert (In (c_pumas_context_transport c' s) (List.filter is_transport tr)) as Hin'
    by (apply List.filter_In; split; [exact Hin|reflexivity]).
  rewrite Hnone in Hin'. destruct Hin'.
Qed.

Lemma exit_world_post ctx rc w :
  quiet (trace w) = true -> acquired_in_order (trace w) = true ->
  all_transports_with ctx (trace w) ->
  exit_post ctx rc (exit_world rc w).
Proof.
  intros Hq Ha Ht. split; [apply exit_world_ok; assumption|].
  unfold exit_world. cbn. repeat (apply all_transports_with_cons; [reflexivity|]). exact Ht.
Qed.

(** ** The observation, the propagation step and the loop *)

Ltac proj_simpl :=
  cbn [physics context stepper earth_media print_state_step error_handler heap trace
       set_physics set_context set_stepper set_earth_media set_print_state_step
       set_error_handler set_heap log exit_world].

Section Loop.

Variable E : extern.

Lemma quiet_cons c tr : is_release c = false -> quiet (c :: tr) = quiet tr.
Proof. intros H. cbn. rewrite H. reflexivity. Qed.

Lemma acquired_in_order_cons c tr :
  is_acquire c = false -> acquired_in_order (c :: tr) = acquired_in_order tr.
Proof. intros H. unfold acquired_in_order. cbn. rewrite H. reflexivity. Qed.

Lemma quiet_app a b : quiet (a ++ b) = quiet a && quiet b.
Proof. apply forallb_app. Qed.

Lemma acquired_in_order_app evs tr :
  List.filter is_acquire evs = [] -> acquired_in_order (evs ++ tr) = acquired_in_order tr.
Proof. intros H. unfold acquired_in_order. rewrite List.filter_app, H. reflexivity. Qed.

Lemma medium_at_plus i j : medium_at i = earth_media_plus j -> j = i /\ 0 <= i < 3.
Proof.
  unfold medium_at, NUMBER_OF_LAYERS.
  destruct (Z.leb_spec 0 i), (Z.ltb_spec i 3); cbn; intros Heq; inversion Heq; lia.
Qed.

Lemma sat_medium_material i w (Q : Z -> world -> Prop) X R :
  length (earth_media w) = 3%nat -> 0 <= i < 3 ->
  (forall m, earth_media w !! Z.to_nat i = Some m -> Q (material m) w) ->
  sat (medium_material i) w Q X R.
Proof.
  intros Hlen Hi HQ. unfold sat, medium_material.
  destruct (lookup_lt_is_Some_2 (earth_media w) (Z.to_nat i)) as [m Hm]; [lia|].
  rewrite Hm. rewrite (proj2 (Z.leb_le 0 i)) by lia. apply HQ. exact Hm.
Qed.

(** An observation keeps the invariant and the memory, and does not call the
    engine; it may end the process through the error handler. *)
Lemma print_state_sat ctx state w :
  loop_invariant ctx state w ->
  sat (print_state E state) w
      (fun _ w' => loop_invariant ctx state w' /\ heap w' = heap w /\
                   stepper w' = stepper w /\
                   List.filter is_transport (trace w') = List.filter is_transport (trace w))
      (exit_post ctx) (fun _ => False).
Proof.
  intros (Hc & Hh & Hlen & Hst & Hq & Ha & Ht).
  apply is_state_object_spec in Hst as [s Hs].
  unfold print_state.
  apply sat_bind, sat_alloc. intros l Hl.
  assert (l ≠ state) as Hne by (intros ->; congruence).
  apply sat_bind, sat_get. apply sat_bind.
  apply (sat_earth_medium E _ _ _ _ s).
  { cbn. rewrite lookup_insert_ne by exact Hne. exact Hs. }
  { cbn. rewrite lookup_insert_eq. reflexivity. }
  { reflexivity. }
  apply sat_bind, (sat_load_medium _ _ _ _ _ _ (earth_medium_world_medium E _ _ _ _)).
  set (w1 := earth_medium_world E s (Some l) None _).
  assert (heap w1 !! state = Some (cell_state s)) as Hs1.
  { unfold w1, earth_medium_world. cbn. rewrite !lookup_insert_ne by exact Hne. exact Hs. }
  assert (delete l (heap w1) = heap w) as Hheap.
  { unfold w1, earth_medium_world. cbn.
    rewrite insert_insert_eq. apply delete_insert_id. exact Hl. }
  assert (context w1 = context w /\ error_handler w1 = error_handler w /\
          earth_media w1 = earth_media w /\ stepper w1 = stepper w /\
          trace w1 = c_turtle_stepper_step (stepper w) (position s) :: trace w)
    as (Hc1 & Hh1 & Hm1 & Hstp1 & Ht1) by (repeat split; reflexivity).
  clearbody w1.
  assert (forall mat evs,
    quiet evs = true -> List.filter is_acquire evs = [] -> List.filter is_transport evs = [] ->
    sat (load_state state ≫= λ s0,
         emit (c_turtle_ecef_to_geodetic (position s0)) ≫= λ _,
         get print_state_step ≫= λ n,
         emit (c_printf_state n (energy s0) (x_ecef_to_geodetic E (position s0)) mat) ≫= λ _,
         modify (set_print_state_step (n + 1)) ≫= λ _, free l)
        (mkWorld (physics w1) (context w1) (stepper w1) (earth_media w1)
                 (print_state_step w1) (error_handler w1) (heap w1) (evs ++ trace w1))
        (fun _ w' => loop_invariant ctx state w' /\ heap w' = heap w /\
                     stepper w' = stepper w /\
                     List.filter is_transport (trace w') = List.filter is_transport (trace w))
        (exit_post ctx) (fun _ => False)) as Hrest.
  { intros mat evs Hqe Hae Hte.
    apply sat_bind, (sat_load_state _ s); [exact Hs1|].
    apply sat_bind, sat_emit, sat_bind, sat_get, sat_bind, sat_emit, sat_bind, sat_modify.
    unfold free. apply sat_modify. proj_simpl.
    rewrite Hheap, Hc1, Hh1, Hm1, Hstp1, Ht1.
    split; [|split; [reflexivity|split; [reflexivity|]]].
    - unfold loop_invariant. proj_simpl.
      split; [exact Hc|]. split; [exact Hh|]. split; [exact Hlen|].
      split; [apply is_state_object_spec; proj_simpl; eauto|].
      rewrite !quiet_cons, quiet_app, Hqe, quiet_cons, Hq by reflexivity.
      rewrite !acquired_in_order_cons, acquired_in_order_app, acquired_in_order_cons
        by (reflexivity || assumption).
      repeat split; try assumption.
      repeat (apply all_transports_with_cons; [reflexivity|]).
      apply Forall_app_2; [apply all_transports_with_none, Hte|].
      apply all_transports_with_cons; [reflexivity|exact Ht].
    - cbn [List.filter is_transport]. rewrite List.filter_app, Hte. reflexivity. }
  destruct (medium_at (layer_index E _ s)) as [|i] eqn:Hm.
  - apply sat_bind, sat_ret. destruct w1. apply (Hrest _ []); reflexivity.
  - apply medium_at_plus in Hm as [-> Hi].
    apply sat_bind, sat_bind, sat_medium_material; [congruence|exact Hi|].
    intros m Hmat. apply sat_pumas_call.
    + congruence.
    + intros name _. destruct w1.
      apply (Hrest _ [c_pumas_physics_material_name (material m)]); reflexivity.
    + intros message _. apply exit_world_post; proj_simpl; rewrite Ht1.
      * rewrite !quiet_cons by reflexivity. exact Hq.
      * rewrite !acquired_in_order_cons by reflexivity. exact Ha.
      * repeat (apply all_transports_with_cons; [reflexivity|]). exact Ht.
Qed.

(** A propagation step keeps the invariant; it is given the configured
    context and the current state, and may end the process through the error
    handler. *)
Lemma pumas_context_transport_sat ctx state w :
  loop_invariant ctx state w ->
  sat (pumas_context_transport E state) w
      (fun _ w' => loop_invariant ctx state w' /\
                   exists s, heap w !! state = Some (cell_state s) /\
                             trace w' = c_pumas_context_transport ctx s :: trace w)
      (exit_post ctx) (fun _ => False).
Proof.
  intros (Hc & Hh & Hlen & Hst & Hq & Ha & Ht).
  apply is_state_object_spec in Hst as [s Hs].
  unfold pumas_context_transport.
  apply sat_bind, sat_get. rewrite Hc.
  apply sat_bind, (sat_load_state _ s); [exact Hs|].
  apply sat_bind, sat_get, sat_bind, sat_get, sat_bind, sat_pumas_call.
  - exact Hh.
  - intros r _. apply sat_bind, (sat_store_state _ s); [exact Hs|]. apply sat_ret.
    split; [|exists s; split; [exact Hs|reflexivity]].
    unfold loop_invariant. proj_simpl.
    split; [exact Hc|]. split; [exact Hh|]. split; [exact Hlen|].
    split; [apply is_state_object_spec; proj_simpl; rewrite lookup_insert_eq; eauto|].
    rewrite quiet_cons, acquired_in_order_cons by reflexivity.
    repeat split; try assumption.
    apply Forall_cons_2; [|exact Ht]. intros c' s' Heq. inversion Heq. reflexivity.
  - intros message _. apply exit_world_post; proj_simpl.
    + rewrite !quiet_cons by reflexivity. exact Hq.
    + rewrite !acquired_in_order_cons by reflexivity. exact Ha.
    + do 2 (apply all_transports_with_cons; [reflexivity|]).
      apply Forall_cons_2; [|exact Ht]. intros c' s' Heq. inversion Heq. reflexivity.
Qed.

Lemma loop_body_sat ctx state w :
  loop_invariant ctx state w ->
  sat (loop_body E state) w (fun _ w' => loop_invariant ctx state w')
      (exit_post ctx) (fun _ => False).
Proof.
  intros Hinv. unfold loop_body.
  apply sat_bind. eapply sat_mono; [apply pumas_context_transport_sat, Hinv| |auto|auto].
  intros r w1 [Hinv1 _]. cbv beta.
  apply sat_bind. eapply sat_mono; [apply print_state_sat, Hinv1| |auto|auto].
  intros _ w2 [Hinv2 _]. cbv beta.
  destruct Hinv2 as (Hc & Hh & Hlen & Hst & Hrest).
  pose proof Hst as Hst'. apply is_state_object_spec in Hst' as [s Hs].
  apply sat_bind, (sat_load_state _ s); [exact Hs|]. apply sat_ret.
  unfold loop_invariant. auto.
Qed.

(** The loop keeps the invariant, whether it ends or is still running. *)
Lemma transport_loop_sat ctx state fuel w :
  loop_invariant ctx state w ->
  sat (transport_loop E fuel state) w (fun _ w' => loop_invariant ctx state w')
      (exit_post ctx) (fun w' => loop_invariant ctx state w').
Proof.
  revert w. induction fuel as [|fuel IH]; intros w Hinv; [exact Hinv|].
  cbn [transport_loop]. apply sat_bind.
  eapply sat_mono; [apply loop_body_sat, Hinv| |auto|intros w' []].
  intros r w1 Hinv1. cbv beta.
  destruct (loop_break (fst r) (snd r)); [exact Hinv1|apply IH, Hinv1].
Qed.

End Loop.

(** ** The set-up of [main] *)

Section Setup.

Variable E : extern.
Variable PUMAS_EVENT_MEDIUM : Z.

Ltac setup_exit :=
  right; eexists; split;
  [ unfold main_setup, set_material, pumas_call;
    repeat match goal with H : _ = _ |- _ => rewrite H end;
    vm_compute; reflexivity
  | vm_compute; repeat split ].

(** Either every step of the set-up succeeds and [main] reaches line 231 in
    [setup_world], or the process ends with a failure status, gracefully,
    before any propagation step. *)
Lemma main_setup_cases (argv : list string) :
  (exists a0 a1 a2 a3 rest p c rock water air,
     argv = a0 :: a1 :: a2 :: a3 :: rest /\
     x_fopen E "materials/dump" = true /\
     x_physics_load E = inr p /\
     x_material_index E "StandardRock" = inr rock /\
     x_material_index E "Water" = inr water /\
     x_material_index E "Air" = inr air /\
     x_context_create E = inr c /\
     main_setup E PUMAS_EVENT_MEDIUM argv initial_world
     = Returns 1%positive (setup_world E PUMAS_EVENT_MEDIUM a1 a2 a3 p c rock water air)) \/
  (exists w',
     main_setup E PUMAS_EVENT_MEDIUM argv initial_world = Exits EXIT_FAILURE w' /\
     (exit_trace_ok EXIT_FAILURE (trace w') = true /\
      stepper w' = None /\ context w' = None /\ physics w' = None /\
      List.filter is_transport (trace w') = [])).
Proof.
  destruct argv as [|a0 [|a1 [|a2 [|a3 rest]]]]; try (right; eexists; split; [reflexivity|vm_compute; repeat split]).
  assert ((Z.of_nat (length (a0 :: a1 :: a2 :: a3 :: rest)) <? 4) = false) as Hn
    by (apply Z.ltb_ge; cbn [length]; lia).
  destruct (x_fopen E "materials/dump") eqn:Hf; [|setup_exit].
  destruct (x_physics_load E) as [m|p] eqn:Hp; [setup_exit|].
  destruct (x_material_index E "StandardRock") as [m|rock] eqn:H0; [setup_exit|].
  destruct (x_material_index E "Water") as [m|water] eqn:H1; [setup_exit|].
  destruct (x_material_index E "Air") as [m|air] eqn:H2; [setup_exit|].
  destruct (x_context_create E) as [m|c] eqn:Hc; [setup_exit|].
  left. exists a0, a1, a2, a3, rest, p, c, rock, water, air.
  repeat (split; [reflexivity|]).
  unfold main_setup, set_material, pumas_call.
  rewrite Hn, Hf, Hp, H0, H1, H2, Hc.
  vm_compute. reflexivity.
Qed.

End Setup.

(** ** The whole program *)

Section Main.

Variable E : extern.
Variable PUMAS_EVENT_MEDIUM : Z.

Lemma setup_world_invariant a1 a2 a3 p c rock water air :
  loop_invariant (configured_context PUMAS_EVENT_MEDIUM c) 1%positive
    (setup_world E PUMAS_EVENT_MEDIUM a1 a2 a3 p c rock water air).
Proof.
  repeat split; try reflexivity.
  apply all_transports_with_none. reflexivity.
Qed.

(** [main] never returns and never gets stuck.  It exits gracefully, after
    propagation steps that were all given the configured context, or the
    fuel runs out in the loop, with nothing released. *)
Lemma main_sat fuel argv :
  sat (main E PUMAS_EVENT_MEDIUM fuel argv) initial_world
      (fun _ _ => False)
      (fun rc w' => exited_ok rc w' /\
         forall ctx s, c_pumas_context_transport ctx s ∈ trace w' ->
           exists c, x_context_create E = inr c /\
                     ctx = configured_context PUMAS_EVENT_MEDIUM c)
      (fun w' => quiet (trace w') = true /\
         forall ctx s, c_pumas_context_transport ctx s ∈ trace w' ->
           exists c, x_context_create E = inr c /\
                     ctx = configured_context PUMAS_EVENT_MEDIUM c).
Proof.
  unfold main. apply sat_bind. unfold sat at 1.
  destruct (main_setup_cases E PUMAS_EVENT_MEDIUM argv)
    as [(a0 & a1 & a2 & a3 & rest & p & c & rock & water & air & _ & _ & _ & _ & _ & _
         & Hc & ->)
       |(w' & -> & Hexit & Hs & Hctx & Hp & Hnone)].
  - pose proof (setup_world_invariant a1 a2 a3 p c rock water air) as Hinv.
    assert (forall tr, all_transports_with (configured_context PUMAS_EVENT_MEDIUM c) tr ->
              forall ctx s, c_pumas_context_transport ctx s ∈ tr ->
                exists c0, x_context_create E = inr c0 /\
                           ctx = configured_context PUMAS_EVENT_MEDIUM c0) as Hall.
    { intros tr Htr ctx s Hin. exists c. split; [exact Hc|].
      unfold all_transports_with in Htr. rewrite Forall_forall in Htr.
      apply (Htr _ Hin ctx s). reflexivity. }
    assert (forall rc w', exit_post (configured_context PUMAS_EVENT_MEDIUM c) rc w' ->
              exited_ok rc w' /\
              forall ctx s, c_pumas_context_transport ctx s ∈ trace w' ->
                exists c0, x_context_create E = inr c0 /\
                           ctx = configured_context PUMAS_EVENT_MEDIUM c0) as Hexit.
    { intros rc w' [Hok Htr]. split; [exact Hok|apply Hall, Htr]. }
    apply sat_bind. eapply sat_mono; [apply print_state_sat, Hinv| |exact Hexit|intros ? []].
    intros _ w1 [Hinv1 _]. cbv beta.
    apply sat_bind. eapply sat_mono; [apply transport_loop_sat, Hinv1| |exact Hexit|].
    + intros _ w2 (_ & _ & _ & _ & Hq & Ha & Ht). cbv beta.
      apply sat_exit_gracefully, Hexit, exit_world_post; assumption.
    + intros w2 (_ & _ & _ & _ & Hq & _ & Ht). split; [exact Hq|apply Hall, Ht].
  - split; [repeat split; assumption|].
    intros ctx s Hin. apply list_elem_of_In in Hin.
    assert (In (c_pumas_context_transport ctx s) (List.filter is_transport (trace w'))) as Hin'
      by (apply List.filter_In; split; [exact Hin|reflexivity]).
    rewrite Hnone in Hin'. destruct Hin'.
Qed.

Lemma land_lor_flag (e f : Z) : Z.land (Z.lor e f) f = f.
Proof.
  apply Z.bits_inj'. intros n _.
  rewrite Z.land_spec, Z.lor_spec. destruct (Z.testbit e n), (Z.testbit f n); reflexivity.
Qed.

(** C7.  The context is configured once, right after it is created and
    before the loop: when the set-up is over the context is the created one
    with the medium flag or-ed into its event mask, so the flag is set, and
    no propagation step has been made yet ([pumas_context_create] was called
    once); afterwards every call of the engine, in any run of the program,
    is given a context with the flag set. *)
Theorem context_stops_at_medium_changes argv :
  (forall state w,
     main_setup E PUMAS_EVENT_MEDIUM argv initial_world = Returns state w ->
     exists c ctx,
       x_context_create E = inr c /\
       context w = Some ctx /\
       event ctx = Z.lor (event c) PUMAS_EVENT_MEDIUM /\
       Z.land (event ctx) PUMAS_EVENT_MEDIUM = PUMAS_EVENT_MEDIUM /\
       List.filter is_transport (trace w) = [] /\
       List.filter (fun c => match c with c_pumas_context_create => true | _ => false end)
                   (trace w) = [c_pumas_context_create]) /\
  (forall fuel w' ctx s,
     final (main E PUMAS_EVENT_MEDIUM fuel argv initial_world) = Some w' ->
     c_pumas_context_transport ctx s ∈ calls w' ->
     Z.land (event ctx) PUMAS_EVENT_MEDIUM = PUMAS_EVENT_MEDIUM).
Proof.
  split.
  - intros state w Hret.
    destruct (main_setup_cases E PUMAS_EVENT_MEDIUM argv)
      as [(a0 & a1 & a2 & a3 & rest & p & c & rock & water & air & _ & _ & _ & _ & _ & _
           & Hc & Heq)
         |(w' & Heq & _)]; rewrite Heq in Hret; [|discriminate].
    inversion Hret; subst. exists c, (configured_context PUMAS_EVENT_MEDIUM c).
    split; [exact Hc|]. split; [reflexivity|]. split; [reflexivity|].
    split; [apply land_lor_flag|]. split; reflexivity.
  - intros fuel w' ctx s Hfin Hin.
    pose proof (main_sat fuel argv) as Hsat. unfold sat in Hsat.
    unfold calls in Hin. rewrite elem_of_reverse in Hin.
    destruct (main E PUMAS_EVENT_MEDIUM fuel argv initial_world) as [a w0|rc w0|w0|];
      try contradiction; cbn in Hfin; inversion Hfin; subst w0;
      destruct Hsat as [_ Hall]; destruct (Hall ctx s Hin) as (c & _ & ->);
      apply land_lor_flag.
Qed.

(** C6.  When the set-up is over, the stepper holds the three layers built
    from the ground levels -1000, 0 and 1000, the media table has as many
    entries, and a layer index resolves to the material of StandardRock for
    0, of Water for 1, of Air for 2, and to nothing (void) below 0 and from
    3 on. *)
Theorem three_layers_resolve argv state w :
  main_setup E PUMAS_EVENT_MEDIUM argv initial_world = Returns state w ->
  exists rock water air,
    x_material_index E "StandardRock" = inr rock /\
    x_material_index E "Water" = inr water /\
    x_material_index E "Air" = inr air /\
    stepper w = Some [[double_of_int (-1000)]; [double_of_int 0]; [double_of_int 1000]] /\
    length (earth_media w) = 3%nat /\
    resolved_material w 0 = Some rock /\
    resolved_material w 1 = Some water /\
    resolved_material w 2 = Some air /\
    (forall i, 0 <= i < 3 -> medium_at i = earth_media_plus i /\
                             is_Some (resolved_material w i)) /\
    (forall i, i < 0 \/ 3 <= i -> medium_at i = NULL_medium /\
                                 resolved_material w i = None).
Proof.
  intros Hret.
  destruct (main_setup_cases E PUMAS_EVENT_MEDIUM argv)
    as [(a0 & a1 & a2 & a3 & rest & p & c & rock & water & air & _ & _ & _ & H0 & H1 & H2
         & _ & Heq)
       |(w' & Heq & _)]; rewrite Heq in Hret; [|discriminate].
  inversion Hret; subst. exists rock, water, air.
  repeat (split; [assumption || reflexivity|]).
  split.
  - intros i Hi. split; [apply medium_at_inside, Hi|].
    assert (i = 0 \/ i = 1 \/ i = 2) as [->|[->| ->]] by lia; eexists; reflexivity.
  - intros i Hi. pose proof (medium_at_outside i Hi) as Hnull.
    split; [exact Hnull|]. unfold resolved_material. rewrite Hnull. reflexivity.
Qed.

End Main.

(** ** The exit test of the loop *)

Section ExitTest.

Variable E : extern.

Lemma loop_break_spec s media :
  loop_break s media = true <->
  double_eqb (energy s) zero = true \/ snd media = NULL_medium.
Proof.
  unfold loop_break. rewrite orb_true_iff. destruct (snd media); cbn; intuition discriminate.
Qed.

(** One turn of the loop: after the propagation step and its observation the
    loop ends when the test succeeds and goes round again otherwise. *)
Lemma transport_loop_turn fuel state w r w1 :
  loop_body E state w = Returns r w1 ->
  transport_loop E (S fuel) state w
  = if loop_break (fst r) (snd r) then Returns tt w1 else transport_loop E fuel state w1.
Proof.
  intros Hbody. cbn [transport_loop]. unfold mbind, M_bind. rewrite Hbody.
  destruct (loop_break (fst r) (snd r)); reflexivity.
Qed.

End ExitTest.

(** ** A particle that starts in the void *)

Section VoidStart.

Variable E : extern.

Lemma sat_pumas_call_ok {A} c (r : pumas_result A) a w (Q : A -> world -> Prop) X R :
  r = inr a -> Q a (log c w) -> sat (pumas_call c r) w Q X R.
Proof. intros -> HQ. exact HQ. Qed.

Lemma sat_Returns {A} (m : M A) w (Q : A -> world -> Prop) :
  sat m w Q (fun _ _ => False) (fun _ => False) ->
  exists a w', m w = Returns a w' /\ Q a w'.
Proof. unfold sat. destruct (m w) as [a w'| | |]; try contradiction. eauto. Qed.

(** The observation of a particle in the void: one query of the stepper, no
    call to PUMAS, the line with the material "(void)"; the memory is as
    before. *)
Lemma print_state_void state w s :
  heap w !! state = Some (cell_state s) ->
  medium_at (layer_index E w s) = NULL_medium ->
  print_state E state w
  = Returns tt
      (mkWorld (physics w) (context w) (stepper w) (earth_media w)
               (print_state_step w + 1) (error_handler w) (heap w)
               (c_printf_state (print_state_step w) (energy s)
                               (x_ecef_to_geodetic E (position s)) "(void)"
                :: c_turtle_ecef_to_geodetic (position s)
                :: c_turtle_stepper_step (stepper w) (position s) :: trace w)).
Proof.
  intros Hs Hvoid.
  match goal with |- _ = Returns tt ?w0 =>
    destruct (sat_Returns (print_state E state) w (fun _ w' => w' = w0)) as ([] & w' & -> & ->);
      [|reflexivity]
  end.
  unfold print_state.
  apply sat_bind, sat_alloc. intros l Hl.
  assert (l ≠ state) as Hne by (intros ->; congruence).
  apply sat_bind, sat_get. apply sat_bind.
  apply (sat_earth_medium E _ _ _ _ s).
  { cbn. rewrite lookup_insert_ne by exact Hne. exact Hs. }
  { cbn. rewrite lookup_insert_eq. reflexivity. }
  { reflexivity. }
  apply sat_bind, (sat_load_medium _ _ _ _ _ _ (earth_medium_world_medium E _ _ _ _)).
  change (layer_index E (set_heap (<[l:=cell_medium None]> (heap w)) w) s)
    with (layer_index E w s).
  rewrite Hvoid. apply sat_bind, sat_ret.
  apply sat_bind, (sat_load_state _ s).
  { unfold earth_medium_world. cbn. rewrite !lookup_insert_ne by exact Hne. exact Hs. }
  apply sat_bind, sat_emit, sat_bind, sat_get, sat_bind, sat_emit, sat_bind, sat_modify.
  unfold free. apply sat_modify.
  unfold earth_medium_world. cbn.
  rewrite insert_insert_eq, delete_insert_id by exact Hl. reflexivity.
Qed.

(** C4.  A particle whose initial position is in a void layer (the stepper
    reports a layer index outside [0, 3)) ends the loop at once.  The loop
    has no test before its first propagation step, so the engine is called,
    once, with the state as it is; that step is the degenerate one of
    [void_start_is_degenerate] and leaves the state as it was.  The void is
    then observed, with the one line printed, and the loop returns: no
    second step is made, and the memory is as before. *)
Theorem void_start_ends_the_loop fuel state w ctx s :
  void_start_is_degenerate E ->
  context w = Some ctx ->
  heap w !! state = Some (cell_state s) ->
  layer_index E w s < 0 \/ 3 <= layer_index E w s ->
  exists w' evs,
    transport_loop E (S fuel) state w = Returns tt w' /\
    heap w' = heap w /\
    calls w' = calls w ++ c_pumas_context_transport ctx s :: evs
               ++ [c_printf_state (print_state_step w) (energy s)
                                  (x_ecef_to_geodetic E (position s)) "(void)"] /\
    Forall (fun c => is_transport c = false /\ is_line c = false) evs.
Proof.
  intros Hengine Hctx Hs Hindex.
  pose proof (medium_at_outside _ Hindex) as Hvoid.
  destruct (Hengine (trace w) ctx (stepper w) s Hindex) as (ev & m0 & Hstep).
  assert (pumas_context_transport E state w
          = Returns (ev, (m0, NULL_medium)) (log (c_pumas_context_transport ctx s) w))
    as Htransport.
  { match goal with |- _ = Returns ?r ?w0 =>
      destruct (sat_Returns (pumas_context_transport E state) w
                  (fun a w' => a = r /\ w' = w0)) as (a & w' & -> & -> & ->); [|reflexivity]
    end.
    unfold pumas_context_transport. apply sat_bind, sat_get. rewrite Hctx.
    apply sat_bind, (sat_load_state _ s); [exact Hs|].
    apply sat_bind, sat_get, sat_bind, sat_get, sat_bind.
    apply (sat_pumas_call_ok _ _ _ _ _ _ _ Hstep).
    apply sat_bind, (sat_store_state _ s); [exact Hs|]. apply sat_ret.
    split; [reflexivity|]. unfold log, set_heap. cbn.
    rewrite insert_id by exact Hs. reflexivity. }
  eexists. exists [c_turtle_stepper_step (stepper w) (position s);
                   c_turtle_ecef_to_geodetic (position s)].
  split.
  - cbn [transport_loop]. unfold loop_body, mbind, M_bind. rewrite Htransport.
    rewrite (print_state_void state (log (c_pumas_context_transport ctx s) w) s Hs Hvoid).
    unfold load_state. cbn. rewrite Hs. cbn.
    unfold loop_break. cbn. rewrite orb_true_r. reflexivity.
  - split; [reflexivity|]. split; [|repeat constructor].
    unfold calls. cbn [trace log].
    rewrite !reverse_cons, <- !app_assoc. reflexivity.
Qed.

End VoidStart.

(** ** Binary64 division of two integers *)

Section Binary64.

Lemma digits2_pos_bounds (p : positive) :
  2 ^ (Z.pos (digits2_pos p) - 1) <= Z.pos p < 2 ^ Z.pos (digits2_pos p).
Proof.
  induction p as [p IH|p IH|]; cbn [digits2_pos].
  - rewrite Pos2Z.inj_succ, Z.pow_succ_r by lia.
    replace (Z.succ (Z.pos (digits2_pos p)) - 1) with (Z.succ (Z.pos (digits2_pos p) - 1)) by lia.
    rewrite Z.pow_succ_r by lia. lia.
  - rewrite Pos2Z.inj_succ, Z.pow_succ_r by lia.
    replace (Z.succ (Z.pos (digits2_pos p)) - 1) with (Z.succ (Z.pos (digits2_pos p) - 1)) by lia.
    rewrite Z.pow_succ_r by lia. lia.
  - cbn. lia.
Qed.

Lemma digits2_pos_unique (p : positive) (d : Z) :
  2 ^ (d - 1) <= Z.pos p < 2 ^ d -> 0 < d -> Z.pos (digits2_pos p) = d.
Proof.
  intros [Hlo Hhi] Hd. pose proof (digits2_pos_bounds p) as [Hlo' Hhi'].
  destruct (Z.lt_trichotomy (Z.pos (digits2_pos p)) d) as [Hlt|[Heq|Hgt]]; [|exact Heq|].
  - assert (2 ^ Z.pos (digits2_pos p) <= 2 ^ (d - 1)) by (apply Z.pow_le_mono_r; lia). lia.
  - assert (2 ^ d <= 2 ^ (Z.pos (digits2_pos p) - 1)) by (apply Z.pow_le_mono_r; lia). lia.
Qed.

Lemma iter_xO_pow (p k : positive) : Z.pos (Pos.iter xO p k) = Z.pos p * 2 ^ Z.pos k.
Proof.
  induction k as [|k IH] using Pos.peano_ind.
  - cbn. lia.
  - rewrite Pos.iter_succ, Pos2Z.inj_succ, Z.pow_succ_r by lia.
    rewrite Pos2Z.inj_xO, IH. lia.
Qed.

(** A mantissa of 53 bits is kept as it is. *)
Lemma round_normal (m : positive) (e : Z) :
  Z.pos (digits2_pos m) = 53 -> -1074 <= e <= 971 ->
  binary_round_aux prec emax false (Z.pos m) e loc_Exact = S754_finite false m e.
Proof.
  intros Hd He. unfold binary_round_aux, shr_fexp, Zdigits2, shr_record_of_loc.
  rewrite Hd.
  assert (fexp prec emax (53 + e) - e = 0) as ->
    by (unfold fexp, emin, prec, emax; lia).
  cbn [shr shr_m loc_of_shr_record round_nearest_even].
  rewrite Hd.
  assert (fexp prec emax (53 + e) - e = 0) as ->
    by (unfold fexp, emin, prec, emax; lia).
  cbn [shr shr_m].
  rewrite (proj2 (Z.leb_le e (emax - prec))) by (unfold emax, prec; lia). reflexivity.
Qed.

Lemma mantissa_spec (p : positive) :
  Z.pos (digits2_pos p) <= 53 ->
  Z.pos (mantissa p) = Z.pos p * 2 ^ (53 - Z.pos (digits2_pos p)) /\
  2 ^ 52 <= Z.pos (mantissa p) < 2 ^ 53.
Proof.
  intros Hd. pose proof (digits2_pos_bounds p) as [Hlo Hhi].
  set (d := Z.pos (digits2_pos p)) in *.
  assert (0 < 2 ^ (53 - d)) by (apply Z.pow_pos_nonneg; lia).
  assert (Z.pos (mantissa p) = Z.pos p * 2 ^ (53 - d)) as Hm
    by (unfold mantissa; fold d; rewrite Z2Pos.id; nia).
  split; [exact Hm|]. rewrite Hm.
  replace (2 ^ 52) with (2 ^ (d - 1) * 2 ^ (53 - d))
    by (rewrite <- Z.pow_add_r by lia; f_equal; lia).
  replace (2 ^ 53) with (2 ^ d * 2 ^ (53 - d))
    by (rewrite <- Z.pow_add_r by lia; f_equal; lia).
  nia.
Qed.

Lemma double_of_int_pos (p : positive) :
  Z.pos (digits2_pos p) <= 53 ->
  double_of_int (Z.pos p) = S754_finite false (mantissa p) (Z.pos (digits2_pos p) - 53).
Proof.
  intros Hd. destruct (mantissa_spec p Hd) as [Hm Hrange].
  unfold double_of_int, binary_normalize, binary_round, shl_align.
  assert (fexp prec emax (Z.pos (digits2_pos p) + 0) = Z.pos (digits2_pos p) - 53) as ->
    by (unfold fexp, emin, prec, emax; lia).
  destruct (Z.pos (digits2_pos p) - 53 - 0) as [|k|k] eqn:Hk; [|lia|].
  - assert (mantissa p = p) as Hp.
    { apply Pos2Z.inj. rewrite Hm. replace (53 - Z.pos (digits2_pos p)) with 0 by lia. lia. }
    rewrite Hp. replace (Z.pos (digits2_pos p) - 53) with 0 by lia.
    apply round_normal; lia.
  - assert (Pos.iter xO p k = mantissa p) as ->.
    { apply Pos2Z.inj. rewrite iter_xO_pow, Hm. f_equal. f_equal. lia. }
    apply round_normal; [|lia].
    apply digits2_pos_unique; lia.
Qed.

Lemma round_nearest_even_range (m : Z) (l : location) :
  round_nearest_even m l = m \/ round_nearest_even m l = m + 1.
Proof. destruct l as [|[]]; cbn; auto. destruct (Z.even m); auto. Qed.

(** The second rounding step: a mantissa that reached 2^53 is halved. *)
Lemma shr_fexp_second (m e : Z) :
  2 ^ 52 <= m <= 2 ^ 53 -> -1074 <= e <= 970 ->
  (m < 2 ^ 53 /\ shr_fexp prec emax m e loc_Exact = (Build_shr_record m false false, e)) \/
  (m = 2 ^ 53 /\
   shr_fexp prec emax m e loc_Exact = (Build_shr_record (2 ^ 52) false false, e + 1)).
Proof.
  intros Hm He. destruct (Z_lt_le_dec m (2 ^ 53)) as [Hlt|Hge].
  - left. split; [exact Hlt|].
    destruct m as [|p|p]; try lia.
    unfold shr_fexp, Zdigits2. rewrite (digits2_pos_unique p 53) by lia.
    assert (fexp prec emax (53 + e) - e = 0) as ->
      by (unfold fexp, emin, prec, emax; lia).
    reflexivity.
  - right. assert (m = 2 ^ 53) as -> by lia. split; [reflexivity|].
    unfold shr_fexp.
    assert (Zdigits2 (2 ^ 53) = 54) as -> by reflexivity.
    assert (fexp prec emax (54 + e) - e = 1) as ->
      by (unfold fexp, emin, prec, emax; lia).
    reflexivity.
Qed.

(** Rounding a quotient of 53 or 54 bits: the result is a positive normal
    number whose exponent is at most two above; a carry into the next binade
    leaves the mantissa 2^52. *)
Lemma binary_round_aux_quotient (q e : Z) (l : location) :
  2 ^ 52 <= q < 2 ^ 54 -> -1074 <= e <= 900 ->
  exists m e',
    binary_round_aux prec emax false q e l = S754_finite false m e' /\
    e <= e' <= e + 2 /\
    (q < 2 ^ 53 -> e' <= e + 1 /\ (e' = e + 1 -> Z.pos m = 2 ^ 52)) /\
    (e' = e + 2 -> Z.pos m = 2 ^ 52) /\
    (q = 2 ^ 53 -> l = loc_Exact -> Z.pos m = 2 ^ 52 /\ e' = e + 1) /\
    (q < 2 ^ 53 - 1 -> e' = e) /\
    (2 ^ 53 <= q < 2 ^ 54 - 2 -> e' = e + 1).
Proof.
  intros Hq He. unfold binary_round_aux.
  assert (forall m1 e1, 2 ^ 52 <= m1 <= 2 ^ 53 -> e <= e1 <= e + 1 ->
    exists m e',
      (let '(mrs'', e'') := shr_fexp prec emax m1 e1 loc_Exact in
       match shr_m mrs'' with
       | 0 => S754_zero false
       | Z.pos m => if e'' <=? emax - prec then S754_finite false m e'' else S754_infinity false
       | Z.neg _ => S754_nan
       end) = S754_finite false m e' /\
      e1 <= e' <= e1 + 1 /\ (e' = e1 + 1 -> Z.pos m = 2 ^ 52) /\
      (m1 < 2 ^ 53 -> e' = e1 /\ Z.pos m = m1)) as Hsecond.
  { intros m1 e1 Hm1 He1.
    destruct (shr_fexp_second m1 e1 Hm1 ltac:(lia)) as [[Hlt ->]|[-> ->]].
    - destruct m1 as [|p1|p1]; try lia. exists p1, e1. cbn [shr_m].
      rewrite (proj2 (Z.leb_le e1 (emax - prec))) by (unfold emax, prec; lia).
      split; [reflexivity|]. split; [lia|]. split; [lia|]. auto.
    - exists (2 ^ 52)%positive, (e1 + 1). cbn [shr_m].
      change (2 ^ 52) with (Z.pos (2 ^ 52)).
      rewrite (proj2 (Z.leb_le (e1 + 1) (emax - prec))) by (unfold emax, prec; lia).
      split; [reflexivity|]. split; [lia|]. split; [reflexivity|]. lia. }
  destruct q as [|pq|pq]; try lia.
  destruct (Z_lt_le_dec (Z.pos pq) (2 ^ 53)) as [Hlt|Hge].
  - unfold shr_fexp at 1. unfold Zdigits2. rewrite (digits2_pos_unique pq 53) by lia.
    assert (fexp prec emax (53 + e) - e = 0) as ->
      by (unfold fexp, emin, prec, emax; lia).
    cbn [shr].
    assert (shr_m (shr_record_of_loc (Z.pos pq) l) = Z.pos pq) as -> by (destruct l as [|[]]; reflexivity).
    destruct (round_nearest_even_range (Z.pos pq) (loc_of_shr_record (shr_record_of_loc (Z.pos pq) l)))
      as [Hr|Hr].
    + destruct (Hsecond (Z.pos pq) e ltac:(lia) ltac:(lia)) as (m & e' & Heq & He' & Hcarry & Hsame).
      rewrite Hr, Heq. exists m, e'. split; [reflexivity|]. split; [lia|].
      split; [intros _; split; [lia|exact Hcarry]|]. split; [lia|]. split; [lia|].
      split; [intros _; apply Hsame; lia|lia].
    + destruct (Hsecond (Z.pos pq + 1) e ltac:(lia) ltac:(lia)) as (m & e' & Heq & He' & Hcarry & Hsame).
      rewrite Hr, Heq. exists m, e'. split; [reflexivity|]. split; [lia|].
      split; [intros _; split; [lia|exact Hcarry]|]. split; [lia|]. split; [lia|].
      split; [intros Hq1; apply Hsame; lia|lia].
  - unfold shr_fexp at 1. unfold Zdigits2. rewrite (digits2_pos_unique pq 54) by lia.
    assert (fexp prec emax (54 + e) - e = 1) as ->
      by (unfold fexp, emin, prec, emax; lia).
    cbn [shr SpecFloat.iter_pos].
    assert (exists p0 r0 s0,
      shr_1 (shr_record_of_loc (Z.pos pq) l) = Build_shr_record (Z.pos p0) r0 s0 /\
      2 ^ 52 <= Z.pos p0 < 2 ^ 53 /\
      2 * Z.pos p0 <= Z.pos pq /\
      (Z.pos pq = 2 ^ 53 -> l = loc_Exact ->
       Z.pos p0 = 2 ^ 52 /\ r0 = false /\ s0 = false))
      as (p0 & r0 & s0 & -> & Hp0 & Hhalf & Hexact).
    { destruct pq as [p0|p0|]; [| |lia].
      - exists p0. destruct l as [|[]]; cbn; do 2 eexists; (split; [reflexivity|]);
          (split; [lia|]); split; lia.
      - exists p0. destruct l as [|[]]; cbn; do 2 eexists; (split; [reflexivity|]);
          (split; [lia|]); (split; [lia|]); intros H1 H2; try discriminate;
          repeat split; lia. }
    cbn [shr_m].
    destruct (round_nearest_even_range (Z.pos p0)
                (loc_of_shr_record (Build_shr_record (Z.pos p0) r0 s0))) as [Hr|Hr].
    + destruct (Hsecond (Z.pos p0) (e + 1) ltac:(lia) ltac:(lia)) as (m & e' & Heq & He' & Hcarry & Hsame).
      rewrite Hr, Heq. exists m, e'. split; [reflexivity|]. split; [lia|].
      split; [lia|]. split; [intros H2; apply Hcarry; lia|].
      split; [|split; [lia|intros _; apply Hsame; lia]].
      intros H1 H2. destruct (Hsame ltac:(lia)) as [-> ->].
      destruct (Hexact H1 H2) as (-> & _). auto.
    + destruct (Hsecond (Z.pos p0 + 1) (e + 1) ltac:(lia) ltac:(lia)) as (m & e' & Heq & He' & Hcarry & Hsame).
      rewrite Hr, Heq. exists m, e'. split; [reflexivity|]. split; [lia|].
      split; [lia|]. split; [intros H2; apply Hcarry; lia|].
      split; [|split; [lia|intros Hq2; apply Hsame; lia]].
      intros H1 H2. destruct (Hexact H1 H2) as (Hp & -> & ->).
      cbn in Hr. lia.
Qed.

Lemma new_location_zero (n : Z) : new_location n 0 = loc_Exact.
Proof. unfold new_location. destruct (Z.even n); reflexivity. Qed.

(** The quotient of two normal numbers is the rounding of the integer
    quotient of their mantissas, the first one scaled by 2^53. *)
Lemma double_div_normal (m1 m2 : positive) (e1 e2 : Z) :
  Z.pos (digits2_pos m1) = 53 -> Z.pos (digits2_pos m2) = 53 ->
  -900 <= e1 - e2 <= 900 ->
  exists q r,
    Z.pos m1 * 2 ^ 53 = Z.pos m2 * q + r /\ 0 <= r < Z.pos m2 /\
    double_div (S754_finite false m1 e1) (S754_finite false m2 e2)
    = binary_round_aux prec emax false q (e1 - e2 - 53) (new_location (Z.pos m2) r).
Proof.
  intros Hd1 Hd2 He. unfold double_div, SFdiv, SFdiv_core_binary, Zdigits2.
  rewrite Hd1, Hd2.
  assert (Z.min (fexp prec emax (53 + e1 - (53 + e2))) (e1 - e2) = e1 - e2 - 53) as ->
    by (unfold fexp, emin, prec, emax; lia).
  replace (e1 - e2 - (e1 - e2 - 53)) with 53 by lia.
  rewrite Z.shiftl_mul_pow2 by lia.
  pose proof (Z_div_mod (Z.pos m1 * 2 ^ 53) (Z.pos m2) ltac:(lia)) as Hdiv.
  destruct (Z.div_eucl (Z.pos m1 * 2 ^ 53) (Z.pos m2)) as [q r].
  exists q, r. destruct Hdiv as [Heq Hr]. repeat split; lia.
Qed.

(** The quotient of two positive integers that fit in 53 bits, the first at
    most the second: a positive number, at most one, and one when they are
    equal. *)
Lemma double_div_int_le (n N : positive) :
  (n <= N)%positive -> Z.pos (digits2_pos N) <= 53 ->
  exists m e,
    double_div (double_of_int (Z.pos n)) (double_of_int (Z.pos N)) = S754_finite false m e /\
    (e < -52 \/ (e = -52 /\ m = (2 ^ 52)%positive)) /\
    (n = N -> e = -52) /\
    ((n < N)%positive -> e < -52).
Proof.
  intros Hle HdN.
  pose proof (digits2_pos_bounds n) as [Hnlo Hnhi].
  pose proof (digits2_pos_bounds N) as [HNlo HNhi].
  set (dn := Z.pos (digits2_pos n)) in *. set (dN := Z.pos (digits2_pos N)) in *.
  assert (dn <= dN) as Hd.
  { destruct (Z_le_gt_dec dn dN) as [|Hgt]; [assumption|].
    assert (2 ^ dN <= 2 ^ (dn - 1)) by (apply Z.pow_le_mono_r; lia). lia. }
  assert (0 < dn) as Hdn0 by (unfold dn; lia).
  destruct (mantissa_spec n ltac:(fold dn; lia)) as [Hm1 Hr1].
  destruct (mantissa_spec N HdN) as [Hm2 Hr2]. fold dn in Hm1. fold dN in Hm2.
  rewrite (double_of_int_pos n), (double_of_int_pos N) by (fold dn; fold dN; lia).
  fold dn dN.
  destruct (double_div_normal (mantissa n) (mantissa N) (dn - 53) (dN - 53))
    as (q & r & Heq & Hr & ->);
    [apply digits2_pos_unique; lia|apply digits2_pos_unique; lia|lia|].
  assert (2 ^ 52 <= q < 2 ^ 54) as Hq.
  { change (2 ^ 54) with (2 * 2 ^ 53). change (2 ^ 53) with (2 * 2 ^ 52) in *. nia. }
  destruct (binary_round_aux_quotient q (dn - 53 - (dN - 53) - 53)
              (new_location (Z.pos (mantissa N)) r) Hq ltac:(lia))
    as (m & e & -> & He & Hsmall & Hcarry & Hexact & Hlow & Hhigh).
  exists m, e. split; [reflexivity|].
  assert (dn = dN -> 2 ^ 53 <= q -> n = N /\ q = 2 ^ 53 /\ r = 0) as Hsame.
  { intros Hdd Hq53. rewrite Hdd in Hm1.
    assert (0 < 2 ^ (53 - dN)) by (apply Z.pow_pos_nonneg; lia).
    assert (Z.pos (mantissa N) <= Z.pos (mantissa n)) by nia.
    assert (Z.pos n = Z.pos N) as HnN by nia.
    assert (Z.pos (mantissa n) = Z.pos (mantissa N)) as Hmm by congruence.
    rewrite Hmm in Heq. split; [congruence|]. nia. }
  split; [|split].
  - destruct (Z_lt_le_dec dn dN) as [Hlt|Hge].
    + destruct (Z.eq_dec e (-52)) as [He52|]; [|lia].
      right. split; [exact He52|]. apply Pos2Z.inj, Hcarry. lia.
    + assert (dn = dN) as Hdd by lia.
      destruct (Z_lt_le_dec q (2 ^ 53)) as [Hq53|Hq53].
      * destruct (Hsmall Hq53) as [He1 Hm52].
        destruct (Z.eq_dec e (-52)) as [He52|]; [|lia].
        right. split; [exact He52|]. apply Pos2Z.inj, Hm52. lia.
      * destruct (Hsame Hdd Hq53) as (_ & Hq2 & ->).
        rewrite new_location_zero in Hexact.
        destruct (Hexact Hq2 eq_refl) as [Hm52 He52].
        right. split; [lia|]. apply Pos2Z.inj, Hm52.
  - intros ->. assert (Z.pos (mantissa N) * 2 ^ 53 = Z.pos (mantissa N) * q + r) as Heq' by exact Heq.
    assert (q = 2 ^ 53 /\ r = 0) as [Hq2 ->] by nia.
    rewrite new_location_zero in Hexact.
    destruct (Hexact Hq2 eq_refl) as [_ He52]. lia.
  - intros Hlt.
    assert (0 < 2 ^ (53 - dN)) as Hk by (apply Z.pow_pos_nonneg; lia).
    destruct (Z_lt_le_dec dn dN) as [Hdlt|Hdge].
    + destruct (Z_lt_le_dec dn (dN - 1)) as [Hd2|Hd1]; [lia|].
      assert (dn = dN - 1) as Hdd by lia.
      destruct (Z_lt_le_dec q (2 ^ 53)) as [Hq53|Hq53]; [destruct (Hsmall Hq53); lia|].
      assert (Z.pos (mantissa n) = 2 * Z.pos n * 2 ^ (53 - dN)) as Hm1'.
      { rewrite Hm1, Hdd. replace (53 - (dN - 1)) with (Z.succ (53 - dN)) by lia.
        rewrite Z.pow_succ_r by lia. lia. }
      assert (Z.pos (mantissa n) + 2 * 2 ^ (53 - dN) <= 2 * Z.pos (mantissa N)) as Hgap
        by (rewrite Hm1', Hm2; nia).
      assert (q < 2 ^ 54 - 2) as Hq54.
      { change (2 ^ 54) with (2 * 2 ^ 53). change (2 ^ 53) with (2 * 2 ^ 52) in *. nia. }
      rewrite (Hhigh ltac:(lia)). lia.
    + assert (dn = dN) as Hdd by lia. rewrite Hdd in Hm1.
      assert (Z.pos (mantissa n) + 2 ^ (53 - dN) <= Z.pos (mantissa N)) as Hgap
        by (rewrite Hm1, Hm2; nia).
      assert (q < 2 ^ 53 - 1) as Hq53.
      { change (2 ^ 53) with (2 * 2 ^ 52) in *. nia. }
      rewrite (Hlow Hq53). lia.
Qed.

Lemma digits2_pos_int (N : positive) : Z.pos N <= 2147483647 -> Z.pos (digits2_pos N) <= 53.
Proof.
  intros HN. pose proof (digits2_pos_bounds N) as [Hlo _].
  destruct (Z_le_gt_dec (Z.pos (digits2_pos N)) 53) as [|Hgt]; [assumption|].
  assert (2 ^ 53 <= 2 ^ (Z.pos (digits2_pos N) - 1)) by (apply Z.pow_le_mono_r; lia).
  change (2 ^ 53) with 9007199254740992 in *. lia.
Qed.

(** The quotient of line 115, for [RAND_MAX] any positive [int] and [r]
    between 0 and [RAND_MAX]. *)
Lemma uniform01_of_bounds (RAND_MAX r : Z) :
  0 < RAND_MAX <= 2147483647 ->
  0 <= r <= RAND_MAX ->
  double_leb zero (uniform01_of RAND_MAX r) = true /\
  double_leb (uniform01_of RAND_MAX r) one = true /\
  (r = RAND_MAX -> uniform01_of RAND_MAX r = one) /\
  (r < RAND_MAX -> double_ltb (uniform01_of RAND_MAX r) one = true).
Proof.
  intros HN Hr. unfold uniform01_of.
  destruct RAND_MAX as [|N|N]; try lia.
  pose proof (digits2_pos_int N ltac:(lia)) as HdN.
  destruct r as [|n|n]; try lia.
  - rewrite (double_of_int_pos N HdN). repeat split; try reflexivity. discriminate.
  - destruct (double_div_int_le n N ltac:(lia) HdN) as (m & e & -> & Hbound & Hone & Hless).
    change one with (S754_finite false (2 ^ 52) (-52)).
    split; [reflexivity|]. split; [|split].
    + unfold double_leb, SFleb. cbn [SFcompare]. destruct Hbound as [He|[-> ->]].
      * rewrite (proj2 (Z.compare_lt_iff e (-52)) He). reflexivity.
      * reflexivity.
    + intros Heq. injection Heq as ->.
      destruct Hbound as [He|[-> ->]]; [specialize (Hone eq_refl); lia|reflexivity].
    + intros Hlt. unfold double_ltb, SFltb. cbn [SFcompare].
      rewrite (proj2 (Z.compare_lt_iff e (-52)) (Hless ltac:(lia))). reflexivity.
Qed.

(** C3, amended.  Every value of the random source lies in the closed
    interval from 0 to 1: whatever positive [int] [RAND_MAX] is, when [rand]
    answers a value between 0 and [RAND_MAX] the source returns a binary64
    number [u] with 0 <= u <= 1; [u] is 1 when [rand] answers [RAND_MAX],
    and below 1 for every other answer. *)
Theorem uniform01_in_closed_unit_interval (E : extern) (RAND_MAX : Z) ctx w :
  0 < RAND_MAX <= 2147483647 ->
  0 <= x_rand E (trace w) <= RAND_MAX ->
  exists u,
    uniform01 E RAND_MAX ctx w = Returns u (log c_rand w) /\
    double_leb zero u = true /\
    double_leb u one = true /\
    (x_rand E (trace w) = RAND_MAX -> u = one) /\
    (x_rand E (trace w) < RAND_MAX -> double_ltb u one = true).
Proof.
  intros HN Hr. eexists. split; [reflexivity|].
  apply uniform01_of_bounds; assumption.
Qed.

End Binary64.

(** C3 as stated fails: with [RAND_MAX] 2147483647 and [rand] answering
    [RAND_MAX] the random source returns 1, which is not below 1. *)
Lemma uniform01_returns_one :
  uniform01 (rand_extern 2147483647) 2147483647 None initial_world
  = Returns one (log c_rand initial_world) /\
  double_ltb one one = false.
Proof. split; vm_compute; reflexivity. Qed.

Lemma uniform01_in_closed_unit_interval_witness :
  exists u,
    uniform01 (rand_extern 2147483647) 2147483647 None initial_world
    = Returns u (log c_rand initial_world) /\
    double_leb zero u = true /\
    double_leb u one = true /\
    (x_rand (rand_extern 2147483647) (trace initial_world) = 2147483647 -> u = one) /\
    (x_rand (rand_extern 2147483647) (trace initial_world) < 2147483647 ->
     double_ltb u one = true).
Proof.
  apply (uniform01_in_closed_unit_interval (rand_extern 2147483647) 2147483647 None
           initial_world); cbn; lia.
Defined.

(** ** The program at work *)

(** The program run on the flat world ends with status 0 after three
    propagation steps, through rock, water and air. *)
Example flat_run_calls :
  exists w',
    main flat_extern 16 10 argv4 initial_world = Exits EXIT_SUCCESS w' /\
    List.filter (fun c => match c with c_printf_state _ _ _ _ => true | _ => false end)
                (calls w')
    = [c_printf_state 0 (double_of_int 1000000000) (double_lit (-2001) (-1)) "StandardRock";
       c_printf_state 1 (double_of_int 1000000000) (double_of_int (-500)) "Water";
       c_printf_state 2 (double_of_int 1000000000) (double_of_int 500) "Air";
       c_printf_state 3 (double_of_int 1000000000) (double_of_int 1500) "(void)"] /\
    length (List.filter is_transport (calls w')) = 3%nat.
Proof. eexists. split; [vm_compute; reflexivity|]. split; vm_compute; reflexivity. Qed.

(** The four ways out. *)
Example usage_error_exit :
  exists w',
    main flat_extern 16 10 ["earth"; "0"]%string initial_world = Exits EXIT_FAILURE w' /\
    calls w' = [c_fprintf_stderr "Usage: earth AZIMUTH ELEVATION KINETIC_ENERGY";
                c_turtle_stepper_destroy None; c_pumas_context_destroy None;
                c_pumas_physics_destroy None; c_exit EXIT_FAILURE].
Proof. eexists. split; vm_compute; reflexivity. Qed.

Example missing_dump_exit :
  exists w',
    main no_dump_extern 16 10 argv4 initial_world = Exits EXIT_FAILURE w' /\
    drop 5 (calls w')
    = [c_perror "materials/dump";
       c_turtle_stepper_destroy None; c_pumas_context_destroy None;
       c_pumas_physics_destroy None; c_exit EXIT_FAILURE].
Proof. eexists. split; vm_compute; reflexivity. Qed.

Example library_error_exit :
  exists w',
    main failing_extern 16 10 argv4 initial_world = Exits EXIT_FAILURE w' /\
    drop 24 (calls w')
    = [c_fputs_stderr "pumas: library error. See details below";
       c_fprintf_stderr "error: density error";
       c_turtle_stepper_destroy (Some earth_layers);
       c_pumas_context_destroy (Some (configured_context 16 (mkContext None None 0)));
       c_pumas_physics_destroy (Some 1%positive); c_exit EXIT_FAILURE].
Proof. eexists. split; vm_compute; reflexivity. Qed.

Example out_of_fuel_runs :
  exists w', main flat_extern 16 2 argv4 initial_world = Runs w'.
Proof. eexists. vm_compute. reflexivity. Qed.

(** ** The theorems at concrete inputs *)

Lemma earth_medium_resolves_layer_witness :
  exists w',
    earth_medium flat_extern None 1%positive (Some 2%positive) (Some 3%positive)
                 (callback_world rock_state) = Returns PUMAS_STEP_APPROXIMATE w' /\
    (0 <= layer_index flat_extern (callback_world rock_state) rock_state < 3 ->
     heap w' !! 2%positive
     = Some (cell_medium (Some (earth_media_plus
               (layer_index flat_extern (callback_world rock_state) rock_state))))) /\
    (layer_index flat_extern (callback_world rock_state) rock_state < 0 \/
     3 <= layer_index flat_extern (callback_world rock_state) rock_state ->
     heap w' !! 2%positive = Some (cell_medium (Some NULL_medium))).
Proof.
  apply (earth_medium_resolves_layer flat_extern None 1%positive 2%positive
           (Some 3%positive) (callback_world rock_state) rock_state); reflexivity.
Defined.

Lemma earth_medium_keeps_state_witness :
  exists r w',
    earth_medium flat_extern None 1%positive (Some 2%positive) (Some 3%positive)
                 (callback_world rock_state) = Returns r w' /\
    heap w' !! 1%positive = Some (cell_state rock_state) /\
    (forall l s0, heap (callback_world rock_state) !! l = Some (cell_state s0) ->
                  heap w' !! l = Some (cell_state s0)) /\
    physics w' = physics (callback_world rock_state) /\
    context w' = context (callback_world rock_state) /\
    stepper w' = stepper (callback_world rock_state) /\
    earth_media w' = earth_media (callback_world rock_state).
Proof.
  apply (earth_medium_keeps_state flat_extern None 1%positive (Some 2%positive)
           (Some 3%positive) (callback_world rock_state) rock_state); reflexivity.
Defined.

Lemma earth_medium_tolerates_NULL_witness :
  exists w',
    earth_medium flat_extern None 1%positive None None (callback_world rock_state)
    = Returns PUMAS_STEP_APPROXIMATE w' /\
    trace w' = c_turtle_stepper_step (stepper (callback_world rock_state))
                 (position rock_state) :: trace (callback_world rock_state) /\
    (@None loc = None -> forall l d, heap (callback_world rock_state) !! l = Some (cell_double d) ->
                                heap w' !! l = Some (cell_double d)) /\
    (@None loc = None -> forall l m, heap (callback_world rock_state) !! l = Some (cell_medium m) ->
                                heap w' !! l = Some (cell_medium m)) /\
    (@None loc = None -> @None loc = None -> heap w' = heap (callback_world rock_state)).
Proof.
  apply (earth_medium_tolerates_NULL flat_extern None 1%positive None None
           (callback_world rock_state) rock_state); reflexivity.
Defined.

Lemma earth_medium_depends_on_position_witness :
  exists r w1' w2',
    earth_medium flat_extern None 1%positive (Some 2%positive) (Some 3%positive)
                 (callback_world rock_state) = Returns r w1' /\
    earth_medium flat_extern None 1%positive (Some 2%positive) (Some 3%positive)
                 (callback_world rock_state') = Returns r w2' /\
    (forall l, Some 2%positive = Some l -> heap w1' !! l = heap w2' !! l) /\
    (forall l, Some 3%positive = Some l -> heap w1' !! l = heap w2' !! l).
Proof.
  apply (earth_medium_depends_on_position flat_extern None None 1%positive 1%positive
           (Some 2%positive) (Some 3%positive)
           (callback_world rock_state) (callback_world rock_state')
           rock_state rock_state'); reflexivity.
Defined.

Lemma flat_index_values (pos : vec3) :
  flat_index pos = 0 \/ flat_index pos = 1 \/ flat_index pos = 2 \/ flat_index pos = -1.
Proof.
  unfold flat_index.
  repeat match goal with |- context [if ?b then _ else _] => destruct b end; auto.
Qed.

Lemma flat_extern_void_start : void_start_is_degenerate flat_extern.
Proof.
  intros hist ctx stp [c e wt pos dir] i Hvoid. subst i.
  cbn [x_stepper_step flat_extern position fst snd] in Hvoid.
  cbn [x_transport flat_extern].
  unfold flat_medium, flat_lift. cbn [position charge energy weight direction].
  unfold NUMBER_OF_LAYERS in Hvoid.
  destruct (flat_index_values pos) as [H|[H|[H|H]]]; rewrite H in *; try lia.
  cbn. rewrite H. cbn. eauto.
Qed.

Lemma void_start_ends_the_loop_witness :
  exists w' evs,
    transport_loop flat_extern 5 1%positive (callback_world void_state) = Returns tt w' /\
    heap w' = heap (callback_world void_state) /\
    calls w' = calls (callback_world void_state)
               ++ c_pumas_context_transport (configured_context 16 (mkContext None None 0))
                    void_state
               :: evs
               ++ [c_printf_state (print_state_step (callback_world void_state))
                     (energy void_state)
                     (x_ecef_to_geodetic flat_extern (position void_state)) "(void)"] /\
    Forall (fun c => is_transport c = false /\ is_line c = false) evs.
Proof.
  apply (void_start_ends_the_loop flat_extern 4 1%positive (callback_world void_state)
           (configured_context 16 (mkContext None None 0)) void_state
           flat_extern_void_start); [reflexivity|reflexivity|vm_compute; auto].
Defined.

Lemma three_layers_resolve_witness :
  exists rock water air,
    x_material_index flat_extern "StandardRock" = inr rock /\
    x_material_index flat_extern "Water" = inr water /\
    x_material_index flat_extern "Air" = inr air /\
    stepper flat_setup_world
    = Some [[double_of_int (-1000)]; [double_of_int 0]; [double_of_int 1000]] /\
    length (earth_media flat_setup_world) = 3%nat /\
    resolved_material flat_setup_world 0 = Some rock /\
    resolved_material flat_setup_world 1 = Some water /\
    resolved_material flat_setup_world 2 = Some air /\
    (forall i, 0 <= i < 3 ->
       medium_at i = earth_media_plus i /\
       is_Some (resolved_material flat_setup_world i)) /\
    (forall i, i < 0 \/ 3 <= i ->
       medium_at i = NULL_medium /\
       resolved_material flat_setup_world i = None).
Proof.
  apply (three_layers_resolve flat_extern 16 argv4 1%positive). vm_compute. reflexivity.
Defined.

Lemma context_stops_at_medium_changes_witness :
  (exists c ctx,
     x_context_create flat_extern = inr c /\
     context flat_setup_world = Some ctx /\
     event ctx = Z.lor (event c) 16 /\
     Z.land (event ctx) 16 = 16 /\
     List.filter is_transport (trace flat_setup_world) = [] /\
     List.filter (fun c => match c with c_pumas_context_create => true | _ => false end)
                 (trace flat_setup_world) = [c_pumas_context_create]) /\
  Z.land (event (configured_context 16 (mkContext None None 0))) 16 = 16.
Proof.
  pose proof (context_stops_at_medium_changes flat_extern 16 argv4) as [Hsetup Hloop].
  split.
  - apply (Hsetup 1%positive flat_setup_world). vm_compute. reflexivity.
  - destruct flat_run_calls as (w' & Hrun & _).
    apply (Hloop 10%nat w' (configured_context 16 (mkContext None None 0)) rock_start).
    + rewrite Hrun. reflexivity.
    + vm_compute in Hrun. injection Hrun as <-. vm_compute.
      do 19 apply list_elem_of_further. do 4 apply list_elem_of_further.
      apply list_elem_of_here.
Defined.

(** ** The observation and the turn of the loop, in full *)

Section Observation.

Variable E : extern.

Lemma resolved_material_inside w i md :
  0 <= i < 3 -> earth_media w !! Z.to_nat i = Some md ->
  resolved_material w i = Some (material md).
Proof.
  intros Hi Hmd. unfold resolved_material.
  rewrite medium_at_inside by exact Hi. rewrite Hmd. reflexivity.
Qed.

Lemma resolved_material_outside w i : i < 0 \/ 3 <= i -> resolved_material w i = None.
Proof.
  intros Hi. unfold resolved_material. rewrite medium_at_outside by exact Hi. reflexivity.
Qed.

(** An observation, in full. *)
Lemma print_state_rule state w s (Q : unit -> world -> Prop) X R :
  heap w !! state = Some (cell_state s) ->
  error_handler w = Some "handle_error"%string ->
  length (earth_media w) = 3%nat ->
  (forall mat, material_shown E w (layer_index E w s) = inr mat ->
     Q tt (observed E s mat w)) ->
  (forall message mem, material_shown E w (layer_index E w s) = inl message ->
     X EXIT_FAILURE (error_exit message (log_all (lookup_calls E s w) (set_heap mem w)))) ->
  sat (print_state E state) w Q X R.
Proof.
  intros Hs Hh Hlen HQ HX.
  destruct (medium_at (layer_index E w s)) as [|i] eqn:Hm.
  - unfold sat. rewrite (print_state_void E state w s Hs Hm).
    assert (resolved_material w (layer_index E w s) = None) as Hnone
      by (unfold resolved_material; rewrite Hm; reflexivity).
    specialize (HQ "(void)"%string).
    unfold material_shown, observed, lookup_calls, material_lookup in HQ.
    rewrite Hnone in HQ. apply HQ. reflexivity.
  - apply medium_at_plus in Hm as Hi. destruct Hi as [-> Hi].
    unfold print_state.
    apply sat_bind, sat_alloc. intros l Hl.
    assert (l ≠ state) as Hne by (intros ->; congruence).
    apply sat_bind, sat_get. apply sat_bind.
    apply (sat_earth_medium E _ _ _ _ s).
    { cbn. rewrite lookup_insert_ne by exact Hne. exact Hs. }
    { cbn. rewrite lookup_insert_eq. reflexivity. }
    { reflexivity. }
    apply sat_bind, (sat_load_medium _ _ _ _ _ _ (earth_medium_world_medium E _ _ _ _)).
    change (layer_index E (set_heap (<[l:=cell_medium None]> (heap w)) w) s)
      with (layer_index E w s).
    rewrite Hm.
    apply sat_bind, sat_bind, sat_medium_material; [exact Hlen|exact Hi|].
    intros md Hmd.
    change (earth_media (earth_medium_world E s (Some l) None
              (set_heap (<[l:=cell_medium None]> (heap w)) w)))
      with (earth_media w) in Hmd.
    pose proof (resolved_material_inside w _ md Hi Hmd) as Hres.
    unfold material_shown, observed, lookup_calls, material_lookup in HQ, HX.
    rewrite Hres in HQ, HX.
    apply sat_pumas_call; [exact Hh| |].
    + intros name Hname.
      apply sat_bind, (sat_load_state _ s).
      { unfold earth_medium_world. cbn. rewrite !lookup_insert_ne by exact Hne. exact Hs. }
      apply sat_bind, sat_emit, sat_bind, sat_get, sat_bind, sat_emit, sat_bind, sat_modify.
      unfold free. apply sat_modify.
      specialize (HQ name Hname). revert HQ.
      unfold earth_medium_world, log_all. cbn.
      rewrite insert_insert_eq, delete_insert_id by exact Hl. exact (fun H => H).
    + intros message Hmsg.
      specialize (HX message
        (heap (earth_medium_world E s (Some l) None
                 (set_heap (<[l:=cell_medium None]> (heap w)) w))) Hmsg).
      exact HX.
Qed.

End Observation.
Section Turn.

Variable E : extern.

Lemma sat_conj {A} (m : M A) w (Q1 Q2 : A -> world -> Prop) (X1 X2 : Z -> world -> Prop)
    (R1 R2 : world -> Prop) :
  sat m w Q1 X1 R1 -> sat m w Q2 X2 R2 ->
  sat m w (fun a w' => Q1 a w' /\ Q2 a w') (fun rc w' => X1 rc w' /\ X2 rc w')
      (fun w' => R1 w' /\ R2 w').
Proof. unfold sat. destruct (m w); auto. Qed.

(** A propagation step, in full. *)
Lemma pumas_context_transport_rule ctx state w s
    (Q : Z * (medium_ptr_val * medium_ptr_val) -> world -> Prop) X R :
  context w = Some ctx ->
  heap w !! state = Some (cell_state s) ->
  error_handler w = Some "handle_error"%string ->
  (forall s' ev media, x_transport E (trace w) ctx (stepper w) s = inr (s', ev, media) ->
     Q (ev, media) (stepped ctx state s s' w)) ->
  (forall message, x_transport E (trace w) ctx (stepper w) s = inl message ->
     X EXIT_FAILURE (error_exit message (log (c_pumas_context_transport ctx s) w))) ->
  sat (pumas_context_transport E state) w Q X R.
Proof.
  intros Hc Hs Hh HQ HX. unfold pumas_context_transport.
  apply sat_bind, sat_get. rewrite Hc.
  apply sat_bind, (sat_load_state _ s); [exact Hs|].
  apply sat_bind, sat_get, sat_bind, sat_get, sat_bind, sat_pumas_call.
  - exact Hh.
  - intros [[s' ev] media] Hr. apply sat_bind, (sat_store_state _ s); [exact Hs|].
    apply sat_ret. apply (HQ s' ev media Hr).
  - intros message Hr. apply (HX message Hr).
Qed.

(** A turn of the loop, in full: the engine is given the state the object
    holds; what it answers is stored, observed and returned. *)
Lemma loop_body_rule ctx state w s
    (Q : pumas_state * (medium_ptr_val * medium_ptr_val) -> world -> Prop) X R :
  context w = Some ctx ->
  heap w !! state = Some (cell_state s) ->
  error_handler w = Some "handle_error"%string ->
  length (earth_media w) = 3%nat ->
  (forall s' ev media mat,
     x_transport E (trace w) ctx (stepper w) s = inr (s', ev, media) ->
     material_shown E w (layer_index E w s') = inr mat ->
     Q (s', media) (observed E s' mat (stepped ctx state s s' w))) ->
  (forall message, x_transport E (trace w) ctx (stepper w) s = inl message ->
     X EXIT_FAILURE (error_exit message (log (c_pumas_context_transport ctx s) w))) ->
  (forall s' ev media message mem,
     x_transport E (trace w) ctx (stepper w) s = inr (s', ev, media) ->
     material_shown E w (layer_index E w s') = inl message ->
     X EXIT_FAILURE
       (error_exit message
          (log_all (lookup_calls E s' (stepped ctx state s s' w))
             (set_heap mem (stepped ctx state s s' w))))) ->
  sat (loop_body E state) w Q X R.
Proof.
  intros Hc Hs Hh Hlen HQ HX1 HX2. unfold loop_body.
  apply sat_bind, (pumas_context_transport_rule ctx state w s); try assumption.
  intros s' ev media Hr.
  assert (heap (stepped ctx state s s' w) !! state = Some (cell_state s')) as Hs'
    by (unfold stepped; cbn; apply lookup_insert_eq).
  apply sat_bind, (print_state_rule E state _ s'); try assumption.
  - intros mat Hmat. apply sat_bind, (sat_load_state _ s'); [exact Hs'|].
    apply sat_ret. apply (HQ s' ev media mat Hr Hmat).
  - intros message mem Hmat. apply (HX2 s' ev media message mem Hr Hmat).
Qed.

(** The loop keeps what its turns keep: [I] holds before a turn, [J] after
    one. *)
Lemma transport_loop_rule (I J : world -> Prop) (X : Z -> world -> Prop) fuel state w :
  (forall w, I w -> sat (loop_body E state) w (fun _ w' => J w') X (fun _ => False)) ->
  (forall w, J w -> I w) ->
  I w ->
  sat (transport_loop E fuel state) w (fun _ w' => J w') X I.
Proof.
  intros Hbody HJI. revert w. induction fuel as [|fuel IH]; intros w HI; [exact HI|].
  cbn [transport_loop]. apply sat_bind.
  eapply sat_mono; [apply Hbody, HI| |auto|intros w' []].
  intros r w1 HJ1. cbv beta in HJ1 |- *.
  destruct (loop_break (fst r) (snd r)); [exact HJ1|apply IH, HJI, HJ1].
Qed.

(** The same with the turns counted, and with what a turn answers: [I k]
    holds before the turn [k + 1], [J k r] after the turn [k] that answered
    [r], [X k] when the process ends in the turn [k + 1]. *)
Lemma transport_loop_counted (I : nat -> world -> Prop)
    (J : nat -> pumas_state * (medium_ptr_val * medium_ptr_val) -> world -> Prop)
    (X : nat -> Z -> world -> Prop) fuel state :
  (forall k w, I k w -> sat (loop_body E state) w (J (S k)) (X k) (fun _ => False)) ->
  (forall k r w, J k r w -> loop_break (fst r) (snd r) = false -> I k w) ->
  forall k w,
    I k w ->
    sat (transport_loop E fuel state) w
        (fun _ w' => exists j r, (k < j <= k + fuel)%nat /\ J j r w' /\
                                 loop_break (fst r) (snd r) = true)
        (fun rc w' => exists j, (k <= j < k + fuel)%nat /\ X j rc w')
        (fun w' => I (k + fuel)%nat w').
Proof.
  intros Hbody HJI. induction fuel as [|fuel IH]; intros k w HI.
  { unfold sat. cbn [transport_loop]. rewrite Nat.add_0_r. exact HI. }
  cbn [transport_loop]. apply sat_bind.
  eapply sat_mono; [apply Hbody, HI| | |intros w' []].
  - intros r w1 HJ. cbv beta.
    destruct (loop_break (fst r) (snd r)) eqn:Hbreak.
    + exists (S k), r. split; [lia|]. split; [exact HJ|exact Hbreak].
    + eapply sat_mono; [apply (IH (S k) w1), (HJI _ _ _ HJ Hbreak)| | |].
      * intros _ w' (j & r' & Hj & HJ' & Hbreak'). exists j, r'. split; [lia|]. auto.
      * intros rc w' (j & Hj & HX). exists j. split; [lia|exact HX].
      * intros w' HI'. replace (k + S fuel)%nat with (S k + fuel)%nat by lia. exact HI'.
  - intros rc w' HX. exists k. split; [lia|exact HX].
Qed.

End Turn.

(** ** The set-up and the whole program, in full *)

Section Whole.

Variable E : extern.
Variable PUMAS_EVENT_MEDIUM : Z.

Lemma setup_world_calls a0 a1 a2 a3 rest p c rock water air :
  trace (setup_world E PUMAS_EVENT_MEDIUM a1 a2 a3 p c rock water air)
  = reverse (setup_calls (a0 :: a1 :: a2 :: a3 :: rest)).
Proof. reflexivity. Qed.

Ltac setup_fails n diag hp :=
  right; exists n, diag, hp; eexists; split;
  [ unfold main_setup, set_material, pumas_call;
    repeat match goal with H : _ = _ |- _ => rewrite H end;
    vm_compute; reflexivity
  | split; [|split; [reflexivity|split; [reflexivity|split; [reflexivity|split;
      [reflexivity|split; [repeat constructor|repeat split]]]]]] ].

(** The set-up, in full: either every step succeeds and [main] reaches line
    231 in [setup_world], or the process ends at the first step that fails,
    after the calls made so far, the diagnostic and the releases. *)
Lemma main_setup_outcome (argv : list string) :
  (exists a0 a1 a2 a3 rest p c rock water air,
     argv = a0 :: a1 :: a2 :: a3 :: rest /\
     x_fopen E "materials/dump" = true /\
     x_physics_load E = inr p /\
     x_material_index E "StandardRock" = inr rock /\
     x_material_index E "Water" = inr water /\
     x_material_index E "Air" = inr air /\
     x_context_create E = inr c /\
     main_setup E PUMAS_EVENT_MEDIUM argv initial_world
     = Returns 1%positive (setup_world E PUMAS_EVENT_MEDIUM a1 a2 a3 p c rock water air)) \/
  (exists n diag hp w',
     main_setup E PUMAS_EVENT_MEDIUM argv initial_world = Exits EXIT_FAILURE w' /\
     setup_failure E argv n diag hp /\
     trace w' = reverse (take n (setup_calls argv) ++ diag
                         ++ release_calls None None hp EXIT_FAILURE) /\
     print_state_step w' = 0 /\ heap w' = ∅ /\
     length (earth_media w') = 3%nat /\
     Forall (fun m => locals m = None) (earth_media w') /\
     stepper w' = None /\ context w' = None /\ physics w' = None).
Proof.
  destruct argv as [|a0 [|a1 [|a2 [|a3 rest]]]];
    try (right; eexists 0%nat, _, None; eexists; split;
         [reflexivity|split; [apply fail_usage; cbn; lia|repeat split; repeat constructor]]).
  assert ((Z.of_nat (length (a0 :: a1 :: a2 :: a3 :: rest)) <? 4) = false) as Hn
    by (apply Z.ltb_ge; cbn [length]; lia).
  assert (4 <= length (a0 :: a1 :: a2 :: a3 :: rest))%nat as Hlen by (cbn [length]; lia).
  destruct (x_fopen E "materials/dump") eqn:Hf.
  2: { setup_fails 5%nat [c_perror "materials/dump"] (@None pumas_physics).
       apply fail_fopen; assumption. }
  destruct (x_physics_load E) as [m|p] eqn:Hp.
  { setup_fails 6%nat (error_lines m) (@None pumas_physics). apply fail_load; assumption. }
  destruct (x_material_index E "StandardRock") as [m|rock] eqn:H0.
  { setup_fails 8%nat (error_lines m) (Some p). apply fail_rock; assumption. }
  destruct (x_material_index E "Water") as [m|water] eqn:H1.
  { setup_fails 9%nat (error_lines m) (Some p). eapply fail_water; eassumption. }
  destruct (x_material_index E "Air") as [m|air] eqn:H2.
  { setup_fails 10%nat (error_lines m) (Some p). eapply fail_air; eassumption. }
  destruct (x_context_create E) as [m|c] eqn:Hc.
  { setup_fails 11%nat (error_lines m) (Some p). eapply fail_create; eassumption. }
  left. exists a0, a1, a2, a3, rest, p, c, rock, water, air.
  repeat (split; [reflexivity|]).
  unfold main_setup, set_material, pumas_call.
  rewrite Hn, Hf, Hp, H0, H1, H2, Hc.
  vm_compute. reflexivity.
Qed.


End Whole.

(** ** The log of a run *)

Section Log.

Variable E : extern.
Variable PUMAS_EVENT_MEDIUM : Z.

Lemma calls_log c w : calls (log c w) = calls w ++ [c].
Proof. unfold calls. cbn [trace log]. apply reverse_cons. Qed.

Lemma calls_log_all evs w : calls (log_all evs w) = calls w ++ reverse evs.
Proof. unfold calls. cbn [trace log_all]. apply reverse_app. Qed.

Lemma calls_exit_world rc w :
  calls (exit_world rc w) = calls w ++ release_calls (stepper w) (context w) (physics w) rc.
Proof.
  unfold calls. proj_simpl. rewrite !reverse_cons, <- !app_assoc. reflexivity.
Qed.

Lemma calls_error_exit message w :
  calls (error_exit message w)
  = calls w ++ error_lines message
    ++ release_calls (stepper w) (context w) (physics w) EXIT_FAILURE.
Proof.
  unfold error_exit. rewrite calls_exit_world, !calls_log, <- !app_assoc. reflexivity.
Qed.

Lemma material_lookup_reverse w i : reverse (material_lookup w i) = material_lookup w i.
Proof. unfold material_lookup. destruct (resolved_material w i); reflexivity. Qed.

Lemma lookup_calls_reverse s w :
  reverse (lookup_calls E s w)
  = c_turtle_stepper_step (stepper w) (position s) :: material_lookup w (layer_index E w s).
Proof.
  unfold lookup_calls. rewrite reverse_app, material_lookup_reverse. reflexivity.
Qed.

Lemma calls_observed s mat w :
  calls (observed E s mat w) = calls w ++ observation_calls E s mat w.
Proof.
  unfold observed. change (calls (set_print_state_step ?n ?w0)) with (calls w0).
  rewrite calls_log_all, !reverse_cons, lookup_calls_reverse.
  unfold observation_calls. rewrite <- !app_assoc. reflexivity.
Qed.

Lemma calls_stepped ctx state s s' w :
  calls (stepped ctx state s s' w) = calls w ++ [c_pumas_context_transport ctx s].
Proof. apply calls_log. Qed.

Lemma marks_app l1 l2 : marks (l1 ++ l2) = marks l1 ++ marks l2.
Proof. apply flat_map_app. Qed.

Lemma marks_material_lookup w i : marks (material_lookup w i) = [].
Proof. unfold material_lookup. destruct (resolved_material w i); reflexivity. Qed.

Lemma marks_observation_calls s mat w :
  marks (observation_calls E s mat w) = [Line (print_state_step w)].
Proof.
  unfold observation_calls.
  change (marks (?c :: ?l)) with (mark_of c ++ marks l).
  rewrite marks_app, marks_material_lookup. reflexivity.
Qed.

Lemma alternation_S k :
  alternation (S k) = alternation k ++ [Step; Line (Z.of_nat k + 1)].
Proof.
  unfold alternation. rewrite seq_S, flat_map_app. cbn [flat_map app].
  replace (Z.of_nat (1 + k)) with (Z.of_nat k + 1) by lia. reflexivity.
Qed.

Lemma turn_call_material_lookup stp w i : Forall (turn_call stp) (material_lookup w i).
Proof.
  unfold material_lookup. destruct (resolved_material w i); repeat constructor.
Qed.

Lemma turn_call_observation_calls s mat w :
  Forall (turn_call (stepper w)) (observation_calls E s mat w).
Proof.
  unfold observation_calls. apply Forall_cons_2; [reflexivity|].
  apply Forall_app_2; [apply turn_call_material_lookup|]. repeat constructor.
Qed.

Lemma turn_call_lookup_calls s w :
  Forall (turn_call (stepper w)) (reverse (lookup_calls E s w)).
Proof.
  rewrite lookup_calls_reverse. apply Forall_cons_2; [reflexivity|].
  apply turn_call_material_lookup.
Qed.

Lemma marks_lookup_calls s w : marks (reverse (lookup_calls E s w)) = [].
Proof. rewrite lookup_calls_reverse. apply marks_material_lookup. Qed.

Lemma running_weaken argv k w :
  running E PUMAS_EVENT_MEDIUM argv k w -> running E PUMAS_EVENT_MEDIUM argv 0 w.
Proof.
  intros (p & c & turns & k' & _ & H). exists p, c, turns, k'. split; [lia|exact H].
Qed.

Lemma past_setup_running argv kmin k w :
  (kmin <= k)%nat -> past_setup E PUMAS_EVENT_MEDIUM argv k w ->
  running E PUMAS_EVENT_MEDIUM argv kmin w.
Proof. intros Hk (p & c & turns & H). exists p, c, turns, k. split; [exact Hk|exact H]. Qed.

Lemma running_past_setup argv kmin w :
  running E PUMAS_EVENT_MEDIUM argv kmin w ->
  exists k, (kmin <= k)%nat /\ past_setup E PUMAS_EVENT_MEDIUM argv k w.
Proof. intros (p & c & turns & k & Hk & H). exists k. split; [exact Hk|]. exists p, c, turns. exact H. Qed.

Lemma failed_with_ended argv ms rc w :
  (ms = [] \/ exists k, ms = alternation k ++ [Step]) ->
  failed_with E PUMAS_EVENT_MEDIUM argv ms rc w -> ended E PUMAS_EVENT_MEDIUM argv rc w.
Proof.
  intros Hms (-> & _ & _ & _ & p & c & turns & message & Hp & Hc & Htable & Hturns & Hmarks
                 & Hcalls).
  right. destruct Hms as [->|[k ->]].
  - exists p, c, turns, 0%nat. do 4 (split; [assumption|]). right. eauto 6.
  - exists p, c, turns, k. do 4 (split; [assumption|]). right. eauto 6.
Qed.

Lemma ended_well_ended argv k rc w :
  ended_well E PUMAS_EVENT_MEDIUM argv (S k) rc w -> ended E PUMAS_EVENT_MEDIUM argv rc w.
Proof.
  intros (-> & _ & _ & _ & p & c & turns & Hp & Hc & Htable & Hturns & Hmarks & Hcalls).
  right. exists p, c, turns, k. do 4 (split; [assumption|]). left. auto.
Qed.

Lemma every_step_goes_on_app stp evs tr :
  Forall (fun c => is_transport c = false) evs ->
  every_step_goes_on E stp tr -> every_step_goes_on E stp (evs ++ tr).
Proof.
  intros Hevs Htr. induction Hevs as [|c evs Hc _ IH]; [exact Htr|].
  cbn [app every_step_goes_on]. split; [|exact IH].
  destruct c; try discriminate Hc; exact I.
Qed.

Lemma lookup_calls_quiet s w :
  Forall (fun c => is_transport c = false) (lookup_calls E s w).
Proof.
  unfold lookup_calls, material_lookup.
  destruct (resolved_material w (layer_index E w s)); repeat constructor.
Qed.

Lemma last_answer_goes_on stp r tr :
  last_answer E stp r tr -> loop_break (fst r) (snd r) = false ->
  every_step_goes_on E stp tr.
Proof.
  intros (evs & ctx & s & ev & before & -> & Hevs & Hr & Hbefore) Hbreak.
  apply every_step_goes_on_app; [exact Hevs|]. split; [|exact Hbefore].
  exists (fst r), ev, (snd r). auto.
Qed.

(** The steps of a log are as many as the steps among its marks. *)
Lemma count_steps (l : list call) :
  length (List.filter is_transport l)
  = length (List.filter (fun m => match m with Step => true | Line _ => false end) (marks l)).
Proof.
  induction l as [|c l IH]; [reflexivity|].
  change (marks (c :: l)) with (mark_of c ++ marks l).
  rewrite List.filter_app, length_app, <- IH. destruct c; reflexivity.
Qed.

Lemma count_steps_alternation k :
  length (List.filter (fun m => match m with Step => true | Line _ => false end)
                      (alternation k)) = k.
Proof.
  induction k as [|k IH]; [reflexivity|].
  rewrite alternation_S, List.filter_app, length_app, IH. cbn. lia.
Qed.

(** The first observation (line 232). *)
Lemma first_observation_counted a0 a1 a2 a3 rest p c rock water air :
  x_physics_load E = inr p ->
  x_material_index E "StandardRock" = inr rock ->
  x_material_index E "Water" = inr water ->
  x_material_index E "Air" = inr air ->
  x_context_create E = inr c ->
  sat (print_state E 1%positive)
      (setup_world E PUMAS_EVENT_MEDIUM a1 a2 a3 p c rock water air)
      (fun _ w1 => past_setup E PUMAS_EVENT_MEDIUM (a0 :: a1 :: a2 :: a3 :: rest) 0 w1 /\
                   every_step_goes_on E (Some earth_layers) (trace w1))
      (failed_with E PUMAS_EVENT_MEDIUM (a0 :: a1 :: a2 :: a3 :: rest) [])
      (fun _ => False).
Proof.
  intros Hp H0 H1 H2 Hc.
  set (w0 := setup_world E PUMAS_EVENT_MEDIUM a1 a2 a3 p c rock water air).
  assert (resolved_table E (earth_media w0)) as Htable
    by (exists rock, water, air; repeat split; assumption).
  assert (calls w0 = setup_calls (a0 :: a1 :: a2 :: a3 :: rest)) as Hcalls
    by (unfold calls, w0; rewrite (setup_world_calls E PUMAS_EVENT_MEDIUM a0 _ _ _ rest);
        apply reverse_involutive).
  apply (print_state_rule E _ _ (initial_state E a1 a2 a3)); try reflexivity.
  - intros mat _. split.
    + exists p, c, (observation_calls E (initial_state E a1 a2 a3) mat w0).
      do 2 (split; [assumption|]). do 4 (split; [reflexivity|]).
      split; [exact Htable|]. split; [reflexivity|].
      split; [rewrite calls_observed, Hcalls; reflexivity|].
      split; [apply (turn_call_observation_calls _ _ w0)|].
      split; [apply marks_observation_calls|reflexivity].
    + unfold observed. cbn [trace set_print_state_step log_all].
      apply (every_step_goes_on_app _ (_ :: _ :: lookup_calls E _ w0));
        [|unfold w0; cbn; tauto].
      do 2 (apply Forall_cons_2; [reflexivity|]). apply lookup_calls_quiet.
  - intros message mem _. split; [reflexivity|]. do 3 (split; [reflexivity|]).
    exists p, c, (reverse (lookup_calls E (initial_state E a1 a2 a3) w0)), message.
    do 2 (split; [assumption|]). split; [exact Htable|].
    split; [apply (turn_call_lookup_calls _ w0)|].
    split; [apply marks_lookup_calls|].
    rewrite calls_error_exit, calls_log_all.
    change (calls (set_heap mem w0)) with (calls w0). rewrite Hcalls, <- !app_assoc.
    reflexivity.
Qed.

(** A turn of the loop (lines 236-238). *)
Lemma loop_body_counted argv k w :
  past_setup E PUMAS_EVENT_MEDIUM argv k w ->
  sat (loop_body E 1%positive) w
      (fun r w' =>
         past_setup E PUMAS_EVENT_MEDIUM argv (S k) w' /\
         exists evs ctx s ev,
           trace w' = evs ++ c_pumas_context_transport ctx s :: trace w /\
           Forall (fun c => is_transport c = false) evs /\
           x_transport E (trace w) ctx (Some earth_layers) s = inr (fst r, ev, snd r))
      (failed_with E PUMAS_EVENT_MEDIUM argv (alternation k ++ [Step]))
      (fun _ => False).
Proof.
  intros (p & c & turns & Hp & Hc & Hphys & Hctx & Hstp & Hh & Htable & Hst & Hcalls
          & Hturns & Hmarks & Hstep).
  assert (length (earth_media w) = 3%nat) as Hlen
    by (destruct Htable as (rock & water & air & _ & _ & _ & ->); reflexivity).
  apply is_state_object_spec in Hst as [s Hs].
  apply (loop_body_rule E _ _ _ s _ _ _ Hctx Hs Hh Hlen).
  - intros s' ev media mat Hr _.
    set (w1 := stepped (configured_context PUMAS_EVENT_MEDIUM c) 1%positive s s' w).
    split.
    + exists p, c,
        (turns ++ c_pumas_context_transport (configured_context PUMAS_EVENT_MEDIUM c) s
               :: observation_calls E s' mat w1).
      do 2 (split; [assumption|]).
      do 5 (split; [assumption|]).
      split; [apply is_state_object_spec; exists s'; unfold w1, stepped, observed; cbn;
              apply lookup_insert_eq|].
      split.
      { rewrite calls_observed. unfold w1. rewrite calls_stepped, Hcalls, <- !app_assoc.
        reflexivity. }
      split.
      { apply Forall_app_2; [exact Hturns|]. apply Forall_cons_2; [exact I|].
        rewrite <- Hstp. apply (turn_call_observation_calls s' mat w1). }
      split.
      { rewrite marks_app, Hmarks, alternation_S.
        change (marks (?c0 :: ?l)) with (mark_of c0 ++ marks l).
        rewrite marks_observation_calls. unfold w1, stepped. cbn. rewrite Hstep.
        reflexivity. }
      unfold observed. cbn. rewrite Hstep. lia.
    + eexists (_ :: _ :: lookup_calls E s' w1),
              (configured_context PUMAS_EVENT_MEDIUM c), s, ev.
      split; [reflexivity|].
      split; [do 2 (apply Forall_cons_2; [reflexivity|]); apply lookup_calls_quiet|].
      rewrite <- Hstp. exact Hr.
  - intros message _. split; [reflexivity|]. do 3 (split; [reflexivity|]).
    exists p, c, (turns ++ [c_pumas_context_transport (configured_context PUMAS_EVENT_MEDIUM c) s]),
           message.
    do 2 (split; [assumption|]). split; [exact Htable|].
    split; [apply Forall_app_2; [exact Hturns|repeat constructor]|].
    split; [rewrite marks_app, Hmarks; reflexivity|].
    rewrite calls_error_exit, calls_log. cbn [stepper context physics log].
    rewrite Hcalls, Hphys, Hctx, Hstp, <- !app_assoc. reflexivity.
  - intros s' ev media message mem _ _. split; [reflexivity|]. do 3 (split; [reflexivity|]).
    set (w1 := stepped (configured_context PUMAS_EVENT_MEDIUM c) 1%positive s s' w).
    exists p, c,
      (turns ++ c_pumas_context_transport (configured_context PUMAS_EVENT_MEDIUM c) s
             :: reverse (lookup_calls E s' w1)), message.
    do 2 (split; [assumption|]). split; [exact Htable|].
    split.
    { apply Forall_app_2; [exact Hturns|]. apply Forall_cons_2; [exact I|].
      rewrite <- Hstp. apply (turn_call_lookup_calls s' w1). }
    split.
    { rewrite marks_app, Hmarks.
      change (marks (?c0 :: ?l)) with (mark_of c0 ++ marks l).
      rewrite marks_lookup_calls. reflexivity. }
    rewrite calls_error_exit, calls_log_all.
    change (calls (set_heap mem w1)) with (calls w1).
    unfold w1. rewrite calls_stepped. cbn [stepper context physics log_all set_heap stepped log].
    rewrite Hcalls, Hphys, Hctx, Hstp, <- !app_assoc. reflexivity.
Qed.

Lemma first_observation_log a0 a1 a2 a3 rest p c rock water air :
  x_physics_load E = inr p ->
  x_material_index E "StandardRock" = inr rock ->
  x_material_index E "Water" = inr water ->
  x_material_index E "Air" = inr air ->
  x_context_create E = inr c ->
  sat (print_state E 1%positive)
      (setup_world E PUMAS_EVENT_MEDIUM a1 a2 a3 p c rock water air)
      (fun _ w1 => running E PUMAS_EVENT_MEDIUM (a0 :: a1 :: a2 :: a3 :: rest) 0 w1)
      (ended E PUMAS_EVENT_MEDIUM (a0 :: a1 :: a2 :: a3 :: rest)) (fun _ => False).
Proof.
  intros Hp H0 H1 H2 Hc.
  eapply sat_mono;
    [apply (first_observation_counted a0 a1 a2 a3 rest p c rock water air); assumption
    | | |auto].
  - intros _ w1 [Hpast _]. apply (past_setup_running _ _ _ _ (le_n 0) Hpast).
  - intros rc w'. apply failed_with_ended. auto.
Qed.

Lemma loop_body_log argv w :
  running E PUMAS_EVENT_MEDIUM argv 0 w ->
  sat (loop_body E 1%positive) w
      (fun _ w' => running E PUMAS_EVENT_MEDIUM argv 1 w')
      (ended E PUMAS_EVENT_MEDIUM argv) (fun _ => False).
Proof.
  intros Hrun. apply running_past_setup in Hrun as (k & _ & Hpast).
  eapply sat_mono; [apply (loop_body_counted argv k w Hpast)| | |auto].
  - intros r w' [Hpast' _]. apply (past_setup_running argv 1 (S k) w'); [lia|exact Hpast'].
  - intros rc w'. apply failed_with_ended. eauto.
Qed.

(** The log of a run of [main], with its turns counted: the run ends in the
    set-up, or in [handle_error] in the first observation or in one of the
    turns, or at the end of the loop after at most [fuel] turns, or it is
    still running after exactly [fuel] turns that all let the loop go on. *)
Lemma main_counted fuel argv :
  sat (main E PUMAS_EVENT_MEDIUM fuel argv) initial_world
      (fun _ _ => False)
      (fun rc w' =>
         (rc = EXIT_FAILURE /\
          stepper w' = None /\ context w' = None /\ physics w' = None /\
          length (earth_media w') = 3%nat /\
          Forall (fun m => locals m = None) (earth_media w') /\
          exists n diag hp,
            setup_failure E argv n diag hp /\
            calls w' = take n (setup_calls argv) ++ diag
                       ++ release_calls None None hp EXIT_FAILURE) \/
         failed_with E PUMAS_EVENT_MEDIUM argv [] rc w' \/
         (exists k, (k < fuel)%nat /\
                    failed_with E PUMAS_EVENT_MEDIUM argv (alternation k ++ [Step]) rc w') \/
         (exists k, (k < fuel)%nat /\ ended_well E PUMAS_EVENT_MEDIUM argv (S k) rc w'))
      (fun w' => past_setup E PUMAS_EVENT_MEDIUM argv fuel w' /\
                 every_step_goes_on E (Some earth_layers) (trace w')).
Proof.
  unfold main. apply sat_bind. unfold sat at 1.
  destruct (main_setup_outcome E PUMAS_EVENT_MEDIUM argv)
    as [(a0 & a1 & a2 & a3 & rest & p & c & rock & water & air & -> & _ & Hp & H0 & H1 & H2
         & Hc & ->)
       |(n & diag & hp & w0 & -> & Hfail & Htrace & _ & _ & Hlen & Hlocals & Hs & Hctx & Hphys)].
  2: { left. do 6 (split; [assumption || reflexivity|]).
       exists n, diag, hp. split; [exact Hfail|].
       unfold calls. rewrite Htrace. apply reverse_involutive. }
  set (argv := a0 :: a1 :: a2 :: a3 :: rest).
  apply sat_bind.
  eapply sat_mono;
    [apply (first_observation_counted a0 a1 a2 a3 rest p c rock water air); assumption
    | |intros rc w' Hexit; right; left; exact Hexit|intros ? []].
  intros [] w1 [Hpast Hgo]. cbv beta.
  apply sat_bind.
  eapply sat_mono;
    [apply (transport_loop_counted E
              (fun k w => past_setup E PUMAS_EVENT_MEDIUM argv k w /\
                          every_step_goes_on E (Some earth_layers) (trace w))
              (fun k r w => past_setup E PUMAS_EVENT_MEDIUM argv k w /\
                            last_answer E (Some earth_layers) r (trace w))
              (fun k => failed_with E PUMAS_EVENT_MEDIUM argv (alternation k ++ [Step]))
              fuel 1%positive) with (k := 0%nat) (w := w1)
    | | |].
  - intros k w [Hpast' Hgo'].
    eapply sat_mono; [apply (loop_body_counted argv k w Hpast')| |auto|auto].
    intros r w' (Hpast'' & evs & ctx & s & ev & Htrace & Hevs & Hr).
    split; [exact Hpast''|]. exists evs, ctx, s, ev, (trace w). auto.
  - intros k r w [Hpast' Hlast] Hbreak. split; [exact Hpast'|].
    apply (last_answer_goes_on _ _ _ Hlast Hbreak).
  - split; assumption.
  - intros [] w2 (j & r & Hj & [Hpast2 _] & _). cbv beta.
    apply sat_exit_gracefully. right. right. right.
    destruct j as [|j]; [lia|]. exists j. split; [lia|].
    destruct Hpast2 as (p2 & c2 & turns & Hp2 & Hc2 & Hphys2 & Hctx2 & Hstp2 & _ & Htable & _
                        & Hcalls & Hturns & Hmarks & _).
    split; [reflexivity|]. do 3 (split; [reflexivity|]).
    exists p2, c2, turns. do 2 (split; [assumption|]). split; [exact Htable|].
    split; [exact Hturns|]. split; [exact Hmarks|].
    rewrite calls_exit_world, Hcalls, Hphys2, Hctx2, Hstp2, <- !app_assoc. reflexivity.
  - intros rc w' (j & Hj & Hexit). right. right. left. exists j. split; [lia|exact Hexit].
  - intros w' H. exact H.
Qed.

(** The log of a run of [main]. *)
Lemma main_log fuel argv :
  sat (main E PUMAS_EVENT_MEDIUM fuel argv) initial_world
      (fun _ _ => False)
      (ended E PUMAS_EVENT_MEDIUM argv)
      (running E PUMAS_EVENT_MEDIUM argv 0).
Proof.
  eapply sat_mono; [apply (main_counted fuel argv)|auto| |].
  - intros rc w' [(-> & _ & _ & _ & Hlen & Hlocals & Hsetup)|[Hfail|[(k & _ & Hfail)|(k & _ & Hend)]]].
    + left. auto.
    + apply (failed_with_ended _ _ _ _ (or_introl eq_refl) Hfail).
    + apply (failed_with_ended _ _ _ _ (or_intror (ex_intro _ k eq_refl)) Hfail).
    + apply (ended_well_ended _ _ _ _ Hend).
  - intros w' [Hpast _]. apply (past_setup_running argv 0 fuel w'); [lia|exact Hpast].
Qed.

End Log.

(** ** More of the program *)

Section More.

Variable E : extern.
Variable PUMAS_EVENT_MEDIUM : Z.

Lemma print_state_outcome state w s :
  heap w !! state = Some (cell_state s) ->
  error_handler w = Some "handle_error"%string ->
  length (earth_media w) = 3%nat ->
  match material_shown E w (layer_index E w s) with
  | inr mat => print_state E state w = Returns tt (observed E s mat w)
  | inl message =>
      exists mem,
        print_state E state w
        = Exits EXIT_FAILURE
            (error_exit message (log_all (lookup_calls E s w) (set_heap mem w)))
  end.
Proof.
  intros Hs Hh Hlen.
  assert (sat (print_state E state) w
    (fun _ w' => exists mat, material_shown E w (layer_index E w s) = inr mat /\
                             w' = observed E s mat w)
    (fun rc w' => exists message mem,
       material_shown E w (layer_index E w s) = inl message /\ rc = EXIT_FAILURE /\
       w' = error_exit message (log_all (lookup_calls E s w) (set_heap mem w)))
    (fun _ => False)) as Hsat
    by (apply (print_state_rule E state w s); eauto 6).
  unfold sat in Hsat.
  destruct (print_state E state w) as [[] w'|rc w'|w'|]; [| |contradiction..].
  - destruct Hsat as (mat & -> & ->); eauto.
  - destruct Hsat as (message & mem & -> & -> & ->); eauto 6.
Qed.

(** X1.  An observation, [print_state] (lines 119-139), on a valid state
    object with the handler of the program registered, the three media
    entries in place and a counter that is an [int] below [INT_MAX] (at
    [INT_MAX] the increment of line 138 overflows, which C leaves undefined
    and the model does not describe).  It asks the stepper once for the
    layer of the position.  For a layer index outside [0, 3) it makes no
    call to PUMAS and prints "(void)".  For an index inside it looks up the
    name of the material of that entry of the media table; it prints the
    name PUMAS answers, and when PUMAS reports an error the process ends in
    [handle_error] with the failure status, before any line is printed.  When
    it returns, the line carries the value of the counter and the energy of
    the state, the counter is one more and still an [int], and the memory
    and the handles are as before. *)
Theorem print_state_observes state w s :
  heap w !! state = Some (cell_state s) ->
  error_handler w = Some "handle_error"%string ->
  length (earth_media w) = 3%nat ->
  -2147483648 <= print_state_step w < 2147483647 ->
  let i := layer_index E w s in
  (i < 0 \/ 3 <= i ->
     lookup_calls E s w = [c_turtle_stepper_step (stepper w) (position s)] /\
     print_state E state w = Returns tt (observed E s "(void)" w)) /\
  (0 <= i < 3 ->
     exists md,
       earth_media w !! Z.to_nat i = Some md /\
       lookup_calls E s w = [c_pumas_physics_material_name (material md);
                             c_turtle_stepper_step (stepper w) (position s)] /\
       match x_material_name E (material md) with
       | inr name => print_state E state w = Returns tt (observed E s name w)
       | inl message =>
           exists mem,
             print_state E state w
             = Exits EXIT_FAILURE
                 (error_exit message (log_all (lookup_calls E s w) (set_heap mem w)))
       end) /\
  (forall mat, heap (observed E s mat w) = heap w /\
               print_state_step (observed E s mat w) = print_state_step w + 1 /\
               -2147483648 <= print_state_step (observed E s mat w) <= 2147483647 /\
               physics (observed E s mat w) = physics w /\
               context (observed E s mat w) = context w /\
               stepper (observed E s mat w) = stepper w /\
               earth_media (observed E s mat w) = earth_media w).
Proof.
  intros Hs Hh Hlen Hint i.
  pose proof (print_state_outcome state w s Hs Hh Hlen) as Hout. fold i in Hout.
  split; [|split].
  - intros Hi. pose proof (resolved_material_outside w i Hi) as Hres.
    unfold material_shown in Hout. rewrite Hres in Hout.
    split; [|exact Hout].
    unfold lookup_calls, material_lookup. fold i. rewrite Hres. reflexivity.
  - intros Hi.
    destruct (lookup_lt_is_Some_2 (earth_media w) (Z.to_nat i)) as [md Hmd]; [lia|].
    exists md. split; [exact Hmd|].
    pose proof (resolved_material_inside w i md Hi Hmd) as Hres.
    unfold material_shown in Hout. rewrite Hres in Hout.
    split; [|exact Hout].
    unfold lookup_calls, material_lookup. fold i. rewrite Hres. reflexivity.
  - intros mat. split; [reflexivity|]. split; [reflexivity|].
    split; [|repeat split]. unfold observed. cbn. lia.
Qed.

Lemma loop_body_full ctx state w s :
  context w = Some ctx ->
  heap w !! state = Some (cell_state s) ->
  error_handler w = Some "handle_error"%string ->
  length (earth_media w) = 3%nat ->
  sat (loop_body E state) w
    (fun r w' => exists ev mat,
       x_transport E (trace w) ctx (stepper w) s = inr (fst r, ev, snd r) /\
       material_shown E w (layer_index E w (fst r)) = inr mat /\
       w' = observed E (fst r) mat (stepped ctx state s (fst r) w))
    (fun rc w' => rc = EXIT_FAILURE /\
       ((exists message,
           x_transport E (trace w) ctx (stepper w) s = inl message /\
           w' = error_exit message (log (c_pumas_context_transport ctx s) w)) \/
        (exists s' ev media message mem,
           x_transport E (trace w) ctx (stepper w) s = inr (s', ev, media) /\
           material_shown E w (layer_index E w s') = inl message /\
           w' = error_exit message
                  (log_all (lookup_calls E s' (stepped ctx state s s' w))
                     (set_heap mem (stepped ctx state s s' w))))))
    (fun _ => False).
Proof.
  intros Hc Hs Hh Hlen. apply (loop_body_rule E ctx state w s); try assumption.
  - intros s' ev media mat Hr Hmat. exists ev, mat. auto.
  - intros message Hr. split; [reflexivity|]. left. eauto.
  - intros s' ev media message mem Hr Hmat. split; [reflexivity|]. right. eauto 10.
Qed.

(** X2.  A turn of the loop (lines 236-238), with a context, a valid state
    object, the handler of the program and the three media entries.  The
    engine is called once, with the configured context and the state the
    object holds.  When it reports an error the process ends in
    [handle_error] and nothing is observed.  Otherwise the state it answers
    is stored in the object, and it is this state that is observed next and
    that the exit test of line 240 is given, with the media the engine
    answered; the event the engine reports is not used.  The observation
    does not change the state object; it may end the process when PUMAS does
    not know the material. *)
Theorem loop_body_outcome ctx state w s :
  context w = Some ctx ->
  heap w !! state = Some (cell_state s) ->
  error_handler w = Some "handle_error"%string ->
  length (earth_media w) = 3%nat ->
  match x_transport E (trace w) ctx (stepper w) s with
  | inl message =>
      loop_body E state w
      = Exits EXIT_FAILURE (error_exit message (log (c_pumas_context_transport ctx s) w))
  | inr (s', ev, media) =>
      heap (stepped ctx state s s' w) = <[state := cell_state s']> (heap w) /\
      match material_shown E w (layer_index E w s') with
      | inr mat =>
          loop_body E state w
          = Returns (s', media) (observed E s' mat (stepped ctx state s s' w)) /\
          heap (observed E s' mat (stepped ctx state s s' w))
          = <[state := cell_state s']> (heap w)
      | inl message =>
          exists mem,
            loop_body E state w
            = Exits EXIT_FAILURE
                (error_exit message
                   (log_all (lookup_calls E s' (stepped ctx state s s' w))
                      (set_heap mem (stepped ctx state s s' w))))
      end
  end.
Proof.
  intros Hc Hs Hh Hlen.
  pose proof (loop_body_full ctx state w s Hc Hs Hh Hlen) as Hsat. unfold sat in Hsat.
  destruct (loop_body E state w) as [[s1 media1] w'|rc w'|w'|]; [| |contradiction..].
  - destruct Hsat as (ev & mat & Hr & Hmat & ->). cbn [fst snd] in Hr, Hmat.
    rewrite Hr. split; [reflexivity|]. rewrite Hmat. split; reflexivity.
  - destruct Hsat as [-> [(message & -> & ->)|(s' & ev & media & message & mem & -> & -> & ->)]].
    + reflexivity.
    + split; [reflexivity|]. eauto.
Qed.

Lemma setup_failure_unique argv n diag hp n' diag' hp' :
  setup_failure E argv n diag hp -> setup_failure E argv n' diag' hp' ->
  n = n' /\ diag = diag' /\ hp = hp'.
Proof.
  intros H H'. destruct H; destruct H'; try lia; try congruence;
    repeat split; congruence.
Qed.

(** X3.  The set-up of [main] (lines 145-183) fails in exactly seven ways:
    fewer than three arguments after the program name, no dump file, and an
    error of PUMAS when the physics is loaded, when one of the three
    materials is looked up, or when the context is created.  In each of
    them the process ends with the failure status, whatever the bound on the
    loop, after exactly the calls made up to the failing one, the diagnostic
    (the usage line, [perror], or the two lines of [handle_error]) and the
    releases; the stepper and the context given to their release are NULL,
    the physics is the loaded one when the load had succeeded and NULL
    before.  No call to TURTLE other than the release is made and no line is
    printed.  Conversely, a set-up that ends the process does so in one of
    these seven ways, a set-up that succeeds is in none of them, and the
    set-up does nothing else than succeed or end the process. *)
Theorem setup_fails_cleanly argv :
  (forall n diag hp,
     setup_failure E argv n diag hp ->
     exists w',
       main_setup E PUMAS_EVENT_MEDIUM argv initial_world = Exits EXIT_FAILURE w' /\
       (forall fuel,
          main E PUMAS_EVENT_MEDIUM fuel argv initial_world = Exits EXIT_FAILURE w') /\
       calls w' = take n (setup_calls argv) ++ diag
                  ++ release_calls None None hp EXIT_FAILURE /\
       (n <= 11)%nat /\
       print_state_step w' = 0) /\
  (forall rc w',
     main_setup E PUMAS_EVENT_MEDIUM argv initial_world = Exits rc w' ->
     rc = EXIT_FAILURE /\
     exists n diag hp,
       setup_failure E argv n diag hp /\
       calls w' = take n (setup_calls argv) ++ diag
                  ++ release_calls None None hp EXIT_FAILURE) /\
  (forall state w,
     main_setup E PUMAS_EVENT_MEDIUM argv initial_world = Returns state w ->
     forall n diag hp, ~ setup_failure E argv n diag hp) /\
  match main_setup E PUMAS_EVENT_MEDIUM argv initial_world with
  | Returns _ _ | Exits _ _ => True
  | Runs _ | Stuck => False
  end.
Proof.
  destruct (main_setup_outcome E PUMAS_EVENT_MEDIUM argv)
    as [(a0 & a1 & a2 & a3 & rest & p & c & rock & water & air & Hargv & Hf & Hp & H0 & H1 & H2
         & Hc & Heq)
       |(n' & diag' & hp' & w' & Heq & Hfail' & Htrace & Hstep & _)].
  - assert (forall n diag hp, ~ setup_failure E argv n diag hp) as Hnone.
    { intros n diag hp Hfail. rewrite Hargv in Hfail.
      inversion Hfail; subst; cbn [length] in *; try lia; congruence. }
    split; [intros n diag hp Hfail; destruct (Hnone _ _ _ Hfail)|].
    split; [intros rc w' Hexit; rewrite Heq in Hexit; discriminate|].
    split; [intros state w _; exact Hnone|]. rewrite Heq. exact I.
  - assert (calls w' = take n' (setup_calls argv) ++ diag'
                       ++ release_calls None None hp' EXIT_FAILURE) as Hcalls
      by (unfold calls; rewrite Htrace; apply reverse_involutive).
    split.
    { intros n diag hp Hfail.
      destruct (setup_failure_unique _ _ _ _ _ _ _ Hfail' Hfail) as (-> & -> & ->).
      exists w'. split; [exact Heq|]. split.
      { intros fuel. unfold main, mbind, M_bind. rewrite Heq. reflexivity. }
      split; [exact Hcalls|]. split; [inversion Hfail; lia|exact Hstep]. }
    split.
    { intros rc w0 Hexit. rewrite Heq in Hexit. injection Hexit as <- <-.
      split; [reflexivity|]. eauto. }
    split; [intros state w Hret; rewrite Heq in Hret; discriminate|].
    rewrite Heq. exact I.
Qed.

Lemma main_setup_arguments a0 a1 a2 a3 rest w :
  main_setup E PUMAS_EVENT_MEDIUM (a0 :: a1 :: a2 :: a3 :: rest) w
  = main_setup E PUMAS_EVENT_MEDIUM [""%string; a1; a2; a3] w.
Proof.
  unfold main_setup.
  assert ((Z.of_nat (length (a0 :: a1 :: a2 :: a3 :: rest)) <? 4) = false) as ->
    by (apply Z.ltb_ge; cbn [length]; lia).
  reflexivity.
Qed.

(** X4.  Of its arguments [main] uses the first three after the program
    name and nothing else (lines 145-155): with at least four entries in
    [argv], the program name and any entry after the third argument make no
    difference to the run, and no complaint is made about extra arguments. *)
Theorem surplus_arguments_ignored fuel a0 b0 a1 a2 a3 rest rest' :
  main E PUMAS_EVENT_MEDIUM fuel (a0 :: a1 :: a2 :: a3 :: rest) initial_world
  = main E PUMAS_EVENT_MEDIUM fuel (b0 :: a1 :: a2 :: a3 :: rest') initial_world.
Proof.
  unfold main, mbind, M_bind.
  rewrite (main_setup_arguments a0), (main_setup_arguments b0). reflexivity.
Qed.

(** X5.  When the set-up is over (line 230) the calls made are the nineteen
    of [setup_calls], in that order: the three arguments parsed, the handler
    registered before anything of PUMAS is called, the dump file opened, the
    physics loaded, the file closed, the three materials looked up, the
    context created, the stepper built, the position and the direction
    computed.  The only object in memory is the particle: charge -1, weight
    1, the kinetic energy parsed from the third argument, the position TURTLE
    gives on the three-layer stepper, the direction TURTLE gives for the
    azimuth parsed from the first argument and the elevation parsed from the
    second.  No line has been printed. *)
Theorem initial_particle argv state w :
  main_setup E PUMAS_EVENT_MEDIUM argv initial_world = Returns state w ->
  let arg k := default ""%string (argv !! k) in
  calls w = setup_calls argv /\
  heap w = {[ state :=
    cell_state (mkState (double_of_int (-1)) (x_strtod E (arg 3%nat)) one
                        (x_stepper_position E (Some earth_layers))
                        (x_ecef_from_horizontal E (x_strtod E (arg 1%nat))
                                                  (x_strtod E (arg 2%nat)))) ]} /\
  print_state_step w = 0 /\
  error_handler w = Some "handle_error"%string /\
  (4 <= length argv)%nat.
Proof.
  intros Hret arg.
  destruct (main_setup_outcome E PUMAS_EVENT_MEDIUM argv)
    as [(a0 & a1 & a2 & a3 & rest & p & c & rock & water & air & -> & _ & _ & _ & _ & _
         & _ & Heq)
       |(n & diag & hp & w' & Heq & _)]; rewrite Heq in Hret; [|discriminate].
  injection Hret as <- <-.
  split.
  { unfold calls. rewrite (setup_world_calls E PUMAS_EVENT_MEDIUM a0 _ _ _ rest).
    apply reverse_involutive. }
  split; [reflexivity|]. split; [reflexivity|]. split; [reflexivity|].
  cbn [length]. lia.
Qed.

Lemma filter_nil_Forall {A} (f : A -> bool) (l : list A) :
  Forall (fun a => f a = false) l -> List.filter f l = [].
Proof.
  induction 1 as [|a l Ha _ IH]; [reflexivity|]. cbn. rewrite Ha. exact IH.
Qed.

Lemma setup_calls_quiet argv :
  Forall (fun c => is_diagnostic c = false) (setup_calls argv) /\
  Forall (fun c => mark_of c = []) (setup_calls argv).
Proof. split; repeat constructor. Qed.

Lemma turn_call_quiet stp turns :
  Forall (turn_call stp) turns -> Forall (fun c => is_diagnostic c = false) turns.
Proof.
  intros H. eapply Forall_impl; [exact H|].
  intros []; cbn; intros Hc; (reflexivity || contradiction).
Qed.

Lemma marks_nil_Forall (l : list call) : Forall (fun c => mark_of c = []) l -> marks l = [].
Proof.
  induction 1 as [|a l Ha _ IH]; [reflexivity|].
  change (marks (a :: l)) with (mark_of a ++ marks l). rewrite Ha, IH. reflexivity.
Qed.

Lemma setup_failure_diag argv n diag hp :
  setup_failure E argv n diag hp ->
  (diag = [c_fprintf_stderr (usage argv)] \/ diag = [c_perror "materials/dump"] \/
   exists message, diag = error_lines message).
Proof. destruct 1; eauto. Qed.

(** X6.  The exit status and [stderr].  A run of [main] that ends with
    [EXIT_SUCCESS] has written nothing to [stderr].  A run that ends with
    [EXIT_FAILURE] has written one diagnostic, right before the releases and
    nothing on [stderr] before it: the usage line, or [perror] for the dump
    file, or the two lines of [handle_error].  There is no other status, and
    while the loop runs nothing is on [stderr]. *)
Theorem exit_status_and_diagnostics fuel argv :
  match main E PUMAS_EVENT_MEDIUM fuel argv initial_world with
  | Exits rc w' =>
      (rc = EXIT_SUCCESS /\ List.filter is_diagnostic (calls w') = []) \/
      (rc = EXIT_FAILURE /\
       exists pre diag hs hc hp,
         calls w' = pre ++ diag ++ release_calls hs hc hp EXIT_FAILURE /\
         List.filter is_diagnostic pre = [] /\
         (diag = [c_fprintf_stderr (usage argv)] \/ diag = [c_perror "materials/dump"] \/
          exists message, diag = error_lines message))
  | Runs w' => List.filter is_diagnostic (calls w') = []
  | Returns _ _ | Stuck => False
  end.
Proof.
  pose proof (main_log E PUMAS_EVENT_MEDIUM fuel argv) as Hsat. unfold sat in Hsat.
  destruct (main E PUMAS_EVENT_MEDIUM fuel argv initial_world) as [a w'|rc w'|w'|];
    [exact Hsat| | |exact Hsat].
  - destruct Hsat as [(-> & _ & _ & n & diag & hp & Hfail & Hcalls)
                     |(p & c & turns & k & _ & _ & _ & Hturns & Hend)].
    + right. split; [reflexivity|].
      exists (take n (setup_calls argv)), diag, None, None, hp.
      split; [exact Hcalls|]. split; [|apply (setup_failure_diag _ _ _ _ Hfail)].
      apply filter_nil_Forall, Forall_take, setup_calls_quiet.
    + apply turn_call_quiet in Hturns.
      destruct Hend as [(-> & _ & Hcalls)|(-> & _ & message & Hcalls)].
      * left. split; [reflexivity|]. rewrite Hcalls, !List.filter_app.
        rewrite (filter_nil_Forall _ _ (proj1 (setup_calls_quiet argv))).
        rewrite (filter_nil_Forall _ _ Hturns). reflexivity.
      * right. split; [reflexivity|].
        exists (setup_calls argv ++ turns), (error_lines message), (Some earth_layers),
               (Some (configured_context PUMAS_EVENT_MEDIUM c)), (Some p).
        split; [rewrite Hcalls, <- !app_assoc; reflexivity|].
        split; [|eauto]. rewrite List.filter_app.
        rewrite (filter_nil_Forall _ _ (proj1 (setup_calls_quiet argv))).
        rewrite (filter_nil_Forall _ _ Hturns). reflexivity.
  - destruct Hsat as (p & c & turns & k & _ & _ & _ & _ & _ & _ & _ & _ & _ & Hcalls
                      & Hturns & _).
    apply turn_call_quiet in Hturns. rewrite Hcalls, List.filter_app.
    rewrite (filter_nil_Forall _ _ (proj1 (setup_calls_quiet argv))).
    rewrite (filter_nil_Forall _ _ Hturns). reflexivity.
Qed.

Lemma marks_setup_failure argv n diag hp rc :
  setup_failure E argv n diag hp ->
  marks (take n (setup_calls argv) ++ diag ++ release_calls None None hp rc) = [].
Proof.
  intros Hfail. rewrite !marks_app.
  rewrite (marks_nil_Forall (take n (setup_calls argv)))
    by apply Forall_take, setup_calls_quiet.
  destruct (setup_failure_diag _ _ _ _ Hfail) as [->|[->|[message ->]]]; reflexivity.
Qed.

Lemma alternation_in_range k :
  Z.of_nat k < 2147483647 ->
  Forall (fun m => match m with Line n => 0 <= n < 2147483647 | Step => True end)
         (alternation k).
Proof.
  induction k as [|k IH]; intros Hk; [repeat constructor; lia|].
  rewrite alternation_S. apply Forall_app_2; [apply IH; lia|].
  repeat constructor; lia.
Qed.

Lemma marks_after_setup argv (l : list call) :
  marks (setup_calls argv ++ l) = marks l.
Proof.
  rewrite marks_app, (marks_nil_Forall _ (proj2 (setup_calls_quiet argv))). reflexivity.
Qed.

(** X7.  Observations and propagation steps alternate, and the lines are
    numbered from 0 in steps of one (the static counter of [print_state],
    lines 121 and 138; the loop, lines 232-241).  In every run of [main] of
    at most [fuel] turns, with [fuel] below [INT_MAX] so that the counter,
    an [int], does not overflow, the steps and the lines come in the order
    line 0, step, line 1, step, line 2 and so on: one observation before the
    first step, and one after each step; every number printed is below
    [INT_MAX].  A run that ends with [EXIT_SUCCESS] has made at least one
    step, whatever the particle, and ends on a line.  A run that ends with
    [EXIT_FAILURE] has printed nothing and made no step, or it ends in the
    turn of a step whose line was not printed.  A run cut by the bound has
    made exactly [fuel] steps. *)
Theorem observations_alternate_with_steps fuel argv :
  Z.of_nat fuel < 2147483647 ->
  match main E PUMAS_EVENT_MEDIUM fuel argv initial_world with
  | Exits rc w' =>
      Forall (fun m => match m with Line n => 0 <= n < 2147483647 | Step => True end)
             (marks (calls w')) /\
      ((rc = EXIT_SUCCESS /\
        exists k, (k < fuel)%nat /\ marks (calls w') = alternation (S k)) \/
       (rc = EXIT_FAILURE /\
        (marks (calls w') = [] \/
         exists k, (k < fuel)%nat /\ marks (calls w') = alternation k ++ [Step])))
  | Runs w' =>
      Forall (fun m => match m with Line n => 0 <= n < 2147483647 | Step => True end)
             (marks (calls w')) /\
      marks (calls w') = alternation fuel
  | Returns _ _ | Stuck => False
  end.
Proof.
  intros Hfuel.
  pose proof (main_counted E PUMAS_EVENT_MEDIUM fuel argv) as Hsat. unfold sat in Hsat.
  destruct (main E PUMAS_EVENT_MEDIUM fuel argv initial_world) as [a w'|rc w'|w'|];
    [exact Hsat| | |exact Hsat].
  - destruct Hsat as [(-> & _ & _ & _ & _ & _ & n & diag & hp & Hfail & Hcalls)
                     |[Hfail|[(k & Hk & Hfail)|(k & Hk & Hend)]]].
    + rewrite Hcalls, (marks_setup_failure _ _ _ _ _ Hfail).
      split; [constructor|]. right. auto.
    + destruct Hfail as (-> & _ & _ & _ & p & c & turns & message & _ & _ & _ & _ & Hmarks
                         & ->).
      rewrite marks_after_setup, !marks_app, Hmarks.
      split; [constructor|]. right. auto.
    + destruct Hfail as (-> & _ & _ & _ & p & c & turns & message & _ & _ & _ & _ & Hmarks
                         & ->).
      rewrite marks_after_setup, !marks_app, Hmarks. cbn [marks flat_map app].
      rewrite app_nil_r.
      split; [apply Forall_app_2; [apply alternation_in_range; lia|repeat constructor]|].
      right. split; [reflexivity|]. right. eauto.
    + destruct Hend as (-> & _ & _ & _ & p & c & turns & _ & _ & _ & _ & Hmarks & ->).
      rewrite marks_after_setup, !marks_app, Hmarks. cbn [marks flat_map app].
      rewrite app_nil_r.
      split; [apply alternation_in_range; lia|]. left. eauto.
  - destruct Hsat as [(p & c & turns & _ & _ & _ & _ & _ & _ & _ & _ & Hcalls & _ & Hmarks & _)
                      _].
    rewrite Hcalls, marks_after_setup, Hmarks.
    split; [apply alternation_in_range; exact Hfuel|reflexivity].
Qed.

(** X10.  The test of line 240, on the numbers.  After a turn whose step
    answered the state [s] and the media [media], the loop ends when the
    energy of [s] is a zero, +0 or -0, or when the medium after the step is
    NULL, and goes round again in every other case: an energy that is a NaN,
    an infinity or any number other than zero, however small and of either
    sign, does not end the loop.  The medium before the step plays no part. *)
Theorem loop_ends_on_a_zero_of_either_sign fuel state w s media w1 :
  loop_body E state w = Returns (s, media) w1 ->
  transport_loop E (S fuel) state w
  = match energy s, snd media with
    | S754_zero _, _ | _, NULL_medium => Returns tt w1
    | _, earth_media_plus _ => transport_loop E fuel state w1
    end.
Proof.
  intros Hbody. rewrite (transport_loop_turn E fuel state w _ w1 Hbody).
  cbn [fst snd]. unfold loop_break.
  destruct (energy s) as [sg|sg| |sg m e], (snd media); try reflexivity;
    destruct sg; reflexivity.
Qed.

Lemma transport_loop_runs (I : world -> Prop) fuel state w :
  (forall w, I w ->
     sat (loop_body E state) w
         (fun r w' => loop_break (fst r) (snd r) = false /\ I w')
         (fun _ _ => False) (fun _ => False)) ->
  I w ->
  sat (transport_loop E fuel state) w (fun _ _ => False) (fun _ _ => False) (fun _ => True).
Proof.
  intros Hbody. revert w. induction fuel as [|fuel IH]; intros w HI; [exact Logic.I|].
  cbn [transport_loop]. apply sat_bind.
  eapply sat_mono; [apply Hbody, HI| |auto|auto].
  intros r w1 [Hbreak HI1]. cbv beta. rewrite Hbreak. apply IH, HI1.
Qed.

Lemma material_shown_known w i :
  (forall id, exists name, x_material_name E id = inr name) ->
  exists mat, material_shown E w i = inr mat.
Proof.
  intros Hnames. unfold material_shown.
  destruct (resolved_material w i) as [id|]; [apply Hnames|eauto].
Qed.

(** X11.  The loop has no bound of its own (lines 233-241): it ends only
    on what the engine answers.  When the set-up succeeds, PUMAS knows the
    name of every material, and the engine never fails and always answers a
    state with a non-zero energy and a medium after the step that is not
    NULL, the program never ends: whatever the number of turns allowed, the
    loop is still running after them. *)
Theorem loop_has_no_bound_of_its_own fuel argv state w0 :
  main_setup E PUMAS_EVENT_MEDIUM argv initial_world = Returns state w0 ->
  (forall hist ctx stp s,
     exists s' ev m0 i,
       x_transport E hist ctx stp s = inr (s', ev, (m0, earth_media_plus i)) /\
       double_eqb (energy s') zero = false) ->
  (forall id, exists name, x_material_name E id = inr name) ->
  exists w', main E PUMAS_EVENT_MEDIUM fuel argv initial_world = Runs w'.
Proof.
  intros Hsetup Hengine Hnames.
  assert (sat (main E PUMAS_EVENT_MEDIUM fuel argv) initial_world
              (fun _ _ => False) (fun _ _ => False) (fun _ => True)) as Hsat.
  { unfold main. apply sat_bind. unfold sat at 1.
    destruct (main_setup_outcome E PUMAS_EVENT_MEDIUM argv)
      as [(a0 & a1 & a2 & a3 & rest & p & c & rock & water & air & -> & _ & Hp & H0 & H1 & H2
           & Hc & Heq)
         |(n & diag & hp & w' & Heq & _)]; rewrite Heq in Hsetup; [|discriminate].
    rewrite Heq. apply sat_bind.
    set (w1 := setup_world E PUMAS_EVENT_MEDIUM a1 a2 a3 p c rock water air).
    assert (sat (print_state E 1%positive) w1
                (fun _ _ => True) (fun _ _ => False) (fun _ => False)) as Hfirst.
    { apply (print_state_rule E 1%positive w1 (initial_state E a1 a2 a3));
        try reflexivity; try (intros; exact Logic.I).
      intros message mem Hshown.
      destruct (material_shown_known w1 (layer_index E w1 (initial_state E a1 a2 a3)) Hnames)
        as [mat Hmat].
      congruence. }
    eapply sat_mono;
      [apply (sat_conj _ _ _ _ _ _ _ _
                (first_observation_log E PUMAS_EVENT_MEDIUM a0 a1 a2 a3 rest p c rock water air
                   Hp H0 H1 H2 Hc) Hfirst)
      | |intros rc w' [_ []]|intros w' [[] _]].
    intros [] w2 [Hrun _]. cbv beta.
    apply sat_bind.
    eapply sat_mono;
      [apply (transport_loop_runs
                (running E PUMAS_EVENT_MEDIUM (a0 :: a1 :: a2 :: a3 :: rest) 0)
                fuel 1%positive w2); [|exact Hrun]
      |intros ? ? []|auto|auto].
    clear w2 Hrun. intros w Hrun.
    pose proof Hrun as (p' & c' & turns & k & _ & _ & _ & _ & Hctx & _ & Hh & Htable & Hst & _).
    assert (length (earth_media w) = 3%nat) as Hlen
      by (destruct Htable as (r1 & r2 & r3 & _ & _ & _ & ->); reflexivity).
    apply is_state_object_spec in Hst as [s Hs].
    assert (sat (loop_body E 1%positive) w
                (fun r _ => loop_break (fst r) (snd r) = false)
                (fun _ _ => False) (fun _ => False)) as Hturn.
    { apply (loop_body_rule E _ 1%positive w s _ _ _ Hctx Hs Hh Hlen).
      - intros s' ev media mat Hr _.
        destruct (Hengine (trace w) (configured_context PUMAS_EVENT_MEDIUM c') (stepper w) s)
          as (s1 & ev1 & m0 & i & Hr1 & Henergy).
        rewrite Hr1 in Hr. injection Hr as <- <- <-.
        unfold loop_break. cbn [fst snd]. rewrite Henergy. reflexivity.
      - intros message Hr.
        destruct (Hengine (trace w) (configured_context PUMAS_EVENT_MEDIUM c') (stepper w) s)
          as (s1 & ev1 & m0 & i & Hr1 & _).
        congruence.
      - intros s' ev media message mem _ Hshown.
        destruct (material_shown_known w (layer_index E w s') Hnames) as [mat Hmat].
        congruence. }
    eapply sat_mono;
      [apply (sat_conj _ _ _ _ _ _ _ _
                (loop_body_log E PUMAS_EVENT_MEDIUM _ w Hrun) Hturn)
      | |intros rc w' [_ []]|intros w' [[] _]].
    intros r w' [Hrun' Hbreak]. split; [exact Hbreak|].
    apply (running_weaken _ _ _ _ _ Hrun'). }
  unfold sat in Hsat.
  destruct (main E PUMAS_EVENT_MEDIUM fuel argv initial_world) as [a w'|rc w'|w'|];
    try contradiction. eauto.
Qed.

Lemma resolved_table_locals table :
  resolved_table E table ->
  length table = 3%nat /\ Forall (fun m => locals m = None) table.
Proof.
  intros (rock & water & air & _ & _ & _ & ->). split; [reflexivity|repeat constructor].
Qed.

(** X12.  The media table (lines 72-73 and 176-180).  The program never
    installs a locals callback: in every run the table has its three entries
    and the [locals] of each is NULL, also when the set-up fails half way.
    Once the set-up is over the materials of the entries are the indices
    PUMAS gave for StandardRock, Water and Air, in this order, and nothing
    changes them: not the observations, not the turns of the loop, not the
    exit. *)
Theorem media_table_is_fixed fuel argv :
  match main E PUMAS_EVENT_MEDIUM fuel argv initial_world with
  | Exits rc w' =>
      length (earth_media w') = 3%nat /\
      Forall (fun m => locals m = None) (earth_media w') /\
      ((exists n diag hp, setup_failure E argv n diag hp) \/
       resolved_table E (earth_media w'))
  | Runs w' => resolved_table E (earth_media w')
  | Returns _ _ | Stuck => False
  end.
Proof.
  pose proof (main_log E PUMAS_EVENT_MEDIUM fuel argv) as Hsat. unfold sat in Hsat.
  destruct (main E PUMAS_EVENT_MEDIUM fuel argv initial_world) as [a w'|rc w'|w'|];
    [exact Hsat| | |exact Hsat].
  - destruct Hsat as [(_ & Hlen & Hlocals & n & diag & hp & Hfail & _)
                     |(p & c & turns & k & _ & _ & Htable & _)].
    + split; [exact Hlen|]. split; [exact Hlocals|]. left. eauto.
    + destruct (resolved_table_locals _ Htable) as [Hlen Hlocals]. auto.
  - destruct Hsat as (p & c & turns & k & _ & _ & _ & _ & _ & _ & _ & Htable & _).
    exact Htable.
Qed.

(** X13.  The step length (lines 94-97).  Through a non-NULL step pointer
    the callback stores the tentative step length the stepper answers for
    the position of the state, whatever the layer, the void included, and
    whether or not a medium pointer is given.  Apart from the objects the two
    output pointers designate, the memory is as before the call. *)
Theorem earth_medium_reports_step ctx state mp p w s :
  heap w !! state = Some (cell_state s) ->
  is_medium_object w mp = true ->
  is_double_object w (Some p) = true ->
  exists w',
    earth_medium E ctx state mp (Some p) w = Returns PUMAS_STEP_APPROXIMATE w' /\
    heap w' !! p
    = Some (cell_double (Some (fst (x_stepper_step E (stepper w) (position s))))) /\
    (forall l, mp <> Some l -> l <> p -> heap w' !! l = heap w !! l).
Proof.
  intros Hs Hm Hd. eexists. split; [apply earth_medium_returns; eassumption|].
  split.
  - apply earth_medium_world_step. intros ->.
    apply (typed_objects_differ w p p); assumption || reflexivity.
  - intros l Hl Hp. apply earth_medium_world_heap_other; congruence.
Qed.

End More.

(** X14.  The two ends of the random source (lines 113-116).  Whatever
    positive [int] [RAND_MAX] is, the source returns exactly 0 when [rand]
    answers 0, and for every other answer up to [RAND_MAX] a positive finite
    number: never a NaN, an infinity or a negative number.  The context it is
    given plays no part, and nothing but the call of [rand] is added to the
    log. *)
Theorem uniform01_is_zero_only_for_zero (E : extern) (RAND_MAX : Z) ctx w :
  0 < RAND_MAX <= 2147483647 ->
  0 <= x_rand E (trace w) <= RAND_MAX ->
  exists u,
    uniform01 E RAND_MAX ctx w = Returns u (log c_rand w) /\
    (x_rand E (trace w) = 0 -> u = zero) /\
    (0 < x_rand E (trace w) ->
     double_ltb zero u = true /\ exists m e, u = S754_finite false m e).
Proof.
  intros HN Hr. eexists. split; [reflexivity|]. unfold uniform01_of.
  destruct RAND_MAX as [|N|N]; try lia.
  pose proof (digits2_pos_int N ltac:(lia)) as HdN.
  destruct (x_rand E (trace w)) as [|n|n]; try lia.
  - split; [|lia]. intros _. rewrite (double_of_int_pos N HdN). reflexivity.
  - split; [discriminate|]. intros _.
    destruct (double_div_int_le n N ltac:(lia) HdN) as (m & e & -> & _).
    split; [reflexivity|eauto].
Qed.

(** ** The end of the loop and the end of the process *)

Section Ends.

Variable E : extern.
Variable PUMAS_EVENT_MEDIUM : Z.

(** The loop only adds to the log, and a loop that returns has added to it. *)
Lemma transport_loop_grows ctx fuel state w s :
  context w = Some ctx ->
  heap w !! state = Some (cell_state s) ->
  error_handler w = Some "handle_error"%string ->
  length (earth_media w) = 3%nat ->
  sat (transport_loop E fuel state) w
    (fun _ w' => exists l, calls w' = calls w ++ l /\ l <> [])
    (fun _ w' => exists l, calls w' = calls w ++ l)
    (fun w' => exists l, calls w' = calls w ++ l).
Proof.
  intros Hc Hs Hh Hl.
  pose (ready := fun w' : world =>
          context w' = Some ctx /\ (exists s0, heap w' !! state = Some (cell_state s0)) /\
          error_handler w' = Some "handle_error"%string /\ length (earth_media w') = 3%nat).
  apply (sat_mono _ _
           (fun _ w' => ready w' /\ exists l, calls w' = calls w ++ l /\ l <> [])
           _ (fun _ w' => exists l, calls w' = calls w ++ l) _
           (fun w' => ready w' /\ exists l, calls w' = calls w ++ l)).
  - apply (transport_loop_rule E
             (fun w' => ready w' /\ exists l, calls w' = calls w ++ l)
             (fun w' => ready w' /\ exists l, calls w' = calls w ++ l /\ l <> [])).
    + intros w0 [(Hc0 & [s0 Hs0] & Hh0 & Hl0) [l Hcalls]].
      apply (loop_body_rule E _ _ _ s0 _ _ _ Hc0 Hs0 Hh0 Hl0).
      * intros s' ev media mat _ _. split.
        { split; [exact Hc0|]. split; [|split; assumption].
          exists s'. unfold observed, stepped. cbn. apply lookup_insert_eq. }
        eexists. rewrite calls_observed, calls_stepped, Hcalls, <- !app_assoc.
        split; [reflexivity|]. intros Hnil. apply app_eq_nil in Hnil as [_ Hnil].
        discriminate Hnil.
      * intros message _. eexists.
        rewrite calls_error_exit, calls_log, Hcalls, <- !app_assoc. reflexivity.
      * intros s' ev media message mem _ _. eexists.
        rewrite calls_error_exit, calls_log_all.
        change (calls (set_heap mem ?w1)) with (calls w1).
        rewrite calls_stepped, Hcalls, <- !app_assoc. reflexivity.
    + intros w0 [Hready (l & Hcalls & _)]. split; eauto.
    + split; [repeat split; eauto|]. exists []. rewrite app_nil_r. reflexivity.
  - intros _ w' [_ H]. exact H.
  - intros rc w' H. exact H.
  - intros w' [_ H]. exact H.
Qed.

(** A loop that has a turn left starts with a call of the engine, on the
    state that the state object holds. *)
Lemma transport_loop_first_call ctx fuel state w s :
  context w = Some ctx ->
  heap w !! state = Some (cell_state s) ->
  error_handler w = Some "handle_error"%string ->
  length (earth_media w) = 3%nat ->
  match transport_loop E (S fuel) state w with
  | Returns _ w' | Exits _ w' | Runs w' =>
      exists rest, calls w' = calls w ++ c_pumas_context_transport ctx s :: rest
  | Stuck => False
  end.
Proof.
  intros Hc Hs Hh Hl.
  pose (P := fun w' : world =>
          exists rest, calls w' = calls w ++ c_pumas_context_transport ctx s :: rest).
  assert (sat (transport_loop E (S fuel) state) w (fun _ => P) (fun _ => P) P) as Hsat.
  { cbn [transport_loop]. apply sat_bind.
    apply (loop_body_rule E _ _ _ s _ _ _ Hc Hs Hh Hl).
    - intros s' ev media mat _ _. cbn [fst snd].
      set (w1 := observed E s' mat (stepped ctx state s s' w)).
      assert (calls w1 = calls w ++ c_pumas_context_transport ctx s
                         :: observation_calls E s' mat (stepped ctx state s s' w)) as Hw1
        by (unfold w1; rewrite calls_observed, calls_stepped, <- app_assoc; reflexivity).
      destruct (loop_break s' media).
      + apply sat_ret. eexists. exact Hw1.
      + assert (heap w1 !! state = Some (cell_state s')) as Hs1
          by (unfold w1, observed, stepped; cbn; apply lookup_insert_eq).
        apply (sat_mono _ _ _ _ _ _ _ _
                 (transport_loop_grows ctx fuel state w1 s' Hc Hs1 Hh Hl)).
        * intros _ w' (l & Hcalls & _). eexists.
          rewrite Hcalls, Hw1, <- app_assoc. reflexivity.
        * intros rc w' (l & Hcalls). eexists.
          rewrite Hcalls, Hw1, <- app_assoc. reflexivity.
        * intros w' (l & Hcalls). eexists.
          rewrite Hcalls, Hw1, <- app_assoc. reflexivity.
    - intros message _. eexists. rewrite calls_error_exit, calls_log, <- app_assoc.
      reflexivity.
    - intros s' ev media message mem _ _. eexists.
      rewrite calls_error_exit, calls_log_all.
      change (calls (set_heap mem ?w1)) with (calls w1).
      rewrite calls_stepped, <- !app_assoc. reflexivity. }
  unfold sat in Hsat. destruct (transport_loop E (S fuel) state w); exact Hsat.
Qed.

(** C2.  The exit test of the loop (lines 233-241), over the answer of the
    engine.  A turn starts with a context, a valid state object holding [s],
    the handler of the program and the three media entries.  The engine is
    given [s].  When it reports an error, or when PUMAS does not know the
    material of the state it answered, the process ends in [handle_error]
    with the failure status.  Otherwise let [s'] be the state and [media] the
    pair of media the engine answered.  The turn adds to the log the call of
    the engine on [s] and, last, the line of [s']; between them there is no
    other step and no other line; the state object then holds [s'].  The
    loop returns after this turn, with nothing more in the log, exactly when
    the energy of [s'] compares equal to zero or the second medium of the
    pair is NULL.  In every other case the loop goes on as the loop started
    after the turn: whenever the bound leaves a turn, the next call of the
    engine follows, and it is given [s']. *)
Theorem loop_ends_on_zero_energy_or_void ctx fuel state w s :
  context w = Some ctx ->
  heap w !! state = Some (cell_state s) ->
  error_handler w = Some "handle_error"%string ->
  length (earth_media w) = 3%nat ->
  match x_transport E (trace w) ctx (stepper w) s with
  | inl _ => exists w', transport_loop E (S fuel) state w = Exits EXIT_FAILURE w'
  | inr (s', ev, media) =>
      match material_shown E w (layer_index E w s') with
      | inl _ => exists w', transport_loop E (S fuel) state w = Exits EXIT_FAILURE w'
      | inr mat =>
          exists w1 evs,
            loop_body E state w = Returns (s', media) w1 /\
            calls w1 = calls w ++ c_pumas_context_transport ctx s :: evs
                       ++ [c_printf_state (print_state_step w) (energy s')
                                          (x_ecef_to_geodetic E (position s')) mat] /\
            Forall (fun c => is_transport c = false /\ is_line c = false) evs /\
            heap w1 !! state = Some (cell_state s') /\
            (transport_loop E (S fuel) state w = Returns tt w1 <->
             double_eqb (energy s') zero = true \/ snd media = NULL_medium) /\
            (double_eqb (energy s') zero = false -> snd media <> NULL_medium ->
             transport_loop E (S fuel) state w = transport_loop E fuel state w1 /\
             forall more,
               match transport_loop E (S more) state w1 with
               | Returns _ w' | Exits _ w' | Runs w' =>
                   exists rest,
                     calls w' = calls w1 ++ c_pumas_context_transport ctx s' :: rest
               | Stuck => False
               end)
      end
  end.
Proof.
  intros Hc Hs Hh Hl.
  pose proof (loop_body_outcome E ctx state w s Hc Hs Hh Hl) as Hbody.
  destruct (x_transport E (trace w) ctx (stepper w) s) as [message|[[s' ev] media]].
  { eexists. cbn [transport_loop]. unfold mbind, M_bind. rewrite Hbody. reflexivity. }
  destruct Hbody as [_ Hbody].
  destruct (material_shown E w (layer_index E w s')) as [message|mat].
  { destruct Hbody as [mem Hbody]. eexists. cbn [transport_loop].
    unfold mbind, M_bind. rewrite Hbody. reflexivity. }
  destruct Hbody as [Hbody _].
  set (w0 := stepped ctx state s s' w) in *.
  set (w1 := observed E s' mat w0) in *.
  pose proof (transport_loop_turn E fuel state w _ w1 Hbody) as Hturn. cbn [fst snd] in Hturn.
  assert (heap w1 !! state = Some (cell_state s')) as Hs1
    by (unfold w1, w0, observed, stepped; cbn; apply lookup_insert_eq).
  pose proof (loop_break_spec s' media) as Hspec.
  exists w1, (c_turtle_stepper_step (stepper w0) (position s')
              :: material_lookup w0 (layer_index E w0 s')
              ++ [c_turtle_ecef_to_geodetic (position s')]).
  split; [exact Hbody|]. split.
  { unfold w1. rewrite calls_observed. unfold w0 at 1. rewrite calls_stepped.
    unfold observation_calls. rewrite <- !app_assoc. cbn [app].
    do 3 f_equal. rewrite <- app_assoc. reflexivity. }
  split.
  { apply Forall_cons_2; [split; reflexivity|]. apply Forall_app_2; [|repeat constructor].
    unfold material_lookup. destruct (resolved_material w0 (layer_index E w0 s'));
      repeat constructor. }
  split; [exact Hs1|].
  destruct (loop_break s' media) eqn:Hbreak.
  - split.
    + split; [intros _; apply Hspec; reflexivity|intros _; exact Hturn].
    + intros Hen Hmed. destruct (proj1 Hspec eq_refl) as [Hen'|Hmed'];
        [rewrite Hen in Hen'; discriminate|contradiction].
  - split.
    + split; [|intros Htest; apply Hspec in Htest; discriminate].
      intros Hret. rewrite Hturn in Hret.
      pose proof (transport_loop_grows ctx fuel state w1 s' Hc Hs1 Hh Hl) as Hsat.
      unfold sat in Hsat. rewrite Hret in Hsat. destruct Hsat as (l & Hcalls & Hl').
      rewrite <- (app_nil_r (calls w1)) in Hcalls at 1.
      apply app_inv_head in Hcalls. congruence.
    + intros _ _. split; [exact Hturn|].
      intros more. apply (transport_loop_first_call ctx more state w1 s' Hc Hs1 Hh Hl).
Qed.

(** C8.  The ways the program ends, and what it releases (lines 48-54, 57-66
    and 142-245).  A run of [main] never returns to its caller.  When it
    ends, the three handles are NULL and the log is one of these.  Either
    the set-up failed in one of its seven ways (too few arguments, no dump
    file, an error of PUMAS at the load, at one of the three materials or at
    the creation of the context): the log is the calls made up to the
    failing one, the diagnostic, and then the release of the stepper, of the
    context and of the physics and [exit], in this order, where the stepper
    and the context are NULL and the physics is the loaded one when the load
    had succeeded.  Or the set-up succeeded: the log is the nineteen calls of
    the set-up, which acquire the physics, then the context, then the
    stepper; calls of the turns of the loop, none of which is a release;
    after an error of PUMAS the two lines of [handle_error]; and then the
    release of the stepper of the set-up, of the configured context and of
    the loaded physics and [exit] with the status, in this order.  A run does
    not end only when the bound cuts it: it has then made as many steps as
    the bound has turns, the engine has answered to each of them a state and
    media that let the loop go on, and the three handles are still held. *)
Theorem every_exit_releases_in_reverse fuel argv :
  match main E PUMAS_EVENT_MEDIUM fuel argv initial_world with
  | Exits rc w' =>
      stepper w' = None /\ context w' = None /\ physics w' = None /\
      ((rc = EXIT_FAILURE /\
        exists n diag hp,
          setup_failure E argv n diag hp /\
          calls w' = take n (setup_calls argv) ++ diag
                     ++ release_calls None None hp EXIT_FAILURE) \/
       (exists p c turns ending,
          x_physics_load E = inr p /\ x_context_create E = inr c /\
          Forall (turn_call (Some earth_layers)) turns /\
          calls w' = setup_calls argv ++ turns ++ ending
                     ++ release_calls (Some earth_layers)
                          (Some (configured_context PUMAS_EVENT_MEDIUM c)) (Some p) rc /\
          (rc = EXIT_SUCCESS /\ ending = [] \/
           rc = EXIT_FAILURE /\ exists message, ending = error_lines message)))
  | Runs w' =>
      exists p c turns,
        x_physics_load E = inr p /\ x_context_create E = inr c /\
        calls w' = setup_calls argv ++ turns /\
        Forall (turn_call (Some earth_layers)) turns /\
        length (List.filter is_transport turns) = fuel /\
        every_step_goes_on E (Some earth_layers) (trace w') /\
        stepper w' = Some earth_layers /\
        context w' = Some (configured_context PUMAS_EVENT_MEDIUM c) /\
        physics w' = Some p
  | Returns _ _ | Stuck => False
  end.
Proof.
  pose proof (main_counted E PUMAS_EVENT_MEDIUM fuel argv) as Hsat. unfold sat in Hsat.
  destruct (main E PUMAS_EVENT_MEDIUM fuel argv initial_world) as [a w'|rc w'|w'|];
    [exact Hsat| | |exact Hsat].
  - destruct Hsat as [(-> & Hs & Hc & Hp & _ & _ & n & diag & hp & Hfail & Hcalls)
                     |[Hfail|[(k & Hk & Hfail)|(k & Hk & Hend)]]].
    + do 3 (split; [assumption|]). left. split; [reflexivity|]. eauto.
    + destruct Hfail as (-> & Hs & Hc & Hp & p & c & turns & message & Hload & Hcreate & _
                         & Hturns & _ & Hcalls).
      do 3 (split; [assumption|]). right.
      exists p, c, turns, (error_lines message). eauto 10.
    + destruct Hfail as (-> & Hs & Hc & Hp & p & c & turns & message & Hload & Hcreate & _
                         & Hturns & _ & Hcalls).
      do 3 (split; [assumption|]). right.
      exists p, c, turns, (error_lines message). eauto 10.
    + destruct Hend as (-> & Hs & Hc & Hp & p & c & turns & Hload & Hcreate & _ & Hturns & _
                        & Hcalls).
      do 3 (split; [assumption|]). right.
      exists p, c, turns, []. eauto 10.
  - destruct Hsat as [(p & c & turns & Hload & Hcreate & Hp & Hc & Hs & _ & _ & _ & Hcalls
                       & Hturns & Hmarks & _) Hgo].
    exists p, c, turns. do 4 (split; [assumption|]).
    split; [rewrite count_steps, Hmarks; apply count_steps_alternation|].
    auto.
Qed.

End Ends.

(** ** From the line to the next step *)

Section Chain.

Variable E : extern.
Variable PUMAS_EVENT_MEDIUM : Z.












End Chain.

(** ** The further theorems at concrete inputs *)

Lemma print_state_observes_witness :
  print_state flat_extern 1%positive flat_setup_world
  = Returns tt (observed flat_extern rock_start "StandardRock" flat_setup_world).
Proof.
  destruct (print_state_observes flat_extern 1%positive flat_setup_world rock_start
              eq_refl eq_refl eq_refl ltac:(vm_compute; split; [discriminate|reflexivity]))
    as (_ & Hin & _).
  specialize (Hin ltac:(vm_compute; split; [discriminate|reflexivity])).
  destruct Hin as (md & Hmd & _ & Hout).
  vm_compute in Hmd. injection Hmd as <-. exact Hout.
Defined.

Lemma loop_body_outcome_witness :
  exists s' media,
    loop_body flat_extern 1%positive flat_setup_world
    = Returns (s', media)
        (observed flat_extern s' "Water"
           (stepped (configured_context 16 (mkContext None None 0)) 1%positive
                    rock_start s' flat_setup_world)) /\
    position s' = mkVec3 zero zero (double_of_int (-500)) /\
    media = (earth_media_plus 0, earth_media_plus 1).
Proof.
  pose proof (loop_body_outcome flat_extern (configured_context 16 (mkContext None None 0))
                1%positive flat_setup_world rock_start eq_refl eq_refl eq_refl eq_refl) as H.
  hnf in H. destruct H as [_ H]. hnf in H. destruct H as [H _].
  do 2 eexists. split; [exact H|]. split; vm_compute; reflexivity.
Defined.

Lemma setup_fails_cleanly_witness :
  exists w',
    main_setup no_dump_extern 16 argv4 initial_world = Exits EXIT_FAILURE w' /\
    (forall fuel, main no_dump_extern 16 fuel argv4 initial_world = Exits EXIT_FAILURE w') /\
    calls w' = take 5 (setup_calls argv4) ++ [c_perror "materials/dump"]
               ++ release_calls None None None EXIT_FAILURE /\
    (5 <= 11)%nat /\
    print_state_step w' = 0.
Proof.
  apply (proj1 (setup_fails_cleanly no_dump_extern 16 argv4) 5%nat [c_perror "materials/dump"]
           None).
  apply fail_fopen; [vm_compute; lia|reflexivity].
Defined.

Lemma initial_particle_witness :
  calls flat_setup_world = setup_calls argv4 /\
  heap flat_setup_world = {[ 1%positive :=
    cell_state (mkState (double_of_int (-1)) (x_strtod flat_extern "1E+09") one
                        (x_stepper_position flat_extern (Some earth_layers))
                        (x_ecef_from_horizontal flat_extern (x_strtod flat_extern "0")
                                                (x_strtod flat_extern "90"))) ]} /\
  print_state_step flat_setup_world = 0 /\
  error_handler flat_setup_world = Some "handle_error"%string /\
  (4 <= length argv4)%nat.
Proof.
  apply (initial_particle flat_extern 16 argv4 1%positive flat_setup_world).
  vm_compute. reflexivity.
Defined.

Lemma observations_alternate_with_steps_witness :
  exists w',
    main flat_extern 16 10 argv4 initial_world = Exits EXIT_SUCCESS w' /\
    Forall (fun m => match m with Line n => 0 <= n < 2147483647 | Step => True end)
           (marks (calls w')).
Proof.
  pose (w' := default initial_world (final (main flat_extern 16 10 argv4 initial_world))).
  assert (main flat_extern 16 10 argv4 initial_world = Exits EXIT_SUCCESS w') as Hmain
    by (vm_compute; reflexivity).
  pose proof (observations_alternate_with_steps flat_extern 16 10 argv4
                ltac:(vm_compute; reflexivity)) as H.
  rewrite Hmain in H. exists w'. split; [exact Hmain|exact (proj1 H)].
Defined.

Lemma earth_medium_reports_step_witness :
  exists w',
    earth_medium flat_extern None 1%positive (Some 2%positive) (Some 3%positive)
                 (callback_world rock_state) = Returns PUMAS_STEP_APPROXIMATE w' /\
    heap w' !! 3%positive
    = Some (cell_double (Some (fst (x_stepper_step flat_extern
                                      (stepper (callback_world rock_state))
                                      (position rock_state))))) /\
    (forall l, Some 2%positive <> Some l -> l <> 3%positive ->
               heap w' !! l = heap (callback_world rock_state) !! l).
Proof.
  apply (earth_medium_reports_step flat_extern None 1%positive (Some 2%positive) 3%positive
           (callback_world rock_state) rock_state); reflexivity.
Defined.

Lemma uniform01_is_zero_only_for_zero_witness :
  exists u,
    uniform01 (rand_extern 1) 2147483647 None initial_world
    = Returns u (log c_rand initial_world) /\
    (x_rand (rand_extern 1) (trace initial_world) = 0 -> u = zero) /\
    (0 < x_rand (rand_extern 1) (trace initial_world) ->
     double_ltb zero u = true /\ exists m e, u = S754_finite false m e).
Proof.
  apply (uniform01_is_zero_only_for_zero (rand_extern 1) 2147483647 None initial_world);
    cbn; lia.
Defined.


Lemma loop_ends_on_a_zero_of_either_sign_witness :
  let s := mkState (double_of_int (-1)) (double_of_int 1000000000) one
                   (mkVec3 zero zero (double_of_int (-500))) (mkVec3 zero zero one) in
  let w1 := observed flat_extern s "Water"
              (stepped (configured_context 16 (mkContext None None 0)) 1%positive
                       rock_start s flat_setup_world) in
  transport_loop flat_extern 3 1%positive flat_setup_world
  = transport_loop flat_extern 2 1%positive w1.
Proof.
  intros s w1.
  apply (loop_ends_on_a_zero_of_either_sign flat_extern 2 1%positive flat_setup_world
           s (earth_media_plus 0, earth_media_plus 1) w1).
  vm_compute. reflexivity.
Defined.

Lemma loop_has_no_bound_of_its_own_witness :
  exists w', main endless_extern 16 5 argv4 initial_world = Runs w'.
Proof.
  apply (loop_has_no_bound_of_its_own endless_extern 16 5 argv4 1%positive
           (setup_world endless_extern 16 "0" "90" "1E+09" 1%positive
                        (mkContext None None 0) 7 4 2)).
  - vm_compute. reflexivity.
  - intros hist ctx stp s. do 4 eexists. split; reflexivity.
  - intros id. eexists. reflexivity.
Defined.

Lemma loop_ends_on_zero_energy_or_void_witness :
  let s := mkState (double_of_int (-1)) (double_of_int 1000000000) one
                   (mkVec3 zero zero (double_of_int (-500))) (mkVec3 zero zero one) in
  exists w1,
    loop_body flat_extern 1%positive flat_setup_world
    = Returns (s, (earth_media_plus 0, earth_media_plus 1)) w1 /\
    transport_loop flat_extern 3 1%positive flat_setup_world <> Returns tt w1 /\
    transport_loop flat_extern 3 1%positive flat_setup_world
    = transport_loop flat_extern 2 1%positive w1 /\
    heap w1 !! 1%positive = Some (cell_state s).
Proof.
  intros s.
  pose proof (loop_ends_on_zero_energy_or_void flat_extern
                (configured_context 16 (mkContext None None 0)) 2 1%positive
                flat_setup_world rock_start eq_refl eq_refl eq_refl eq_refl) as H.
  hnf in H. hnf in H. destruct H as (w1 & evs & Hbody & _ & _ & Hs & Hiff & Hgo).
  exists w1. split; [exact Hbody|]. split.
  - intros Hret. apply Hiff in Hret.
    destruct Hret as [Hret|Hret]; [|discriminate Hret].
    vm_compute in Hret. discriminate Hret.
  - destruct Hgo as (Hturn & _);
      [vm_compute; reflexivity|intros Hnull; discriminate Hnull|].
    split; [exact Hturn|exact Hs].
Defined.
